(** * Admin dashboard: validation, media upload and CRUD handlers

    A shallow embedding of [src/pages/Admin.tsx]: the three zod schemas,
    the submission handlers of the project, service and gallery forms,
    the delete handlers, [cancelEditService] and the handlers that edit
    the selection; and of the public pages: the two gallery pages and
    the page of one service.

    JavaScript strings are sequences of UTF-16 code units, so a string is
    a [list N] and [.length] is [List.length].  The hosted backend, the
    confirmation dialog and [Math.random] are outside the repository: they
    are an interface ([Backend]) over an arbitrary world type, and every
    theorem quantifies over all of its implementations.  Each awaited
    backend call is recorded, with its outcome, in a request log. *)

From Stdlib Require Import List String Ascii NArith ZArith Bool Arith Lia.
From Stdlib Require DecimalString.
Import ListNotations.
Local Open Scope list_scope.

Set Implicit Arguments.

(** ** JavaScript strings *)

Module Js.

Definition jsstring := list N.

(** An ASCII literal of the source, as code units. *)
Definition lit (s : string) : jsstring :=
  map N_of_ascii (list_ascii_of_string s).

(** [WhiteSpace] and [LineTerminator] of ECMAScript: what
    [String.prototype.trim] strips (and what [parseInt] skips). *)
Definition is_ws (c : N) : bool :=
  ((9 <=? c) && (c <=? 13) || (c =? 32) || (c =? 160) || (c =? 5760)
   || (8192 <=? c) && (c <=? 8202) || (c =? 8232) || (c =? 8233)
   || (c =? 8239) || (c =? 8287) || (c =? 12288) || (c =? 65279))%N.

Fixpoint trimStart (s : jsstring) : jsstring :=
  match s with
  | [] => []
  | c :: r => if is_ws c then trimStart r else s
  end.

(** Nothing to strip at the front. *)
Definition clean_start (s : jsstring) : Prop :=
  match s with
  | [] => True
  | c :: _ => is_ws c = false
  end.

Definition trimEnd (s : jsstring) : jsstring := rev (trimStart (rev s)).

Definition trim (s : jsstring) : jsstring := trimEnd (trimStart s).

(** [a === b] on strings. *)
Fixpoint eqb (a b : jsstring) : bool :=
  match a, b with
  | [], [] => true
  | x :: a', y :: b' => (x =? y)%N && eqb a' b'
  | _, _ => false
  end.

(** [s.length] *)
Definition len (s : jsstring) : Z := Z.of_nat (List.length s).

(** A string is truthy when it is not empty. *)
Definition truthy (s : jsstring) : bool :=
  match s with [] => false | _ => true end.

(** [s || undefined] *)
Definition or_undefined (s : jsstring) : option jsstring :=
  if truthy s then Some s else None.

(** [s.split(sep)] for a one-character separator: never empty. *)
Fixpoint split (sep : N) (s : jsstring) : list jsstring :=
  match s with
  | [] => [[]]
  | c :: r =>
      if (c =? sep)%N then [] :: split sep r
      else match split sep r with
           | [] => [[c]]
           | w :: ws => (c :: w) :: ws
           end
  end.

(** [arr.pop()] on the array [split] returns: its last element. *)
Definition pop (l : list jsstring) : jsstring := last l [].

Definition dot : N := 46.
Definition slash : N := 47.

(** Decimal rendering of a non-negative integer, as a template literal
    prints it. *)
Definition of_nat (n : nat) : jsstring :=
  lit (DecimalString.NilZero.string_of_uint (Nat.to_uint n)).

(** [parseInt(s)] with no radix.  [None] is NaN.  The result is kept as
    an exact integer: the schema only compares it with 1900 and with
    the next year, and rounding to a double is monotone and exact on
    that range. *)
Definition digit_val (radix : Z) (c : N) : option Z :=
  let d :=
    if ((48 <=? c) && (c <=? 57))%N then Some (Z.of_N c - 48)%Z
    else if ((97 <=? c) && (c <=? 122))%N then Some (Z.of_N c - 87)%Z
    else if ((65 <=? c) && (c <=? 90))%N then Some (Z.of_N c - 55)%Z
    else None in
  match d with
  | Some v => if (v <? radix)%Z then Some v else None
  | None => None
  end.

Fixpoint digits (radix : Z) (acc : option Z) (s : jsstring) : option Z :=
  match s with
  | [] => acc
  | c :: r =>
      match digit_val radix c with
      | Some v =>
          digits radix
            (Some (match acc with Some a => a * radix + v | None => v end)%Z) r
      | None => acc
      end
  end.

Definition parseInt (s : jsstring) : option Z :=
  let s1 := trimStart s in
  let '(sign, s2) :=
    match s1 with
    | 45%N :: r => ((-1)%Z, r)
    | 43%N :: r => (1%Z, r)
    | _ => (1%Z, s1)
    end in
  let '(radix, s3) :=
    match s2 with
    | 48%N :: 120%N :: r => (16%Z, r)
    | 48%N :: 88%N :: r => (16%Z, r)
    | _ => (10%Z, s2)
    end in
  match digits radix None s3 with
  | Some v => Some (sign * v)%Z
  | None => None
  end.

End Js.
Import Js.

(** ** The zod schemas (lines 15-35) *)

Module Zod.

(** A JavaScript number as the schemas see it. *)
Inductive number := NaN | Num (z : Z).

Inductive IssueCode :=
| invalid_type
| too_small (minimum : Z)
| too_big (maximum : Z).

Record Issue := { path : string; code : IssueCode; message : option string }.

(** The checks chained on [z.string()], applied in the order written. *)
Inductive StringCheck :=
| ztrim
| zmin (n : Z) (msg : option string)
| zmax (n : Z).

Fixpoint parse_string (cs : list StringCheck) (p : string) (data : jsstring)
  : jsstring * list Issue :=
  match cs with
  | [] => (data, [])
  | ztrim :: r => parse_string r p (Js.trim data)
  | zmin n msg :: r =>
      let '(v, iss) := parse_string r p data in
      (v, if (Js.len data <? n)%Z
          then {| path := p; code := too_small n; message := msg |} :: iss
          else iss)
  | zmax n :: r =>
      let '(v, iss) := parse_string r p data in
      (v, if (n <? Js.len data)%Z
          then {| path := p; code := too_big n; message := None |} :: iss
          else iss)
  end.

(** [.optional()]: [undefined] passes through untouched. *)
Definition parse_optional_string (cs : list StringCheck) (p : string)
  (data : option jsstring) : option jsstring * list Issue :=
  match data with
  | None => (None, [])
  | Some d => let '(v, iss) := parse_string cs p d in (Some v, iss)
  end.

(** [z.number().min(lo).max(hi).optional()]: NaN is not a number. *)
Definition parse_optional_number (lo hi : Z) (p : string)
  (data : option number) : option number * list Issue :=
  match data with
  | None => (None, [])
  | Some NaN =>
      (Some NaN, [{| path := p; code := invalid_type; message := None |}])
  | Some (Num z) =>
      (Some (Num z),
       (if (z <? lo)%Z
        then [{| path := p; code := too_small lo; message := None |}] else [])
       ++ (if (hi <? z)%Z
           then [{| path := p; code := too_big hi; message := None |}] else []))
  end.

(** [schema.parse] returns the parsed object or throws a [ZodError]
    carrying every issue found. *)
Definition finish {A : Type} (v : A) (iss : list Issue) : list Issue + A :=
  match iss with
  | [] => inr v
  | _ => inl iss
  end.

End Zod.
Import Zod.

Module ProjectSchema.
Record t := {
  title : jsstring;
  description : jsstring;
  category : jsstring;
  location : option jsstring;
  year_completed : option number }.

Definition title_checks := [ztrim; zmin 1 (Some "Title is required"%string); zmax 200].
Definition description_checks :=
  [ztrim; zmin 1 (Some "Description is required"%string); zmax 2000].
Definition category_checks :=
  [ztrim; zmin 1 (Some "Category is required"%string); zmax 100].
Definition location_checks := [ztrim; zmax 200].

(** [this_year] is [new Date().getFullYear()] when the module loads. *)
Definition parse (this_year : Z) (i : t) : list Issue + t :=
  let '(a, e1) := parse_string title_checks "title" (title i) in
  let '(b, e2) := parse_string description_checks "description" (description i) in
  let '(c, e3) := parse_string category_checks "category" (category i) in
  let '(d, e4) := parse_optional_string location_checks "location" (location i) in
  let '(y, e5) :=
    parse_optional_number 1900 (this_year + 1) "year_completed" (year_completed i) in
  finish {| title := a; description := b; category := c; location := d;
            year_completed := y |}
         (e1 ++ e2 ++ e3 ++ e4 ++ e5).
End ProjectSchema.

Module ServiceSchema.
Record t := {
  title : jsstring;
  slug : jsstring;
  short_description : option jsstring;
  description : jsstring;
  icon : option jsstring }.

Definition title_checks := [ztrim; zmin 1 (Some "Title is required"%string); zmax 200].
Definition slug_checks := [ztrim; zmin 1 (Some "Slug is required"%string); zmax 200].
Definition short_description_checks := [ztrim; zmax 500].
Definition description_checks :=
  [ztrim; zmin 1 (Some "Description is required"%string)].
Definition icon_checks := [ztrim; zmax 100].

Definition parse (i : t) : list Issue + t :=
  let '(a, e1) := parse_string title_checks "title" (title i) in
  let '(b, e2) := parse_string slug_checks "slug" (slug i) in
  let '(c, e3) :=
    parse_optional_string short_description_checks "short_description"
      (short_description i) in
  let '(d, e4) := parse_string description_checks "description" (description i) in
  let '(f, e5) := parse_optional_string icon_checks "icon" (icon i) in
  finish {| title := a; slug := b; short_description := c; description := d;
            icon := f |}
         (e1 ++ e2 ++ e3 ++ e4 ++ e5).
End ServiceSchema.

Module GallerySchema.
Record t := {
  title : option jsstring;
  description : option jsstring;
  category : jsstring }.

Definition title_checks := [ztrim; zmax 200].
Definition description_checks := [ztrim; zmax 500].
Definition category_checks :=
  [ztrim; zmin 1 (Some "Category is required"%string); zmax 100].

Definition parse (i : t) : list Issue + t :=
  let '(a, e1) := parse_optional_string title_checks "title" (title i) in
  let '(b, e2) :=
    parse_optional_string description_checks "description" (description i) in
  let '(c, e3) := parse_string category_checks "category" (category i) in
  finish {| title := a; description := b; category := c |} (e1 ++ e2 ++ e3).
End GallerySchema.

(** ** Rows, files, requests *)

(** A JSON value of a row sent to the data store. *)
Inductive Value :=
| VNull
| VBool (b : bool)
| VNum (z : Z)
| VStr (s : jsstring).

(** An object literal: its properties in the order they are written.  A
    property that is absent has no entry. *)
Definition Row := list (string * Value).

Fixpoint field (k : string) (r : Row) : option Value :=
  match r with
  | [] => None
  | (k', v) :: r' => if String.eqb k k' then Some v else field k r'
  end.

(** A browser [File]: the handlers read its [name] only. *)
Record File := { name : jsstring; content : list N }.

(** The [error] object of a backend reply: the handlers read [.message]. *)
Inductive ApiError := api_error (msg : jsstring).

(** What a handler can throw: the [ZodError] of [schema.parse] or the
    [error] of a backend reply. *)
Inductive Exn :=
| ZodError (issues : list Issue)
| Thrown (e : ApiError).

(** The awaited calls on the supabase client. *)
Inductive Request :=
| StorageUpload (bucket : string) (path : jsstring) (file : File)
| StorageRemove (bucket : string) (paths : list jsstring)
| DbInsert (table : string) (rows : list Row)
| DbUpdate (table : string) (data : Row) (column : string) (value : jsstring)
| DbDelete (table : string) (column : string) (value : jsstring)
| DbSelect (table : string) (order : string) (ascending : bool).

Inductive Outcome := Done | Failed (e : ApiError).

Definition Event := (Request * Outcome)%type.

(** The description of a toast: a literal, or the [.message] of what was
    caught. *)
Inductive Text :=
| Literal (s : jsstring)
| MessageOf (e : Exn).

Record Toast := { toast_title : string; toast_description : Text; destructive : bool }.

Inductive MediaType := image | video.

(** [galleryMediaType === m] *)
Definition is_media (m t : MediaType) : bool :=
  match m, t with
  | image, image | video, video => true
  | _, _ => false
  end.

(** ** Component state (lines 67-100)

    The [useState] cells, grouped by form.  [user] and [loading] are
    touched by no handler below and are left out. *)

Record ProjectForm := {
  title : jsstring;
  description : jsstring;
  category : jsstring;
  location : jsstring;
  yearCompleted : jsstring;
  images : list File;
  projectVideos : list File;
  submitting : bool }.

Record ServiceForm := {
  serviceTitle : jsstring;
  serviceSlug : jsstring;
  serviceShortDesc : jsstring;
  serviceDescription : jsstring;
  serviceIcon : jsstring;
  serviceImages : list File;
  serviceVideos : list File;
  editingService : option jsstring;
  serviceSubmitting : bool }.

Record GalleryForm := {
  galleryTitle : jsstring;
  galleryDescription : jsstring;
  galleryCategory : jsstring;
  galleryImages : list File;
  galleryVideo : option File;
  galleryVideoUrl : jsstring;
  galleryMediaType : MediaType;
  gallerySubmitting : bool }.

Record UI := {
  projects : list Row;
  services : list Row;
  galleryItems : list Row;
  project_form : ProjectForm;
  service_form : ServiceForm;
  gallery_form : GalleryForm }.

(** The backend and the browser, as the handlers use them.  Every awaited
    supabase call resolves to a reply that carries [error] or not; none
    rejects.  [getPublicUrl] is synchronous and builds the URL locally.
    [insert_single] is [.insert(rows).select().single()] and replies with
    the [id] of the created row; [random] is [Math.random()] as a template
    literal prints it; [confirm] is [window.confirm]. *)
Class Backend (W : Type) := {
  upload : string -> jsstring -> File -> W -> option ApiError * W;
  remove : string -> list jsstring -> W -> option ApiError * W;
  getPublicUrl : string -> jsstring -> jsstring;
  insert : string -> list Row -> W -> option ApiError * W;
  insert_single : string -> list Row -> W -> (ApiError + jsstring) * W;
  update : string -> Row -> string -> jsstring -> W -> option ApiError * W;
  delete : string -> string -> jsstring -> W -> option ApiError * W;
  select : string -> string -> bool -> W -> (ApiError + option (list Row)) * W;
  random : W -> jsstring * W;
  confirm : jsstring -> W -> bool * W }.

Definition outcome_of (r : option ApiError) : Outcome :=
  match r with
  | Some e => Failed e
  | None => Done
  end.

Definition outcome_of_sum {A : Type} (r : ApiError + A) : Outcome :=
  match r with
  | inl e => Failed e
  | inr _ => Done
  end.

(** ** State setters *)

Definition setProjects v (u : UI) : UI :=
  let 'Build_UI _ s g pf sf gf := u in Build_UI v s g pf sf gf.
Definition setServices v (u : UI) : UI :=
  let 'Build_UI p _ g pf sf gf := u in Build_UI p v g pf sf gf.
Definition setGalleryItems v (u : UI) : UI :=
  let 'Build_UI p s _ pf sf gf := u in Build_UI p s v pf sf gf.
Definition on_project (f : ProjectForm -> ProjectForm) (u : UI) : UI :=
  let 'Build_UI p s g pf sf gf := u in Build_UI p s g (f pf) sf gf.
Definition on_service (f : ServiceForm -> ServiceForm) (u : UI) : UI :=
  let 'Build_UI p s g pf sf gf := u in Build_UI p s g pf (f sf) gf.
Definition on_gallery (f : GalleryForm -> GalleryForm) (u : UI) : UI :=
  let 'Build_UI p s g pf sf gf := u in Build_UI p s g pf sf (f gf).

Definition setTitle v : UI -> UI := on_project (fun f =>
  let 'Build_ProjectForm _ d c l y i pv s := f in Build_ProjectForm v d c l y i pv s).
Definition setDescription v : UI -> UI := on_project (fun f =>
  let 'Build_ProjectForm t _ c l y i pv s := f in Build_ProjectForm t v c l y i pv s).
Definition setCategory v : UI -> UI := on_project (fun f =>
  let 'Build_ProjectForm t d _ l y i pv s := f in Build_ProjectForm t d v l y i pv s).
Definition setLocation v : UI -> UI := on_project (fun f =>
  let 'Build_ProjectForm t d c _ y i pv s := f in Build_ProjectForm t d c v y i pv s).
Definition setYearCompleted v : UI -> UI := on_project (fun f =>
  let 'Build_ProjectForm t d c l _ i pv s := f in Build_ProjectForm t d c l v i pv s).
Definition setImages v : UI -> UI := on_project (fun f =>
  let 'Build_ProjectForm t d c l y _ pv s := f in Build_ProjectForm t d c l y v pv s).
Definition setProjectVideos v : UI -> UI := on_project (fun f =>
  let 'Build_ProjectForm t d c l y i _ s := f in Build_ProjectForm t d c l y i v s).
Definition setSubmitting v : UI -> UI := on_project (fun f =>
  let 'Build_ProjectForm t d c l y i pv _ := f in Build_ProjectForm t d c l y i pv v).

Definition setServiceTitle v : UI -> UI := on_service (fun f =>
  let 'Build_ServiceForm _ sl sd d ic im vi ed su := f in
  Build_ServiceForm v sl sd d ic im vi ed su).
Definition setServiceSlug v : UI -> UI := on_service (fun f =>
  let 'Build_ServiceForm t _ sd d ic im vi ed su := f in
  Build_ServiceForm t v sd d ic im vi ed su).
Definition setServiceShortDesc v : UI -> UI := on_service (fun f =>
  let 'Build_ServiceForm t sl _ d ic im vi ed su := f in
  Build_ServiceForm t sl v d ic im vi ed su).
Definition setServiceDescription v : UI -> UI := on_service (fun f =>
  let 'Build_ServiceForm t sl sd _ ic im vi ed su := f in
  Build_ServiceForm t sl sd v ic im vi ed su).
Definition setServiceIcon v : UI -> UI := on_service (fun f =>
  let 'Build_ServiceForm t sl sd d _ im vi ed su := f in
  Build_ServiceForm t sl sd d v im vi ed su).
Definition setServiceImages v : UI -> UI := on_service (fun f =>
  let 'Build_ServiceForm t sl sd d ic _ vi ed su := f in
  Build_ServiceForm t sl sd d ic v vi ed su).
Definition setEditingService v : UI -> UI := on_service (fun f =>
  let 'Build_ServiceForm t sl sd d ic im vi _ su := f in
  Build_ServiceForm t sl sd d ic im vi v su).
Definition setServiceSubmitting v : UI -> UI := on_service (fun f =>
  let 'Build_ServiceForm t sl sd d ic im vi ed _ := f in
  Build_ServiceForm t sl sd d ic im vi ed v).

Definition setGalleryTitle v : UI -> UI := on_gallery (fun f =>
  let 'Build_GalleryForm _ d c im vi vu mt su := f in
  Build_GalleryForm v d c im vi vu mt su).
Definition setGalleryDescription v : UI -> UI := on_gallery (fun f =>
  let 'Build_GalleryForm t _ c im vi vu mt su := f in
  Build_GalleryForm t v c im vi vu mt su).
Definition setGalleryCategory v : UI -> UI := on_gallery (fun f =>
  let 'Build_GalleryForm t d _ im vi vu mt su := f in
  Build_GalleryForm t d v im vi vu mt su).
Definition setGalleryImages v : UI -> UI := on_gallery (fun f =>
  let 'Build_GalleryForm t d c _ vi vu mt su := f in
  Build_GalleryForm t d c v vi vu mt su).
Definition setGalleryVideoUrl v : UI -> UI := on_gallery (fun f =>
  let 'Build_GalleryForm t d c im vi _ mt su := f in
  Build_GalleryForm t d c im vi v mt su).
Definition setGalleryMediaType v : UI -> UI := on_gallery (fun f =>
  let 'Build_GalleryForm t d c im vi vu _ su := f in
  Build_GalleryForm t d c im vi vu v su).
Definition setGallerySubmitting v : UI -> UI := on_gallery (fun f =>
  let 'Build_GalleryForm t d c im vi vu mt _ := f in
  Build_GalleryForm t d c im vi vu mt v).

(** ** The handler monad: state, request log, toasts, exceptions *)

Section Handlers.

Context {W : Type} {B : Backend W}.

(** [new Date().getFullYear()] at module load. *)
Variable this_year : Z.

Record St := { world : W; ui : UI; log : list Event; toasts : list Toast }.

Definition M (A : Type) : Type := St -> (Exn + A) * St.

Definition ret {A} (a : A) : M A := fun s => (inr a, s).

Definition bind {A C} (m : M A) (k : A -> M C) : M C := fun s =>
  match m s with
  | (inr a, s') => k a s'
  | (inl e, s') => (inl e, s')
  end.

Definition throw {A} (e : Exn) : M A := fun s => (inl e, s).

(** [try { body } catch (error) { handler error }] *)
Definition try_catch {A} (body : M A) (handler : Exn -> M A) : M A := fun s =>
  match body s with
  | (inr a, s') => (inr a, s')
  | (inl e, s') => handler e s'
  end.

(** [try { body } finally { fin }] *)
Definition finally {A} (body : M A) (fin : M unit) : M A := fun s =>
  match body s with
  | (r, s') =>
      match fin s' with
      | (inr _, s'') => (r, s'')
      | (inl e, s'') => (inl e, s'')
      end
  end.

Notation "x <- m ;; k" := (bind m (fun x => k))
  (at level 61, m at next level, right associativity).
Notation "m ;; k" := (bind m (fun _ => k))
  (at level 61, right associativity).

(** A [setX(v)] call: the new value reaches the next render; the running
    handler keeps reading the values it captured. *)
Definition set (f : UI -> UI) : M unit := fun s =>
  (inr tt, {| world := world s; ui := f (ui s); log := log s; toasts := toasts s |}).

Definition toast (t : string) (d : Text) (v : bool) : M unit := fun s =>
  (inr tt, {| world := world s; ui := ui s; log := log s;
              toasts := toasts s ++ [{| toast_title := t; toast_description := d;
                                        destructive := v |}] |}).

(** An awaited call: the world answers and the request is logged. *)
Definition call {A} (req : Request) (f : W -> A * W) (o : A -> Outcome) : M A :=
  fun s =>
    let '(r, w') := f (world s) in
    (inr r, {| world := w'; ui := ui s; log := log s ++ [(req, o r)];
               toasts := toasts s |}).

(** A local call on the browser: nothing is sent. *)
Definition local {A} (f : W -> A * W) : M A := fun s =>
  let '(r, w') := f (world s) in
  (inr r, {| world := w'; ui := ui s; log := log s; toasts := toasts s |}).

Definition storage_upload bucket path file : M (option ApiError) :=
  call (StorageUpload bucket path file) (upload bucket path file) outcome_of.
Definition storage_remove bucket paths : M (option ApiError) :=
  call (StorageRemove bucket paths) (remove bucket paths) outcome_of.
Definition db_insert table rows : M (option ApiError) :=
  call (DbInsert table rows) (insert table rows) outcome_of.
Definition db_insert_single table rows : M (ApiError + jsstring) :=
  call (DbInsert table rows) (insert_single table rows) (@outcome_of_sum _).
Definition db_update table data col v : M (option ApiError) :=
  call (DbUpdate table data col v) (update table data col v) outcome_of.
Definition db_delete table col v : M (option ApiError) :=
  call (DbDelete table col v) (delete table col v) outcome_of.
Definition db_select table order asc : M (ApiError + option (list Row)) :=
  call (DbSelect table order asc) (select table order asc) (@outcome_of_sum _).

(** [data || []] *)
Definition or_empty (data : option (list Row)) : list Row :=
  match data with
  | Some l => l
  | None => []
  end.

(** [if (error) throw error] *)
Definition throw_if (r : option ApiError) : M unit :=
  match r with
  | Some e => throw (Thrown e)
  | None => ret tt
  end.

(** [schema.parse(input)] inside a handler. *)
Definition parse_or_throw {A} (r : list Issue + A) : M A :=
  match r with
  | inl iss => throw (ZodError iss)
  | inr v => ret v
  end.

(** [validated.x || null] *)
Definition or_null (v : option jsstring) : Value :=
  match v with
  | Some s => if truthy s then VStr s else VNull
  | None => VNull
  end.

(** [if (validated.x) data.x = validated.x] for an optional string. *)
Definition if_string (k : string) (v : option jsstring) : Row :=
  match v with
  | Some s => if truthy s then [(k, VStr s)] else []
  | None => []
  end.

(** The same for an optional number: 0 and NaN are falsy. *)
Definition if_number (k : string) (v : option number) : Row :=
  match v with
  | Some (Num z) => if (z =? 0)%Z then [] else [(k, VNum z)]
  | _ => []
  end.

(** ** List refresh (lines 130-179)

    The handlers call these without [await]: the select is sent at once
    and its reply is handled after the handler's [finally].  The reply
    touches a list only and [finally] a submitting flag only, so the
    refresh is run in place. *)

Definition fetchProjects : M unit :=
  r <- db_select "projects" "created_at" false ;;
  match r with
  | inl _ => toast "Error" (Literal (lit "Failed to fetch projects")) true
  | inr data => set (setProjects (or_empty data))
  end.

Definition fetchServices : M unit :=
  r <- db_select "services" "created_at" false ;;
  match r with
  | inl _ => toast "Error" (Literal (lit "Failed to fetch services")) true
  | inr data => set (setServices (or_empty data))
  end.

Definition fetchGalleryItems : M unit :=
  r <- db_select "gallery" "display_order" true ;;
  match r with
  | inl _ => toast "Error" (Literal (lit "Failed to fetch gallery items")) true
  | inr data => set (setGalleryItems (or_empty data))
  end.

(** ** Media upload

    One turn of an upload loop.  The five loops of the file (lines
    205-231, 340-366, 371-396, 516-542, 547-572) have this body and
    differ in the bucket, the folder of the path, the table and the row
    only. *)
Definition upload_file (bucket : string) (folder : jsstring) (table : string)
  (row : jsstring -> Row) (file : File) : M unit :=
  let fileExt := pop (split dot (name file)) in
  r <- local random ;;
  let fileName := r ++ lit "." ++ fileExt in
  let filePath := folder ++ fileName in
  uploadError <- storage_upload bucket filePath file ;;
  throw_if uploadError ;;
  let publicUrl := getPublicUrl bucket filePath in
  insertError <- db_insert table [row publicUrl] ;;
  throw_if insertError.

(** [for (let i = i0; i < files.length; i++) body(i, files[i])] *)
Fixpoint for_files (body : nat -> File -> M unit) (i : nat) (files : list File)
  : M unit :=
  match files with
  | [] => ret tt
  | f :: rest => body i f ;; for_files body (S i) rest
  end.

(** [if (files.length > 0) { ... }] *)
Definition if_nonempty (files : list File) (m : M unit) : M unit :=
  if (0 <? List.length files)%nat then m else ret tt.

Definition image_row (parent : string) (id : jsstring) (i : nat) (url : jsstring)
  : Row :=
  [(parent, VStr id); ("image_url"%string, VStr url);
   ("is_primary"%string, VBool (i =? 0)%nat);
   ("display_order"%string, VNum (Z.of_nat i))].

Definition video_row (parent : string) (id : jsstring) (i : nat) (url : jsstring)
  : Row :=
  [(parent, VStr id); ("video_url"%string, VStr url);
   ("display_order"%string, VNum (Z.of_nat i))].

Definition gallery_image_row (validated : GallerySchema.t) (url : jsstring) : Row :=
  [("image_url"%string, VStr url);
   ("title"%string, or_null (GallerySchema.title validated));
   ("description"%string, or_null (GallerySchema.description validated));
   ("category"%string, VStr (GallerySchema.category validated));
   ("media_type"%string, VStr (lit "image"))].

Definition gallery_video_row (validated : GallerySchema.t) (url : jsstring) : Row :=
  [("image_url"%string, VNull);
   ("video_url"%string, VStr url);
   ("title"%string, or_null (GallerySchema.title validated));
   ("description"%string, or_null (GallerySchema.description validated));
   ("category"%string, VStr (GallerySchema.category validated));
   ("media_type"%string, VStr (lit "video"))].

(** ** Gallery (lines 181-291) *)

Definition gallery_images_toast (n : nat) : Text :=
  Literal (of_nat n ++ lit " image" ++ (if (1 <? n)%nat then lit "s" else [])
           ++ lit " uploaded successfully").

(** The object handed to [gallerySchema.parse] (lines 195-199). *)
Definition gallery_input (f : GalleryForm) : GallerySchema.t :=
  {| GallerySchema.title := or_undefined (trim (galleryTitle f));
     GallerySchema.description := or_undefined (trim (galleryDescription f));
     GallerySchema.category := galleryCategory f |}.

(** The [try] block of [handleGallerySubmit]. *)
Definition handleGallerySubmit_try (f : GalleryForm) : M unit :=
  validated <- parse_or_throw (GallerySchema.parse (gallery_input f)) ;;
  set (setGallerySubmitting true) ;;
  match galleryMediaType f with
  | image =>
      for_files
        (fun _ img => upload_file "gallery-images" [] "gallery"
                        (gallery_image_row validated) img)
        0 (galleryImages f) ;;
      toast "Success" (gallery_images_toast (List.length (galleryImages f))) false
  | video =>
      insertError <- db_insert "gallery"
        [gallery_video_row validated (trim (galleryVideoUrl f))] ;;
      throw_if insertError ;;
      toast "Success" (Literal (lit "Video added successfully")) false
  end ;;
  set (setGalleryTitle []) ;;
  set (setGalleryDescription []) ;;
  set (setGalleryCategory (lit "team")) ;;
  set (setGalleryImages []) ;;
  set (setGalleryVideoUrl []) ;;
  set (setGalleryMediaType image) ;;
  fetchGalleryItems.

Definition handleGallerySubmit (u : UI) : M unit :=
  let f := gallery_form u in
  if is_media image (galleryMediaType f)
     && (List.length (galleryImages f) =? 0)%nat
  then toast "Error" (Literal (lit "Please select at least one image")) true
  else if is_media video (galleryMediaType f)
          && negb (truthy (trim (galleryVideoUrl f)))
  then toast "Error" (Literal (lit "Please enter a video URL")) true
  else
    finally
      (try_catch (handleGallerySubmit_try f)
         (fun error => toast "Error" (MessageOf error) true))
      (set (setGallerySubmitting false)).

Definition deleteGalleryItem (id : jsstring) (imageUrl : option jsstring) : M unit :=
  ok <- local (confirm (lit "Are you sure you want to delete this gallery item?")) ;;
  if negb ok then ret tt
  else
    try_catch
      (match imageUrl with
       | Some url =>
           if truthy url then
             let filePath := pop (split slash url) in
             if truthy filePath
             then _ <- storage_remove "gallery-images" [filePath] ;; ret tt
             else ret tt
           else ret tt
       | None => ret tt
       end ;;
       error <- db_delete "gallery" "id" id ;;
       throw_if error ;;
       toast "Success" (Literal (lit "Gallery item deleted")) false ;;
       fetchGalleryItems)
      (fun error => toast "Error" (MessageOf error) true).

(** ** Projects (lines 308-444) *)

Definition year_input (s : jsstring) : option number :=
  if truthy s
  then Some (match parseInt s with Some z => Num z | None => NaN end)
  else None.

Definition projectData (validated : ProjectSchema.t) : Row :=
  [("title"%string, VStr (ProjectSchema.title validated));
   ("description"%string, VStr (ProjectSchema.description validated));
   ("category"%string, VStr (ProjectSchema.category validated))]
  ++ if_string "location" (ProjectSchema.location validated)
  ++ if_number "year_completed" (ProjectSchema.year_completed validated).

(** The object handed to [projectSchema.parse] (lines 312-318). *)
Definition project_input (f : ProjectForm) : ProjectSchema.t :=
  {| ProjectSchema.title := trim (title f);
     ProjectSchema.description := trim (description f);
     ProjectSchema.category := trim (category f);
     ProjectSchema.location := or_undefined (trim (location f));
     ProjectSchema.year_completed := year_input (yearCompleted f) |}.

(** The [try] block of [handleSubmit]. *)
Definition handleSubmit_try (f : ProjectForm) : M unit :=
  validated <- parse_or_throw (ProjectSchema.parse this_year (project_input f)) ;;
  set (setSubmitting true) ;;
  r <- db_insert_single "projects" [projectData validated] ;;
  match r with
  | inl projectError => throw (Thrown projectError)
  | inr project_id =>
      if_nonempty (images f)
        (for_files
           (fun i file =>
              upload_file "project-images" (project_id ++ lit "/") "project_images"
                (image_row "project_id" project_id i) file)
           0 (images f)) ;;
      if_nonempty (projectVideos f)
        (for_files
           (fun i file =>
              upload_file "project-images" (project_id ++ lit "/") "project_videos"
                (video_row "project_id" project_id i) file)
           0 (projectVideos f)) ;;
      toast "Success" (Literal (lit "Project created successfully")) false ;;
      set (setTitle []) ;;
      set (setDescription []) ;;
      set (setCategory []) ;;
      set (setLocation []) ;;
      set (setYearCompleted []) ;;
      set (setImages []) ;;
      set (setProjectVideos []) ;;
      fetchProjects
  end.

Definition handleSubmit (u : UI) : M unit :=
  finally
    (try_catch (handleSubmit_try (project_form u))
       (fun error => toast "Error" (MessageOf error) true))
    (set (setSubmitting false)).

Definition deleteProject (id : jsstring) : M unit :=
  ok <- local (confirm (lit "Are you sure you want to delete this project?")) ;;
  if negb ok then ret tt
  else
    error <- db_delete "projects" "id" id ;;
    match error with
    | Some _ => toast "Error" (Literal (lit "Failed to delete project")) true
    | None =>
        toast "Success" (Literal (lit "Project deleted successfully")) false ;;
        fetchProjects
    end.

(** ** Services (lines 456-601) *)

Definition cancelEditService : M unit :=
  set (setEditingService None) ;;
  set (setServiceTitle []) ;;
  set (setServiceSlug []) ;;
  set (setServiceShortDesc []) ;;
  set (setServiceDescription []) ;;
  set (setServiceIcon []) ;;
  set (setServiceImages []).

Definition serviceData (validated : ServiceSchema.t) : Row :=
  [("title"%string, VStr (ServiceSchema.title validated));
   ("slug"%string, VStr (ServiceSchema.slug validated));
   ("description"%string, VStr (ServiceSchema.description validated))]
  ++ if_string "short_description" (ServiceSchema.short_description validated)
  ++ if_string "icon" (ServiceSchema.icon validated).

(** The object handed to [serviceSchema.parse] (lines 479-485). *)
Definition service_input (f : ServiceForm) : ServiceSchema.t :=
  {| ServiceSchema.title := trim (serviceTitle f);
     ServiceSchema.slug := trim (serviceSlug f);
     ServiceSchema.short_description := or_undefined (trim (serviceShortDesc f));
     ServiceSchema.description := trim (serviceDescription f);
     ServiceSchema.icon := or_undefined (trim (serviceIcon f)) |}.

(** [editingService] as the condition of line 498, [if (editingService)]:
    the id being edited when there is one and it is not the empty
    string. *)
Definition editing_id (f : ServiceForm) : option jsstring :=
  match editingService f with
  | Some id => if truthy id then Some id else None
  | None => None
  end.

(** The [try] block of [handleServiceSubmit]. *)
Definition handleServiceSubmit_try (f : ServiceForm) : M unit :=
  validated <- parse_or_throw (ServiceSchema.parse (service_input f)) ;;
  set (setServiceSubmitting true) ;;
  match editing_id f with
  | Some editing =>
      error <- db_update "services" (serviceData validated) "id" editing ;;
      throw_if error ;;
      toast "Success" (Literal (lit "Service updated successfully")) false
  | None =>
      r <- db_insert_single "services" [serviceData validated] ;;
      match r with
      | inl serviceError => throw (Thrown serviceError)
      | inr service_id =>
          if_nonempty (serviceImages f)
            (for_files
               (fun i file =>
                  upload_file "service-images" (service_id ++ lit "/")
                    "service_images" (image_row "service_id" service_id i) file)
               0 (serviceImages f)) ;;
          if_nonempty (serviceVideos f)
            (for_files
               (fun i file =>
                  upload_file "service-images" (service_id ++ lit "/")
                    "service_videos" (video_row "service_id" service_id i) file)
               0 (serviceVideos f)) ;;
          toast "Success" (Literal (lit "Service created successfully")) false
      end
  end ;;
  cancelEditService ;;
  fetchServices.

Definition handleServiceSubmit (u : UI) : M unit :=
  finally
    (try_catch (handleServiceSubmit_try (service_form u))
       (fun error => toast "Error" (MessageOf error) true))
    (set (setServiceSubmitting false)).

Definition deleteService (id : jsstring) : M unit :=
  ok <- local (confirm (lit "Are you sure you want to delete this service?")) ;;
  if negb ok then ret tt
  else
    error <- db_delete "services" "id" id ;;
    match error with
    | Some _ => toast "Error" (Literal (lit "Failed to delete service")) true
    | None =>
        toast "Success" (Literal (lit "Service deleted successfully")) false ;;
        fetchServices
    end.

(** A handler run from a fresh render: the state it captured is the
    state it starts in, nothing is logged or shown yet. *)
Definition start (w : W) (u : UI) : St :=
  {| world := w; ui := u; log := []; toasts := [] |}.

Definition run (h : M unit) (w : W) (u : UI) : St := snd (h (start w u)).

End Handlers.

Arguments St W : clear implicits.
Arguments M W A : clear implicits.

(** ** Reading the request log *)

Definition is_insert_into (table : string) (r : Request) : bool :=
  match r with
  | DbInsert t _ => String.eqb t table
  | _ => false
  end.

Definition is_upload (r : Request) : bool :=
  match r with
  | StorageUpload _ _ _ => true
  | _ => false
  end.

(** A request that takes something back: a row delete or a file removal. *)
Definition is_destructive (r : Request) : bool :=
  match r with
  | StorageRemove _ _ | DbDelete _ _ _ => true
  | _ => false
  end.

Definition succeeded (ev : Event) : bool :=
  match snd ev with
  | Done => true
  | Failed _ => false
  end.

(** The upload requests, in the order they were sent. *)
Definition uploads (l : list Event) : list Event :=
  filter (fun ev => is_upload (fst ev)) l.

(** The insert requests on a table, in the order they were sent. *)
Definition inserts (table : string) (l : list Event) : list Event :=
  filter (fun ev => is_insert_into table (fst ev)) l.

Definition rows_of (ev : Event) : list Row :=
  match fst ev with
  | DbInsert _ rows => rows
  | _ => []
  end.

Definition file_of (ev : Event) : option File :=
  match fst ev with
  | StorageUpload _ _ f => Some f
  | _ => None
  end.

(** The rows a handler asked to insert into a table, whatever the reply. *)
Definition attempted (table : string) (l : list Event) : list Row :=
  flat_map rows_of (inserts table l).

(** The rows the backend accepted. *)
Definition committed (table : string) (l : list Event) : list Row :=
  flat_map rows_of (filter succeeded (inserts table l)).

(** The upload or the insert of the file at index [k] of a batch failed
    with [e]: uploads and inserts are sent one file at a time, so the
    [k]-th of either belongs to the file at index [k]. *)
Definition failed_at (table : string) (l : list Event) (k : nat) (e : ApiError)
  : Prop :=
  (exists r, nth_error (uploads l) k = Some (r, Failed e))
  \/ (exists r, nth_error (inserts table l) k = Some (r, Failed e)).

Definition error_toast (e : Exn) : Toast :=
  {| toast_title := "Error"; toast_description := MessageOf e; destructive := true |}.

Definition success_toast (s : string) : Toast :=
  {| toast_title := "Success"; toast_description := Literal (lit s);
     destructive := false |}.

(** ** An in-memory backend

    One implementation of [Backend], to run the handlers on concrete
    inputs: tables and buckets are lists, the requests whose sequence
    number is in [faults] fail, and [services.slug] is unique. *)

Module Sim.

Record World := {
  rows : list (string * Row);
  objects : list (string * jsstring);
  served : nat;
  faults : list nat;
  randoms : nat;
  answer : bool }.

Definition failing (w : World) : bool := existsb (Nat.eqb (served w)) (faults w).

Definition tick (w : World) : World :=
  {| rows := rows w; objects := objects w; served := S (served w);
     faults := faults w; randoms := randoms w; answer := answer w |}.

Definition with_rows (r : list (string * Row)) (w : World) : World :=
  {| rows := r; objects := objects w; served := served w;
     faults := faults w; randoms := randoms w; answer := answer w |}.

Definition with_objects (o : list (string * jsstring)) (w : World) : World :=
  {| rows := rows w; objects := o; served := served w;
     faults := faults w; randoms := randoms w; answer := answer w |}.

Definition simulated : ApiError := api_error (lit "simulated failure").

Definition duplicate : ApiError :=
  api_error (lit "duplicate key value violates unique constraint").

Definition table_rows (t : string) (w : World) : list Row :=
  map snd (filter (fun tr => String.eqb (fst tr) t) (rows w)).

Definition value_eqb (a b : Value) : bool :=
  match a, b with
  | VNull, VNull => true
  | VBool x, VBool y => Bool.eqb x y
  | VNum x, VNum y => (x =? y)%Z
  | VStr x, VStr y => Js.eqb x y
  | _, _ => false
  end.

Definition has (k : string) (v : Value) (r : Row) : bool :=
  match field k r with
  | Some v' => value_eqb v v'
  | None => false
  end.

(** A slug some stored service already has. *)
Definition slug_taken (t : string) (r : Row) (w : World) : bool :=
  String.eqb t "services"
  && match field "slug" r with
     | Some v => existsb (has "slug" v) (table_rows t w)
     | None => false
     end.

Definition sim_upload (b : string) (p : jsstring) (f : File) (w : World)
  : option ApiError * World :=
  if failing w then (Some simulated, tick w)
  else (None, tick (with_objects (objects w ++ [(b, p)]) w)).

Definition sim_remove (b : string) (ps : list jsstring) (w : World)
  : option ApiError * World :=
  if failing w then (Some simulated, tick w)
  else
    (None,
     tick (with_objects
             (filter (fun o => negb (String.eqb (fst o) b
                                     && existsb (fun p => Js.eqb p (snd o)) ps))
                     (objects w)) w)).

Definition sim_insert (t : string) (rs : list Row) (w : World)
  : option ApiError * World :=
  if failing w then (Some simulated, tick w)
  else if existsb (fun r => slug_taken t r w) rs then (Some duplicate, tick w)
  else (None, tick (with_rows (rows w ++ map (fun r => (t, r)) rs) w)).

Definition fresh_id (w : World) : jsstring := lit "id-" ++ of_nat (served w).

Definition sim_insert_single (t : string) (rs : list Row) (w : World)
  : (ApiError + jsstring) * World :=
  let rs' := map (fun r => ("id"%string, VStr (fresh_id w)) :: r) rs in
  match sim_insert t rs' w with
  | (Some e, w') => (inl e, w')
  | (None, w') => (inr (fresh_id w), w')
  end.

Definition sim_update (t : string) (data : Row) (c : string) (v : jsstring)
  (w : World) : option ApiError * World :=
  if failing w then (Some simulated, tick w)
  else
    (None,
     tick (with_rows
             (map (fun tr => if String.eqb (fst tr) t && has c (VStr v) (snd tr)
                             then (t, data ++ snd tr) else tr)
                  (rows w)) w)).

Definition sim_delete (t : string) (c : string) (v : jsstring) (w : World)
  : option ApiError * World :=
  if failing w then (Some simulated, tick w)
  else
    (None,
     tick (with_rows
             (filter (fun tr => negb (String.eqb (fst tr) t && has c (VStr v) (snd tr)))
                     (rows w)) w)).

(** Rows come back in insertion order, reversed when descending. *)
Definition sim_select (t : string) (order : string) (asc : bool) (w : World)
  : (ApiError + option (list Row)) * World :=
  if failing w then (inl simulated, tick w)
  else (inr (Some (if asc then table_rows t w else rev (table_rows t w))), tick w).

Definition sim_random (w : World) : jsstring * World :=
  (lit "0." ++ of_nat (randoms w),
   {| rows := rows w; objects := objects w; served := served w;
      faults := faults w; randoms := S (randoms w); answer := answer w |}).

Definition sim_url (b : string) (p : jsstring) : jsstring :=
  lit "https://cdn.test/" ++ lit b ++ lit "/" ++ p.

#[global] Instance backend : Backend World := {
  upload := sim_upload;
  remove := sim_remove;
  getPublicUrl := sim_url;
  insert := sim_insert;
  insert_single := sim_insert_single;
  update := sim_update;
  delete := sim_delete;
  select := sim_select;
  random := sim_random;
  confirm := fun _ w => (answer w, w) }.

(** An empty backend that fails the requests numbered in [fs] and whose
    operator answers [a] to a confirmation. *)
Definition empty (fs : list nat) (a : bool) : World :=
  {| rows := []; objects := []; served := 0; faults := fs; randoms := 0;
     answer := a |}.

End Sim.

(** Blank forms, as on the first render. *)
Definition blank_project : ProjectForm :=
  {| title := []; description := []; category := []; location := [];
     yearCompleted := []; images := []; projectVideos := []; submitting := false |}.

Definition blank_service : ServiceForm :=
  {| serviceTitle := []; serviceSlug := []; serviceShortDesc := [];
     serviceDescription := []; serviceIcon := []; serviceImages := [];
     serviceVideos := []; editingService := None; serviceSubmitting := false |}.

Definition blank_gallery : GalleryForm :=
  {| galleryTitle := []; galleryDescription := []; galleryCategory := lit "team";
     galleryImages := []; galleryVideo := None; galleryVideoUrl := [];
     galleryMediaType := image; gallerySubmitting := false |}.

Definition blank : UI :=
  {| projects := []; services := []; galleryItems := [];
     project_form := blank_project; service_form := blank_service;
     gallery_form := blank_gallery |}.

Definition jpg (n : string) : File := {| name := lit n; content := [] |}.

(** ** The trace of an upload loop

    What a loop over [files], started at index [i], adds to the request
    log, and the error it throws if any: one upload and one insert per
    file, in order, up to the first reply that carries an error. *)

Section Batch.

Context {W : Type} {B : Backend W}.
Variables (bucket : string) (folder : jsstring) (table : string).
Variable row : nat -> jsstring -> Row.

Inductive batch : nat -> list File -> list Event -> option ApiError -> Prop :=
| batch_done i : batch i [] [] None
| batch_upload_failed i f fs p e :
    batch i (f :: fs) [(StorageUpload bucket p f, Failed e)] (Some e)
| batch_insert_failed i f fs p e :
    batch i (f :: fs)
      [(StorageUpload bucket p f, Done);
       (DbInsert table [row i (getPublicUrl bucket p)], Failed e)]
      (Some e)
| batch_next i f fs p evs res :
    batch (S i) fs evs res ->
    batch i (f :: fs)
      ((StorageUpload bucket p f, Done)
       :: (DbInsert table [row i (getPublicUrl bucket p)], Done) :: evs)
      res.

End Batch.

(** What a loop returns: nothing, or the error thrown. *)
Definition result_of (res : option ApiError) : Exn + unit :=
  match res with
  | None => inr tt
  | Some e => inl (Thrown e)
  end.

(** The state after some requests were answered: the world moved on,
    the log grew. *)
Definition logged {W : Type} (s : St W) (w' : W) (evs : list Event) : St W :=
  {| world := w'; ui := ui s; log := log s ++ evs; toasts := toasts s |}.

(** ** What a run of a submission handler leaves behind

    One constructor per way through the handler, from the state [s'] it
    ends in. *)

Section Outcomes.

Context {W : Type} {B : Backend W}.
Variables (w : W) (u : UI).

Inductive project_outcome (this_year : Z) (s' : St W) : Prop :=
| project_rejected iss :
    ProjectSchema.parse this_year (project_input (project_form u)) = inl iss ->
    world s' = w -> log s' = [] ->
    toasts s' = [error_toast (ZodError iss)] ->
    ui s' = setSubmitting false u ->
    project_outcome this_year s'
| project_insert_failed v e :
    ProjectSchema.parse this_year (project_input (project_form u)) = inr v ->
    log s' = [(DbInsert "projects" [projectData v], Failed e)] ->
    toasts s' = [error_toast (Thrown e)] ->
    ui s' = setSubmitting false (setSubmitting true u) ->
    project_outcome this_year s'
| project_media_failed v id evs1 res1 evs2 e :
    ProjectSchema.parse this_year (project_input (project_form u)) = inr v ->
    batch "project-images" "project_images" (image_row "project_id" id)
      0 (images (project_form u)) evs1 res1 ->
    match res1 with
    | Some e1 => e1 = e /\ evs2 = []
    | None =>
        batch "project-images" "project_videos" (video_row "project_id" id)
          0 (projectVideos (project_form u)) evs2 (Some e)
    end ->
    log s' = (DbInsert "projects" [projectData v], Done) :: evs1 ++ evs2 ->
    toasts s' = [error_toast (Thrown e)] ->
    ui s' = setSubmitting false (setSubmitting true u) ->
    project_outcome this_year s'
| project_created v id evs1 evs2 sel rest :
    ProjectSchema.parse this_year (project_input (project_form u)) = inr v ->
    batch "project-images" "project_images" (image_row "project_id" id)
      0 (images (project_form u)) evs1 None ->
    batch "project-images" "project_videos" (video_row "project_id" id)
      0 (projectVideos (project_form u)) evs2 None ->
    log s' = (DbInsert "projects" [projectData v], Done)
             :: evs1 ++ evs2 ++ [(DbSelect "projects" "created_at" false, sel)] ->
    toasts s' = success_toast "Project created successfully" :: rest ->
    project_form (ui s') = blank_project ->
    project_outcome this_year s'.

Inductive service_outcome (s' : St W) : Prop :=
| service_rejected iss :
    ServiceSchema.parse (service_input (service_form u)) = inl iss ->
    world s' = w -> log s' = [] ->
    toasts s' = [error_toast (ZodError iss)] ->
    ui s' = setServiceSubmitting false u ->
    service_outcome s'
| service_update_failed v id e :
    ServiceSchema.parse (service_input (service_form u)) = inr v ->
    editing_id (service_form u) = Some id ->
    log s' = [(DbUpdate "services" (serviceData v) "id" id, Failed e)] ->
    toasts s' = [error_toast (Thrown e)] ->
    ui s' = setServiceSubmitting false (setServiceSubmitting true u) ->
    service_outcome s'
| service_updated v id sel rest :
    ServiceSchema.parse (service_input (service_form u)) = inr v ->
    editing_id (service_form u) = Some id ->
    log s' = [(DbUpdate "services" (serviceData v) "id" id, Done);
              (DbSelect "services" "created_at" false, sel)] ->
    toasts s' = success_toast "Service updated successfully" :: rest ->
    service_outcome s'
| service_insert_failed v e :
    ServiceSchema.parse (service_input (service_form u)) = inr v ->
    editing_id (service_form u) = None ->
    log s' = [(DbInsert "services" [serviceData v], Failed e)] ->
    toasts s' = [error_toast (Thrown e)] ->
    ui s' = setServiceSubmitting false (setServiceSubmitting true u) ->
    service_outcome s'
| service_media_failed v id evs1 res1 evs2 e :
    ServiceSchema.parse (service_input (service_form u)) = inr v ->
    editing_id (service_form u) = None ->
    batch "service-images" "service_images" (image_row "service_id" id)
      0 (serviceImages (service_form u)) evs1 res1 ->
    match res1 with
    | Some e1 => e1 = e /\ evs2 = []
    | None =>
        batch "service-images" "service_videos" (video_row "service_id" id)
          0 (serviceVideos (service_form u)) evs2 (Some e)
    end ->
    log s' = (DbInsert "services" [serviceData v], Done) :: evs1 ++ evs2 ->
    toasts s' = [error_toast (Thrown e)] ->
    ui s' = setServiceSubmitting false (setServiceSubmitting true u) ->
    service_outcome s'
| service_created v id evs1 evs2 sel rest :
    ServiceSchema.parse (service_input (service_form u)) = inr v ->
    editing_id (service_form u) = None ->
    batch "service-images" "service_images" (image_row "service_id" id)
      0 (serviceImages (service_form u)) evs1 None ->
    batch "service-images" "service_videos" (video_row "service_id" id)
      0 (serviceVideos (service_form u)) evs2 None ->
    log s' = (DbInsert "services" [serviceData v], Done)
             :: evs1 ++ evs2 ++ [(DbSelect "services" "created_at" false, sel)] ->
    toasts s' = success_toast "Service created successfully" :: rest ->
    service_outcome s'.

Inductive gallery_outcome (s' : St W) : Prop :=
| gallery_no_image :
    galleryMediaType (gallery_form u) = image ->
    galleryImages (gallery_form u) = [] ->
    world s' = w -> log s' = [] -> ui s' = u ->
    toasts s' = [{| toast_title := "Error";
                    toast_description :=
                      Literal (lit "Please select at least one image");
                    destructive := true |}] ->
    gallery_outcome s'
| gallery_no_url :
    galleryMediaType (gallery_form u) = video ->
    truthy (trim (galleryVideoUrl (gallery_form u))) = false ->
    world s' = w -> log s' = [] -> ui s' = u ->
    toasts s' = [{| toast_title := "Error";
                    toast_description := Literal (lit "Please enter a video URL");
                    destructive := true |}] ->
    gallery_outcome s'
| gallery_rejected iss :
    GallerySchema.parse (gallery_input (gallery_form u)) = inl iss ->
    world s' = w -> log s' = [] ->
    toasts s' = [error_toast (ZodError iss)] ->
    ui s' = setGallerySubmitting false u ->
    gallery_outcome s'
| gallery_batch_failed v evs e :
    galleryMediaType (gallery_form u) = image ->
    GallerySchema.parse (gallery_input (gallery_form u)) = inr v ->
    batch "gallery-images" "gallery" (fun _ => gallery_image_row v)
      0 (galleryImages (gallery_form u)) evs (Some e) ->
    log s' = evs ->
    toasts s' = [error_toast (Thrown e)] ->
    ui s' = setGallerySubmitting false (setGallerySubmitting true u) ->
    gallery_outcome s'
| gallery_uploaded v evs sel rest :
    galleryMediaType (gallery_form u) = image ->
    GallerySchema.parse (gallery_input (gallery_form u)) = inr v ->
    batch "gallery-images" "gallery" (fun _ => gallery_image_row v)
      0 (galleryImages (gallery_form u)) evs None ->
    log s' = evs ++ [(DbSelect "gallery" "display_order" true, sel)] ->
    toasts s' = {| toast_title := "Success";
                   toast_description :=
                     gallery_images_toast
                       (List.length (galleryImages (gallery_form u)));
                   destructive := false |} :: rest ->
    gallery_outcome s'
| gallery_video_failed v e :
    galleryMediaType (gallery_form u) = video ->
    GallerySchema.parse (gallery_input (gallery_form u)) = inr v ->
    log s' = [(DbInsert "gallery"
                 [gallery_video_row v (trim (galleryVideoUrl (gallery_form u)))],
               Failed e)] ->
    toasts s' = [error_toast (Thrown e)] ->
    ui s' = setGallerySubmitting false (setGallerySubmitting true u) ->
    gallery_outcome s'
| gallery_video_added v sel rest :
    galleryMediaType (gallery_form u) = video ->
    GallerySchema.parse (gallery_input (gallery_form u)) = inr v ->
    log s' = [(DbInsert "gallery"
                 [gallery_video_row v (trim (galleryVideoUrl (gallery_form u)))],
               Done);
              (DbSelect "gallery" "display_order" true, sel)] ->
    toasts s' = success_toast "Video added successfully" :: rest ->
    gallery_outcome s'.

End Outcomes.

(** A file removal. *)
Definition is_removal (r : Request) : bool :=
  match r with
  | StorageRemove _ _ => true
  | _ => false
  end.

(** The path [deleteGalleryItem] asks storage to remove (lines 276-281):
    the last segment of the image URL, when both are non-empty. *)
Definition stored_file (imageUrl : option jsstring) : option jsstring :=
  match imageUrl with
  | Some url =>
      if truthy url then
        let filePath := pop (split slash url) in
        if truthy filePath then Some filePath else None
      else None
  | None => None
  end.

(** ** Vocabulary of the statements *)

(** A parsed string field: trimmed, and of a length within bounds. *)
Definition bounded (lo hi : Z) (s : jsstring) : Prop :=
  trim s = s /\ (lo <= len s <= hi)%Z.

(** A parsed string field with a minimum only. *)
Definition at_least (lo : Z) (s : jsstring) : Prop :=
  trim s = s /\ (lo <= len s)%Z.

(** An optional field: absent, or as [P] says. *)
Definition optional (P : jsstring -> Prop) (o : option jsstring) : Prop :=
  match o with
  | Some s => P s
  | None => True
  end.

(** ** Sample inputs *)

Module Sample.

(** A project form with two images. *)
Definition project_two_images : UI :=
  setImages [jpg "front.jpg"; jpg "back.png"]
    (setYearCompleted (lit "2024")
       (setCategory (lit "ceilings")
          (setDescription (lit " Stretch ceiling ")
             (setTitle (lit "Villa") blank)))).

(** A project form whose description is 2001 characters long. *)
Definition project_long_description : UI :=
  setDescription (repeat 97%N 2001)
    (setCategory (lit "ceilings") (setTitle (lit "Villa") blank)).

(** A gallery form with three images. *)
Definition gallery_three_images : UI :=
  setGalleryImages [jpg "a.jpg"; jpg "b.jpg"; jpg "c.jpg"] blank.


(** A stored service, and a service form that reuses its slug. *)
Definition living_room : Row :=
  [("id"%string, VStr (lit "id-0")); ("title"%string, VStr (lit "Living room"));
   ("slug"%string, VStr (lit "living-room"));
   ("description"%string, VStr (lit "Ceilings for living rooms"))].

Definition service_same_slug : UI :=
  setServiceImages [jpg "one.jpg"; jpg "two.jpg"]
    (setServiceDescription (lit "Another description")
       (setServiceSlug (lit "living-room")
          (setServiceTitle (lit "Living room again")
             (setServices [living_room] blank)))).

(** A backend that already stores [living_room]. *)
Definition with_living_room : Sim.World :=
  Sim.with_rows [("services"%string, living_room)] (Sim.empty [] true).

(** A service form in the middle of an edit, with media selected. *)
Definition service_editing : UI :=
  on_service (fun _ =>
    {| serviceTitle := lit "Living room"; serviceSlug := lit "living-room";
       serviceShortDesc := lit "short"; serviceDescription := lit "long";
       serviceIcon := lit "Home"; serviceImages := [jpg "one.jpg"];
       serviceVideos := [jpg "clip.mp4"]; editingService := Some (lit "id-0");
       serviceSubmitting := false |})
    (setServices [living_room] blank).

(** The backend after [project_two_images] was submitted: one project
    and two stored images. *)
Definition with_project : Sim.World :=
  world (run (handleSubmit 2026 project_two_images) (Sim.empty [] true)
           project_two_images).

(** A gallery item's image URL, and a backend that fails the next
    request it gets. *)
Definition gallery_url : jsstring :=
  lit "https://cdn.test/gallery-images/0.0.jpg".

Definition failing_next : Sim.World := Sim.empty [0] true.

(** A service form whose description is [n] letters long. *)
Definition service_with_description (n : nat) : ServiceForm :=
  {| serviceTitle := lit "t"; serviceSlug := lit "s"; serviceShortDesc := [];
     serviceDescription := repeat 97%N n; serviceIcon := [];
     serviceImages := []; serviceVideos := []; editingService := None;
     serviceSubmitting := false |}.


End Sample.

(** ** The rest of the admin page

    The handlers of [Admin.tsx] that edit the selection of files, open a
    service for editing, and what the forms show of a run. *)

(** [Service] (lines 46-54). *)
Module ServiceRow.
Record t := {
  id : jsstring;
  title : jsstring;
  slug : jsstring;
  description : jsstring;
  short_description : option jsstring;
  icon : option jsstring;
  is_active : bool }.
End ServiceRow.

(** [x || ""] for a nullable string. *)
Definition or_blank (x : option jsstring) : jsstring :=
  match x with
  | Some s => s
  | None => []
  end.

(** [arr.filter((x, i) => p(x, i))], from index [i]. *)
Fixpoint filter_indexed {A : Type} (p : A -> nat -> bool) (i : nat) (l : list A)
  : list A :=
  match l with
  | [] => []
  | x :: r =>
      if p x i then x :: filter_indexed p (S i) r else filter_indexed p (S i) r
  end.

(** [files.filter((_, i) => i !== index)] *)
Definition without (index : nat) (files : list File) : list File :=
  filter_indexed (fun _ i => negb (i =? index)%nat) 0 files.

Definition setServiceVideos v : UI -> UI := on_service (fun f =>
  let 'Build_ServiceForm t sl sd d ic im _ ed su := f in
  Build_ServiceForm t sl sd d ic im v ed su).

Section Selection.

Context {W : Type} {B : Backend W}.

(** [handleImageChange] (lines 298-302): [files] is [e.target.files]. *)
Definition handleImageChange (files : option (list File)) : M W unit :=
  match files with
  | Some fs => set (setImages fs)
  | None => ret tt
  end.

(** [removeImage] (lines 304-306); [u] is the render it was made in. *)
Definition removeImage (u : UI) (index : nat) : M W unit :=
  set (setImages (without index (images (project_form u)))).

(** [handleServiceImageChange] (lines 446-450). *)
Definition handleServiceImageChange (files : option (list File)) : M W unit :=
  match files with
  | Some fs => set (setServiceImages fs)
  | None => ret tt
  end.

(** [removeServiceImage] (lines 452-454). *)
Definition removeServiceImage (u : UI) (index : nat) : M W unit :=
  set (setServiceImages (without index (serviceImages (service_form u)))).

(** The remove buttons written in place (lines 736, 906, 1019). *)
Definition removeProjectVideo (u : UI) (index : nat) : M W unit :=
  set (setProjectVideos (without index (projectVideos (project_form u)))).

Definition removeServiceVideo (u : UI) (index : nat) : M W unit :=
  set (setServiceVideos (without index (serviceVideos (service_form u)))).

Definition removeGalleryImage (u : UI) (index : nat) : M W unit :=
  set (setGalleryImages (without index (galleryImages (gallery_form u)))).

(** [editService] (lines 456-463). *)
Definition editService (service : ServiceRow.t) : M W unit :=
  bind (set (setEditingService (Some (ServiceRow.id service)))) (fun _ =>
  bind (set (setServiceTitle (ServiceRow.title service))) (fun _ =>
  bind (set (setServiceSlug (ServiceRow.slug service))) (fun _ =>
  bind (set (setServiceShortDesc (or_blank (ServiceRow.short_description service))))
    (fun _ =>
  bind (set (setServiceDescription (ServiceRow.description service))) (fun _ =>
  set (setServiceIcon (or_blank (ServiceRow.icon service)))))))).

End Selection.

(** A form with its submitting flag put down: what is compared when a
    run may only have moved the flag. *)
Definition settled (u : UI) : UI :=
  setGallerySubmitting false (setServiceSubmitting false (setSubmitting false u)).

(** The requests a log holds, without their replies. *)
Definition requests (l : list Event) : list Request := map fst l.

(** The uploads the backend accepted, in the order they were sent. *)
Definition accepted_uploads (l : list Event) : list Event :=
  filter succeeded (uploads l).

Definition is_select (r : Request) : bool :=
  match r with
  | DbSelect _ _ _ => true
  | _ => false
  end.

Definition is_update_of (id : jsstring) (r : Request) : bool :=
  match r with
  | DbUpdate t _ c v => String.eqb t "services" && String.eqb c "id" && Js.eqb v id
  | _ => false
  end.

(** ** What a run shows, and what a form must hold *)

(** The first notice of a run is an error notice. *)
Definition refused {W} (s : St W) : Prop :=
  exists t rest, toasts s = t :: rest /\ destructive t = true.

(** The first notice of a run is the success notice [msg]. *)
Definition announced {W} (msg : string) (s : St W) : Prop :=
  exists rest, toasts s = success_toast msg :: rest.

(** What the three forms must hold for their schema to accept them. *)
Definition valid_year (this_year : Z) (s : jsstring) : Prop :=
  s = [] \/ exists z, parseInt s = Some z /\ (1900 <= z <= this_year + 1)%Z.

Definition valid_project (this_year : Z) (f : ProjectForm) : Prop :=
  (1 <= len (trim (title f)) <= 200)%Z
  /\ (1 <= len (trim (description f)) <= 2000)%Z
  /\ (1 <= len (trim (category f)) <= 100)%Z
  /\ (len (trim (location f)) <= 200)%Z
  /\ valid_year this_year (yearCompleted f).

Definition valid_service (f : ServiceForm) : Prop :=
  (1 <= len (trim (serviceTitle f)) <= 200)%Z
  /\ (1 <= len (trim (serviceSlug f)) <= 200)%Z
  /\ (len (trim (serviceShortDesc f)) <= 500)%Z
  /\ (1 <= len (trim (serviceDescription f)))%Z
  /\ (len (trim (serviceIcon f)) <= 100)%Z.

Definition valid_gallery (f : GalleryForm) : Prop :=
  (len (trim (galleryTitle f)) <= 200)%Z
  /\ (len (trim (galleryDescription f)) <= 500)%Z
  /\ (1 <= len (trim (galleryCategory f)) <= 100)%Z.

(** The gallery form has nothing to send: no image in image mode, no
    URL in video mode (lines 184-192). *)
Definition no_media (f : GalleryForm) : Prop :=
  (galleryMediaType f = image /\ galleryImages f = [])
  \/ (galleryMediaType f = video /\ truthy (trim (galleryVideoUrl f)) = false).

(** The gallery object once parsed: the category comes out trimmed. *)
Definition gallery_parsed (f : GalleryForm) : GallerySchema.t :=
  {| GallerySchema.title := or_undefined (trim (galleryTitle f));
     GallerySchema.description := or_undefined (trim (galleryDescription f));
     GallerySchema.category := trim (galleryCategory f) |}.

(** The service form after a save that went through: everything is
    cleared but the selected videos. *)
Definition service_saved (f : ServiceForm) : ServiceForm :=
  {| serviceTitle := []; serviceSlug := []; serviceShortDesc := [];
     serviceDescription := []; serviceIcon := []; serviceImages := [];
     serviceVideos := serviceVideos f; editingService := None;
     serviceSubmitting := false |}.

(** The gallery form after an upload that went through. *)
Definition gallery_sent (f : GalleryForm) : GalleryForm :=
  {| galleryTitle := []; galleryDescription := []; galleryCategory := lit "team";
     galleryImages := []; galleryVideo := galleryVideo f; galleryVideoUrl := [];
     galleryMediaType := image; gallerySubmitting := false |}.

(** The first notice of a run is a success notice. *)
Definition accepted {W} (s : St W) : Prop :=
  exists t rest, toasts s = t :: rest /\ destructive t = false.

(** An error notice with a message written in the source. *)
Definition fixed_error (msg : string) : Toast :=
  {| toast_title := "Error"; toast_description := Literal (lit msg);
     destructive := true |}.

(** A name [Math.random] gave: what [random] returns in some state of
    the backend. *)
Definition drawn {W : Type} {B : Backend W} (r : jsstring) : Prop :=
  exists w : W, fst (random w) = r.

(** Where an upload goes: the bucket, and a path that is the folder
    followed by a random name, a dot and what follows the last dot of
    the file's name, with nothing before, between or after. *)
Definition uploaded_under {W : Type} {B : Backend W} (bucket : string)
  (folder : jsstring) (ev : Event) : Prop :=
  match fst ev with
  | StorageUpload b p f =>
      b = bucket
      /\ exists r, drawn r /\ p = folder ++ r ++ lit "." ++ pop (split dot (name f))
  | _ => True
  end.

(** The uploads of a run that creates a parent row: when the data store
    replies to the insert with an id, every upload is under the folder
    of that id; when it replies with an error there is no upload. *)
Definition uploads_follow {W : Type} {B : Backend W} (bucket : string)
  (reply : ApiError + jsstring) (l : list Event) : Prop :=
  match reply with
  | inr id => Forall (uploaded_under bucket (id ++ lit "/")) l
  | inl _ => uploads l = []
  end.

(** A handler adds to the log only events that satisfy [P]. *)
Definition only_adds {W A} (P : Event -> Prop) (m : M W A) : Prop :=
  forall s, Forall P (log s) -> Forall P (log (snd (m s))).

(** A project form with two images and a video, and a stored service as
    the list of services holds it. *)
Module AdminSample.

Definition project_with_video : UI :=
  setProjectVideos [jpg "tour.mp4"] Sample.project_two_images.

Definition service_with_media : UI :=
  setServiceVideos [jpg "clip.mp4"]
    (setServiceImages [jpg "one.jpg"; jpg "two.jpg"]
       (setServiceDescription (lit "Ceilings for kitchens")
          (setServiceSlug (lit "kitchen") (setServiceTitle (lit "Kitchen") blank)))).

Definition kitchen : ServiceRow.t :=
  {| ServiceRow.id := lit "id-0"; ServiceRow.title := lit "Kitchen ";
     ServiceRow.slug := lit "kitchen";
     ServiceRow.description := lit "Ceilings for kitchens";
     ServiceRow.short_description := None; ServiceRow.icon := None;
     ServiceRow.is_active := true |}.

End AdminSample.

(** ** The public pages *)

(** [s.endsWith(suffix)] *)
Definition endsWith (s suffix : jsstring) : bool :=
  (List.length suffix <=? List.length s)%nat
  && Js.eqb (skipn (List.length s - List.length suffix) s) suffix.

(** [Array.from(new Set(xs))]: each value once, where it first comes. *)
Fixpoint distinct (seen xs : list jsstring) : list jsstring :=
  match xs with
  | [] => []
  | x :: r =>
      if existsb (Js.eqb x) seen then distinct seen r
      else x :: distinct (x :: seen) r
  end.

(** Decimal rendering of an integer: [String(n)]. *)
Definition of_Z (z : Z) : jsstring :=
  match z with
  | Zneg p => 45%N :: of_nat (Pos.to_nat p)
  | _ => of_nat (Z.to_nat z)
  end.

(** The media type filter of both gallery pages:
    ["all" | "image" | "video"]. *)
Inductive MediaFilter := all_media | only (m : MediaType).

(** The string a media type is written as. *)
Definition media_name (m : MediaType) : jsstring :=
  match m with
  | image => lit "image"
  | video => lit "video"
  end.

(** *** The gallery page over the CMS ([src/pages/Gallery.tsx]) *)

Module Gallery.

(** [GalleryMedia] (lines 6-12); [id] is an integer. *)
Record GalleryMedia := {
  id : Z;
  title : jsstring;
  url : jsstring;
  type : MediaType;
  category : jsstring }.

(** Modelled from the spec: the items of a gallery record of
    [@/lib/wordpress-api], a module that is not among the sources; the
    spec has gallery records with nested media arrays, and these are the
    fields [fetchGalleryMedia] reads of an item. *)
Record Item := {
  item_id : Z;
  item_title : jsstring;
  item_url : jsstring }.

(** Modelled from the spec: the [acf] object of a gallery record of
    [@/lib/wordpress-api], not among the sources; [team_working] may be
    absent (it is read with [?.]). *)
Record Acf := { team_working : option (list Item) }.

(** Modelled from the spec: [WordPressGallery] of [@/lib/wordpress-api],
    not among the sources, with the fields [fetchGalleryMedia] reads. *)
Record WordPressGallery := {
  slug : jsstring;
  gallery_title : jsstring;
  acf : Acf }.

(** The entries handed to the lightbox (lines 66-70). *)
Record LightboxImage := {
  lightbox_id : jsstring;
  image_url : jsstring;
  lightbox_title : jsstring }.

(** The state of the component (lines 15-20). *)
Record State := {
  media : list GalleryMedia;
  loading : bool;
  selectedCategory : jsstring;
  selectedMediaType : MediaFilter;
  lightboxOpen : bool;
  lightboxIndex : Z }.

Definition initial : State :=
  {| media := []; loading := true; selectedCategory := lit "all";
     selectedMediaType := all_media; lightboxOpen := false; lightboxIndex := 0 |}.

Definition setMedia v (s : State) : State :=
  let 'Build_State _ l c t o i := s in Build_State v l c t o i.
Definition setLoading v (s : State) : State :=
  let 'Build_State m _ c t o i := s in Build_State m v c t o i.
Definition setSelectedCategory v (s : State) : State :=
  let 'Build_State m l _ t o i := s in Build_State m l v t o i.
Definition setSelectedMediaType v (s : State) : State :=
  let 'Build_State m l c _ o i := s in Build_State m l c v o i.
Definition setLightboxOpen v (s : State) : State :=
  let 'Build_State m l c t _ i := s in Build_State m l c t v i.
Definition setLightboxIndex v (s : State) : State :=
  let 'Build_State m l c t o _ := s in Build_State m l c t o v.

(** Line 36. *)
Definition isVideo (u : jsstring) : bool :=
  endsWith u (lit ".mp4") || endsWith u (lit ".webm").

(** The object pushed for an item of a gallery (lines 37-43). *)
Definition pushed (gallery : WordPressGallery) (item : Item) : GalleryMedia :=
  {| id := item_id item;
     title := if truthy (item_title item) then item_title item
              else gallery_title gallery;
     url := item_url item;
     type := if isVideo (item_url item) then video else image;
     category := slug gallery |}.

(** [allMedia] after the two nested [forEach] (lines 29-45). *)
Definition allMedia (galleries : list WordPressGallery) : list GalleryMedia :=
  flat_map (fun gallery =>
    match team_working (acf gallery) with
    | Some items => map (pushed gallery) items
    | None => []
    end) galleries.

(** [fetchGalleryMedia] (lines 26-53); [reply] is what
    [wordpressAPI.getGalleries()] resolves to, [None] when it rejects. *)
Definition fetchGalleryMedia (reply : option (list WordPressGallery)) (s : State)
  : State :=
  match reply with
  | Some galleries => setLoading false (setMedia (allMedia galleries) s)
  | None => setLoading false s
  end.

(** Line 55. *)
Definition categories (s : State) : list jsstring :=
  lit "all" :: distinct [] (map category (media s)).

(** Lines 58-62. *)
Definition filteredMedia (s : State) : list GalleryMedia :=
  filter (fun item =>
    let categoryMatch :=
      Js.eqb (selectedCategory s) (lit "all")
      || Js.eqb (category item) (selectedCategory s) in
    let mediaMatch :=
      match selectedMediaType s with
      | all_media => true
      | only m => is_media m (type item)
      end in
    categoryMatch && mediaMatch) (media s).

(** Lines 64-70. *)
Definition shown (item : GalleryMedia) : LightboxImage :=
  {| lightbox_id := of_Z (id item); image_url := url item;
     lightbox_title := title item |}.

Definition imageUrls (s : State) : list LightboxImage :=
  map shown (filter (fun item => is_media image (type item)) (filteredMedia s)).

(** [handleImageClick] (lines 72-78). *)
Definition handleImageClick (index : nat) (s : State) : State :=
  let filteredIndex :=
    (Z.of_nat (List.length
       (filter (fun item => is_media image (type item))
          (firstn (index + 1) (filteredMedia s)))) - 1)%Z in
  setLightboxOpen true (setLightboxIndex filteredIndex s).

End Gallery.

(** *** The gallery page over the data store (the second component of
    [src/pages/Admin.tsx], lines 1121-1318) *)

Module StoredGallery.

(** [GalleryImage] (lines 1125-1133). *)
Record GalleryImage := {
  id : jsstring;
  image_url : option jsstring;
  video_url : option jsstring;
  title : option jsstring;
  description : option jsstring;
  category : jsstring;
  media_type : jsstring }.

(** The entries handed to the lightbox (lines 1175-1179). *)
Record LightboxImage := {
  lightbox_id : jsstring;
  lightbox_url : jsstring;
  lightbox_title : option jsstring }.

(** The state of the component (lines 1136-1141). *)
Record State := {
  images : list GalleryImage;
  loading : bool;
  selectedCategory : jsstring;
  selectedMediaType : MediaFilter;
  lightboxOpen : bool;
  lightboxIndex : Z }.

Definition setImages v (s : State) : State :=
  let 'Build_State _ l c t o i := s in Build_State v l c t o i.
Definition setLoading v (s : State) : State :=
  let 'Build_State m _ c t o i := s in Build_State m v c t o i.
Definition setLightboxOpen v (s : State) : State :=
  let 'Build_State m l c t _ i := s in Build_State m l c t v i.
Definition setLightboxIndex v (s : State) : State :=
  let 'Build_State m l c t o _ := s in Build_State m l c t o v.

(** [fetchGalleryImages] (lines 1147-1162); [reply] is the reply of the
    query on [gallery]. *)
Definition fetchGalleryImages (reply : ApiError + option (list GalleryImage))
  (s : State) : State :=
  match reply with
  | inl _ => setLoading false s
  | inr (Some data) => setLoading false (setImages data s)
  | inr None => setLoading false (setImages [] s)
  end.

(** [img.media_type === "image"] *)
Definition is_image (img : GalleryImage) : bool :=
  Js.eqb (media_type img) (lit "image").

(** [img.image_url] as a condition: neither [null] nor empty. *)
Definition has_url (img : GalleryImage) : bool :=
  match image_url img with
  | Some u => truthy u
  | None => false
  end.

(** Lines 1167-1171. *)
Definition filteredImages (s : State) : list GalleryImage :=
  filter (fun img =>
    let categoryMatch :=
      Js.eqb (selectedCategory s) (lit "all")
      || Js.eqb (category img) (selectedCategory s) in
    let mediaMatch :=
      match selectedMediaType s with
      | all_media => true
      | only m => Js.eqb (media_type img) (media_name m)
      end in
    categoryMatch && mediaMatch) (images s).

(** Lines 1173-1179; [img.image_url!] is read where the filter has found
    it. *)
Definition shown (img : GalleryImage) : LightboxImage :=
  {| lightbox_id := id img; lightbox_url := or_blank (image_url img);
     lightbox_title := title img |}.

Definition imageUrls (s : State) : list LightboxImage :=
  map shown (filter (fun img => is_image img && has_url img) (filteredImages s)).

(** [handleImageClick] (lines 1181-1187). *)
Definition handleImageClick (index : nat) (s : State) : State :=
  let filteredIndex :=
    (Z.of_nat (List.length
       (filter is_image (firstn (index + 1) (filteredImages s)))) - 1)%Z in
  setLightboxOpen true (setLightboxIndex filteredIndex s).

(** The images without a file among the first [n] tiles shown. *)
Definition without_a_file (n : nat) (s : State) : nat :=
  List.length
    (filter (fun img => is_image img && negb (has_url img))
       (firstn n (filteredImages s))).

End StoredGallery.

(** *** The page of one service ([ServiceDetail] in [unnamed/part_000],
    lines 26-87) *)

Module ServiceDetail.

(** The three queries of the page (lines 43-48, 58-62, 76-80):
    the active service with a slug, asked as a single row, and the
    images and the videos of a service by ascending [display_order]. *)
Inductive Query :=
| ServiceBySlug (slug : jsstring)
| ImagesOf (service_id : jsstring)
| VideosOf (service_id : jsstring).

(** The data store as the page reads it.  [Service] (lines 9-17) has a
    field of type [any] and the rows of [service_images] are untyped, so
    the rows are kept abstract, with the fields the page reads.  Every
    query resolves to a reply that carries [error] or not; [.single()]
    replies with the one row, or with an error when there is not exactly
    one. *)
Class Reader (W Service ImageRow ServiceVideo : Type) := {
  service_id : Service -> jsstring;
  image_url : ImageRow -> jsstring;
  service_by_slug : jsstring -> W -> (ApiError + Service) * W;
  images_of : jsstring -> W -> (ApiError + option (list ImageRow)) * W;
  videos_of : jsstring -> W -> (ApiError + option (list ServiceVideo)) * W }.

Inductive Tab := images_tab | videos_tab.

Section Page.

Context {W Service ImageRow ServiceVideo : Type}.
Context {B : Backend W} {R : Reader W Service ImageRow ServiceVideo}.

(** The state of the component (lines 29-33). *)
Record State := {
  service : option Service;
  images : list jsstring;
  videos : list ServiceVideo;
  activeTab : Tab;
  loading : bool }.

Definition setService v (s : State) : State :=
  let 'Build_State _ i vs t l := s in Build_State v i vs t l.
Definition setImages v (s : State) : State :=
  let 'Build_State sv _ vs t l := s in Build_State sv v vs t l.
Definition setVideos v (s : State) : State :=
  let 'Build_State sv i _ t l := s in Build_State sv i v t l.
Definition setLoading v (s : State) : State :=
  let 'Build_State sv i vs t _ := s in Build_State sv i vs t v.

(** A run: the data store, the state and the queries sent so far. *)
Record Run := { world : W; state : State; sent : list Query }.

(** Lines 66-72. *)
Definition imageUrls (imagesData : list ImageRow) : list jsstring :=
  map (fun img => getPublicUrl "service-images" (image_url img)) imagesData.

(** [fetchServiceDetails] (lines 39-87); [slug] is what [useParams]
    gives. *)
Definition fetchServiceDetails (slug : option jsstring) (r : Run) : Run :=
  match slug with
  | None => r
  | Some slug =>
      if negb (truthy slug) then r
      else
        let '(serviceReply, w1) := service_by_slug slug (world r) in
        match serviceReply with
        | inl _ =>
            {| world := w1; state := setLoading false (state r);
               sent := sent r ++ [ServiceBySlug slug] |}
        | inr serviceData =>
            let s1 := setService (Some serviceData) (state r) in
            let '(imagesReply, w2) := images_of (service_id serviceData) w1 in
            let s2 :=
              match imagesReply with
              | inr (Some imagesData) => setImages (imageUrls imagesData) s1
              | _ => s1
              end in
            let '(videosReply, w3) := videos_of (service_id serviceData) w2 in
            let s3 :=
              match videosReply with
              | inr (Some videosData) => setVideos videosData s2
              | _ => s2
              end in
            {| world := w3; state := setLoading false s3;
               sent := sent r ++ [ServiceBySlug slug;
                                  ImagesOf (service_id serviceData);
                                  VideosOf (service_id serviceData)] |}
        end
  end.

End Page.

Arguments State Service ServiceVideo : clear implicits.
Arguments Run W Service ServiceVideo : clear implicits.

End ServiceDetail.

(** *** What the pages read of what the admin page stores *)

(** The URL a media row carries in a column. *)
Definition url_of (column : string) (r : Row) : option jsstring :=
  match field column r with
  | Some (VStr u) => Some u
  | _ => None
  end.

(** A row points at a file of the log: its URL is the public URL of the
    path of an upload that went through. *)
Definition points_at {W : Type} {B : Backend W} (bucket column : string)
  (l : list Event) (r : Row) : Prop :=
  exists path f,
    In (StorageUpload bucket path f, Done) l
    /\ url_of column r = Some (getPublicUrl bucket path).

(** A reader over the in-memory backend: the rows of a table that hold
    a value, every stored service being active. *)
Module SimReader.

Definition text (k : string) (r : Row) : jsstring :=
  match field k r with
  | Some (VStr s) => s
  | _ => []
  end.

Definition no_row : ApiError :=
  api_error (lit "JSON object requested, multiple (or no) rows returned").

Definition holding (t k : string) (v : jsstring) (w : Sim.World) : list Row :=
  filter (Sim.has k (VStr v)) (Sim.table_rows t w).

Definition sim_single (slug : jsstring) (w : Sim.World)
  : (ApiError + Row) * Sim.World :=
  if Sim.failing w then (inl Sim.simulated, Sim.tick w)
  else match holding "services" "slug" slug w with
       | [r] => (inr r, Sim.tick w)
       | _ => (inl no_row, Sim.tick w)
       end.

Definition sim_list (t : string) (id : jsstring) (w : Sim.World)
  : (ApiError + option (list Row)) * Sim.World :=
  if Sim.failing w then (inl Sim.simulated, Sim.tick w)
  else (inr (Some (holding t "service_id" id w)), Sim.tick w).

#[global] Instance reader : ServiceDetail.Reader Sim.World Row Row Row := {
  ServiceDetail.service_id := text "id";
  ServiceDetail.image_url := text "image_url";
  ServiceDetail.service_by_slug := sim_single;
  ServiceDetail.images_of := sim_list "service_images";
  ServiceDetail.videos_of := sim_list "service_videos" }.

(** The page on its first render. *)
Definition first_render (w : Sim.World) : ServiceDetail.Run Sim.World Row Row :=
  {| ServiceDetail.world := w;
     ServiceDetail.state :=
       {| ServiceDetail.service := None; ServiceDetail.images := [];
          ServiceDetail.videos := []; ServiceDetail.activeTab := ServiceDetail.images_tab;
          ServiceDetail.loading := true |};
     ServiceDetail.sent := [] |}.

(** A service form with one image, and the backend after it was saved. *)
Definition service_one_image : UI :=
  setServiceImages [jpg "one.jpg"]
    (setServiceDescription (lit "Ceilings for kitchens")
       (setServiceSlug (lit "kitchen") (setServiceTitle (lit "Kitchen") blank))).

Definition with_kitchen : Sim.World :=
  world (run (handleServiceSubmit service_one_image) (Sim.empty [] true)
           service_one_image).

End SimReader.

(** Three tiles from the CMS, a video between two images, and three
    stored tiles, the first an image whose file is missing. *)
Module PageSample.

Definition at_work : Gallery.Item :=
  {| Gallery.item_id := 1; Gallery.item_title := lit "At work";
     Gallery.item_url := lit "https://cms.test/a.jpg" |}.

Definition clip : Gallery.Item :=
  {| Gallery.item_id := 2; Gallery.item_title := [];
     Gallery.item_url := lit "https://cms.test/b.mp4" |}.

Definition finished : Gallery.Item :=
  {| Gallery.item_id := 3; Gallery.item_title := [];
     Gallery.item_url := lit "https://cms.test/c.png" |}.

Definition team : Gallery.WordPressGallery :=
  {| Gallery.slug := lit "team"; Gallery.gallery_title := lit "Team";
     Gallery.acf := {| Gallery.team_working := Some [at_work; clip; finished] |} |}.

Definition cms_page : Gallery.State :=
  Gallery.fetchGalleryMedia (Some [team]) Gallery.initial.

Definition tile (id : string) (url : option jsstring) (media_type : string)
  : StoredGallery.GalleryImage :=
  {| StoredGallery.id := lit id; StoredGallery.image_url := url;
     StoredGallery.video_url := None; StoredGallery.title := None;
     StoredGallery.description := None; StoredGallery.category := lit "team";
     StoredGallery.media_type := lit media_type |}.

Definition stored_page : StoredGallery.State :=
  {| StoredGallery.images :=
       [tile "a" None "image"; tile "b" None "video";
        tile "c" (Some (lit "https://cdn.test/gallery-images/c.jpg")) "image"];
     StoredGallery.loading := false;
     StoredGallery.selectedCategory := lit "all";
     StoredGallery.selectedMediaType := all_media;
     StoredGallery.lightboxOpen := false; StoredGallery.lightboxIndex := 0 |}.

End PageSample.

(** * Properties *)

(** ** Strings *)

Module JsFacts.

Lemma trimStart_clean s : clean_start (trimStart s).
Proof.
  induction s as [|c r IH]; simpl; [exact I|].
  destruct (is_ws c) eqn:E; [exact IH | exact E].
Qed.

Lemma clean_trimStart s : clean_start s -> trimStart s = s.
Proof.
  destruct s as [|c r]; simpl; [reflexivity|].
  intros ->. reflexivity.
Qed.

Lemma trimStart_decompose s :
  exists p, s = p ++ trimStart s /\ Forall (fun c => is_ws c = true) p.
Proof.
  induction s as [|c r (p & Hp & Hws)]; simpl.
  - exists []. split; [reflexivity | constructor].
  - destruct (is_ws c) eqn:E.
    + exists (c :: p). split; [simpl; congruence | constructor; assumption].
    + exists []. split; [reflexivity | constructor].
Qed.

Lemma trimEnd_decompose s :
  exists p, s = trimEnd s ++ p /\ Forall (fun c => is_ws c = true) p.
Proof.
  destruct (trimStart_decompose (rev s)) as (p & Hp & Hws).
  exists (rev p). split.
  - unfold trimEnd. rewrite <- rev_app_distr, <- Hp. symmetry. apply rev_involutive.
  - apply Forall_rev. exact Hws.
Qed.

Lemma trimEnd_clean_start s : clean_start s -> clean_start (trimEnd s).
Proof.
  intros H. destruct (trimEnd_decompose s) as (p & Hp & _).
  destruct (trimEnd s) as [|c t]; [exact I|].
  rewrite Hp in H. exact H.
Qed.

Lemma trimEnd_idempotent s : trimEnd (trimEnd s) = trimEnd s.
Proof.
  unfold trimEnd. rewrite rev_involutive.
  rewrite (clean_trimStart _ (trimStart_clean (rev s))). reflexivity.
Qed.

Lemma trim_idempotent s : trim (trim s) = trim s.
Proof.
  unfold trim at 1.
  rewrite (clean_trimStart (trim s)).
  - unfold trim. apply trimEnd_idempotent.
  - apply trimEnd_clean_start, trimStart_clean.
Qed.

(** A string with no white space is its own trim. *)
Lemma trim_plain s : Forall (fun c => is_ws c = false) s -> trim s = s.
Proof.
  intros H. unfold trim, trimEnd.
  assert (C : forall t, Forall (fun c => is_ws c = false) t -> trimStart t = t).
  { intros t Ht. apply clean_trimStart. destruct Ht; simpl; auto. }
  rewrite (C s H), (C (rev s) (Forall_rev H)). apply rev_involutive.
Qed.

Lemma len_repeat c n : len (repeat c n) = Z.of_nat n.
Proof. unfold len. rewrite repeat_length. reflexivity. Qed.

End JsFacts.
Import JsFacts.

(** ** Schemas *)

Module ZodFacts.

Lemma finish_issues A (v : A) iss : iss <> [] -> finish v iss = inl iss.
Proof. destruct iss; [congruence | reflexivity]. Qed.

Lemma finish_inr A (v v' : A) iss : finish v iss = inr v' -> iss = [] /\ v' = v.
Proof. destruct iss; simpl; [intros [= ->]; auto | discriminate]. Qed.

(** The three shapes of string rule the schemas use. *)
Lemma parse_required p d m n :
  parse_string [ztrim; zmin 1 m; zmax n] p d
  = (trim d,
     (if (len (trim d) <? 1)%Z
      then [{| path := p; code := too_small 1; message := m |}] else [])
     ++ (if (n <? len (trim d))%Z
         then [{| path := p; code := too_big n; message := None |}] else [])).
Proof.
  simpl. destruct (len (trim d) <? 1)%Z, (n <? len (trim d))%Z; reflexivity.
Qed.

Lemma parse_bounded p d n :
  parse_string [ztrim; zmax n] p d
  = (trim d,
     if (n <? len (trim d))%Z
     then [{| path := p; code := too_big n; message := None |}] else []).
Proof. reflexivity. Qed.

Lemma parse_nonempty p d m :
  parse_string [ztrim; zmin 1 m] p d
  = (trim d,
     if (len (trim d) <? 1)%Z
     then [{| path := p; code := too_small 1; message := m |}] else []).
Proof. reflexivity. Qed.

Lemma required_ok p d m n :
  snd (parse_string [ztrim; zmin 1 m; zmax n] p d) = []
  <-> (1 <= len (trim d) <= n)%Z.
Proof.
  rewrite parse_required. simpl.
  destruct (Z.ltb_spec (len (trim d)) 1), (Z.ltb_spec n (len (trim d)));
    simpl; split; intros; try discriminate; try lia; reflexivity.
Qed.

Lemma nonempty_ok p d m :
  snd (parse_string [ztrim; zmin 1 m] p d) = [] <-> (1 <= len (trim d))%Z.
Proof.
  rewrite parse_nonempty. simpl.
  destruct (Z.ltb_spec (len (trim d)) 1);
    split; intros; try discriminate; try lia; reflexivity.
Qed.

Lemma optional_bounded_ok p d n :
  snd (parse_optional_string [ztrim; zmax n] p d) = []
  <-> match d with Some s => (len (trim s) <= n)%Z | None => True end.
Proof.
  destruct d as [s|]; simpl; [|tauto].
  destruct (Z.ltb_spec n (len (trim s)));
    split; intros; try discriminate; try lia; reflexivity.
Qed.

End ZodFacts.
Import ZodFacts.

(** ** The handler monad *)

Section Stepping.

Context {W : Type} {B : Backend W}.

Lemma state_eta (s : St W) :
  {| world := world s; ui := ui s; log := log s; toasts := toasts s |} = s.
Proof. destruct s; reflexivity. Qed.


Section Loop.

Variables (bucket : string) (folder : jsstring) (table : string).
Variable row : nat -> jsstring -> Row.

(** One turn: the upload fails, or the insert fails, or both are done. *)
Lemma upload_file_step i f (s : St W) :
  exists w' p,
    (exists e, upload_file bucket folder table (row i) f s
       = (inl (Thrown e), logged s w' [(StorageUpload bucket p f, Failed e)]))
    \/ (exists e, upload_file bucket folder table (row i) f s
         = (inl (Thrown e),
            logged s w' [(StorageUpload bucket p f, Done);
                         (DbInsert table [row i (getPublicUrl bucket p)], Failed e)]))
    \/ upload_file bucket folder table (row i) f s
       = (inr tt,
          logged s w' [(StorageUpload bucket p f, Done);
                       (DbInsert table [row i (getPublicUrl bucket p)], Done)]).
Proof.
  unfold upload_file, bind, local, storage_upload, db_insert, call, throw_if, logged.
  destruct (random (world s)) as [r w1]. simpl.
  destruct (upload _ _ f w1) as [[e|] w2]; simpl.
  - exists w2, (folder ++ r ++ lit "." ++ pop (split dot (name f))).
    left. exists e. reflexivity.
  - destruct (insert table _ w2) as [[e|] w3]; simpl;
      exists w3, (folder ++ r ++ lit "." ++ pop (split dot (name f)));
      right; [left; exists e | right]; rewrite <- app_assoc; reflexivity.
Qed.

Lemma for_files_cons (body : nat -> File -> M W unit) i f fs s :
  for_files body i (f :: fs) s
  = match body i f s with
    | (inr _, s') => for_files body (S i) fs s'
    | (inl e, s') => (inl e, s')
    end.
Proof. reflexivity. Qed.

(** An upload loop touches the world and the log only, and what it logs
    is a [batch]. *)
Lemma upload_loop files : forall i (s : St W),
  exists w' evs res,
    for_files (fun i file => upload_file bucket folder table (row i) file) i files s
    = (result_of res, logged s w' evs)
    /\ batch bucket table row i files evs res.
Proof.
  induction files as [|f fs IH]; intros i s.
  - exists (world s), [], None. unfold logged. rewrite app_nil_r, state_eta.
    split; [reflexivity | constructor].
  - rewrite for_files_cons.
    destruct (upload_file_step i f s) as (w1 & p & [(e & E) | [(e & E) | E]]);
      rewrite E.
    + exists w1, [(StorageUpload bucket p f, Failed e)], (Some e).
      split; [reflexivity | constructor].
    + eexists w1, _, (Some e). split; [reflexivity | constructor].
    + destruct (IH (S i) (logged s w1
        [(StorageUpload bucket p f, Done);
         (DbInsert table [row i (getPublicUrl bucket p)], Done)]))
        as (w' & evs & res & E' & Hb).
      rewrite E'. eexists w', _, res. split; [|constructor; exact Hb].
      unfold logged. simpl. rewrite <- app_assoc. reflexivity.
Qed.

End Loop.

Lemma if_nonempty_for (body : nat -> File -> M W unit) files :
  if_nonempty files (for_files body 0 files) = for_files body 0 files.
Proof. destruct files; reflexivity. Qed.

(** A list refresh sends one select and throws nothing; it leaves the
    forms alone. *)
Lemma fetch_step t c a (s : St W) msg (setter : list Row -> UI -> UI) :
  (forall d x, project_form (setter d x) = project_form x
               /\ service_form (setter d x) = service_form x
               /\ gallery_form (setter d x) = gallery_form x) ->
  exists w' o rest u',
    bind (db_select t c a)
      (fun r => match r with
                | inl _ => toast "Error" (Literal (lit msg)) true
                | inr data => set (setter (or_empty data))
                end) s
    = (inr tt, {| world := w'; ui := u'; log := log s ++ [(DbSelect t c a, o)];
                  toasts := toasts s ++ rest |})
    /\ project_form u' = project_form (ui s)
    /\ service_form u' = service_form (ui s)
    /\ gallery_form u' = gallery_form (ui s).
Proof.
  intros Hset. unfold bind, db_select, call, toast, set.
  destruct (select t c a (world s)) as [[e|data] w']; simpl.
  - exists w', (Failed e). eexists _, (ui s). split; [reflexivity | auto].
  - exists w', Done, [], (setter (or_empty data) (ui s)).
    rewrite app_nil_r. split; [reflexivity | apply Hset].
Qed.

Lemma setProjects_forms d x :
  project_form (setProjects d x) = project_form x
  /\ service_form (setProjects d x) = service_form x
  /\ gallery_form (setProjects d x) = gallery_form x.
Proof. destruct x; auto. Qed.

Lemma setServices_forms d x :
  project_form (setServices d x) = project_form x
  /\ service_form (setServices d x) = service_form x
  /\ gallery_form (setServices d x) = gallery_form x.
Proof. destruct x; auto. Qed.

Lemma setGalleryItems_forms d x :
  project_form (setGalleryItems d x) = project_form x
  /\ service_form (setGalleryItems d x) = service_form x
  /\ gallery_form (setGalleryItems d x) = gallery_form x.
Proof. destruct x; auto. Qed.

(** Run the upload loop at the head of the goal. *)
Ltac run_loop row :=
  unfold bind at 1;
  match goal with
  | |- context [for_files (fun j file => upload_file ?b ?f ?t _ file) ?i ?fs ?s] =>
      let w := fresh "w" in
      let evs := fresh "evs" in
      let res := fresh "res" in
      let E := fresh "E" in
      let Hb := fresh "Hb" in
      destruct (upload_loop b f t row fs i s) as (w & evs & res & E & Hb);
      rewrite E; clear E
  end.

(** Run the list refresh at the tail of the goal. *)
Ltac run_fetch msg setter forms :=
  match goal with
  | |- context [bind (db_select ?t ?c ?a) _ ?s] =>
      let w := fresh "w" in
      let o := fresh "sel" in
      let rest := fresh "rest" in
      let u' := fresh "u'" in
      let E := fresh "E" in
      let F := fresh "F" in
      destruct (fetch_step t c a s msg setter forms)
        as (w & o & rest & u' & E & F);
      rewrite E; clear E
  end.

Lemma handleSubmit_outcome y w u :
  project_outcome w u y (run (handleSubmit y u) w u).
Proof.
  unfold run, handleSubmit, finally, try_catch, handleSubmit_try.
  unfold bind at 1. unfold parse_or_throw.
  destruct (ProjectSchema.parse y _) as [iss|v] eqn:P.
  - simpl. eapply project_rejected; [exact P | reflexivity..].
  - unfold ret at 1. unfold bind at 1. unfold set at 1.
    unfold bind at 1. unfold db_insert_single, call. simpl.
    destruct (insert_single _ _ w) as [[e|id] w1].
    + simpl. eapply project_insert_failed; [exact P | reflexivity..].
    + rewrite !if_nonempty_for.
      run_loop (image_row "project_id" id).
      destruct res as [e|]; simpl.
      { eapply project_media_failed with (evs2 := []);
          [exact P | exact Hb | split; reflexivity | | reflexivity..].
        simpl. rewrite ?app_nil_r, <- ?app_assoc. reflexivity. }
      run_loop (video_row "project_id" id).
      destruct res as [e|]; simpl.
      { eapply project_media_failed with (res1 := None);
          [exact P | exact Hb | exact Hb0 | | reflexivity..].
        simpl. rewrite ?app_nil_r, <- ?app_assoc. reflexivity. }
      unfold bind, toast, set. simpl.
      unfold fetchProjects.
      run_fetch "Failed to fetch projects"%string setProjects setProjects_forms.
      simpl in *.
      eapply project_created; [exact P | exact Hb | exact Hb0 | | reflexivity |].
      * simpl. rewrite ?app_nil_r, <- ?app_assoc. reflexivity.
      * destruct F as (F & _). destruct u' as [? ? ? pf ? ?]. simpl in *.
        subst pf. destruct u as [? ? ? [] ? ?]. reflexivity.
Qed.

(** [cancelEditService] is seven setters and nothing else. *)
Lemma cancelEditService_run (s : St W) :
  cancelEditService s
  = (inr tt,
     {| world := world s;
        ui := setServiceImages [] (setServiceIcon [] (setServiceDescription []
                (setServiceShortDesc [] (setServiceSlug [] (setServiceTitle []
                   (setEditingService None (ui s)))))));
        log := log s; toasts := toasts s |}).
Proof. reflexivity. Qed.

(** The editing id the handler branches on. *)
Lemma editing_id_none f : editingService f = None -> editing_id f = None.
Proof. unfold editing_id. intros ->. reflexivity. Qed.

Lemma editing_id_some f id :
  editingService f = Some id -> truthy id = true -> editing_id f = Some id.
Proof. unfold editing_id. intros -> ->. reflexivity. Qed.

Lemma editing_id_empty f : editingService f = Some [] -> editing_id f = None.
Proof. unfold editing_id. intros ->. reflexivity. Qed.

Lemma handleServiceSubmit_outcome w u :
  service_outcome w u (run (handleServiceSubmit u) w u).
Proof.
  unfold run, handleServiceSubmit, finally, try_catch, handleServiceSubmit_try.
  unfold bind at 1. unfold parse_or_throw.
  destruct (ServiceSchema.parse _) as [iss|v] eqn:P.
  - simpl. eapply service_rejected; [exact P | reflexivity..].
  - unfold ret at 1. unfold bind at 1. unfold set at 1. unfold bind at 1.
    destruct (editing_id (service_form u)) as [editing|] eqn:Ed.
    + unfold bind at 1. unfold db_update, call. simpl.
      destruct (update _ _ _ _ w) as [[e|] w1]; simpl.
      * eapply service_update_failed; [exact P | exact Ed | reflexivity..].
      * unfold bind at 1. rewrite cancelEditService_run. cbv beta iota.
        unfold fetchServices.
        run_fetch "Failed to fetch services"%string setServices setServices_forms.
        simpl. eapply service_updated; [exact P | exact Ed | reflexivity..].
    + unfold bind at 1. unfold db_insert_single, call. simpl.
      destruct (insert_single _ _ w) as [[e|id] w1].
      * simpl. eapply service_insert_failed; [exact P | exact Ed | reflexivity..].
      * rewrite !if_nonempty_for.
        run_loop (image_row "service_id" id).
        destruct res as [e|]; simpl.
        { eapply service_media_failed with (evs2 := []);
            [exact P | exact Ed | exact Hb | split; reflexivity | | reflexivity..].
          simpl. rewrite ?app_nil_r, <- ?app_assoc. reflexivity. }
        run_loop (video_row "service_id" id).
        destruct res as [e|]; simpl.
        { eapply service_media_failed with (res1 := None);
            [exact P | exact Ed | exact Hb | exact Hb0 | | reflexivity..].
          simpl. rewrite ?app_nil_r, <- ?app_assoc. reflexivity. }
        unfold bind at 1. rewrite cancelEditService_run. cbv beta iota.
        unfold fetchServices.
        run_fetch "Failed to fetch services"%string setServices setServices_forms.
        simpl. eapply service_created;
          [exact P | exact Ed | exact Hb | exact Hb0 | | reflexivity].
        simpl. rewrite ?app_nil_r, <- ?app_assoc. reflexivity.
Qed.

Lemma handleGallerySubmit_outcome w u :
  gallery_outcome w u (run (handleGallerySubmit u) w u).
Proof.
  unfold run, handleGallerySubmit.
  destruct (galleryMediaType (gallery_form u)) eqn:Mt.
  - destruct (galleryImages (gallery_form u)) as [|img imgs] eqn:Im;
      cbn [is_media List.length Nat.eqb andb].
    + eapply gallery_no_image; auto.
    + unfold finally, try_catch, handleGallerySubmit_try.
      unfold bind at 1. unfold parse_or_throw.
      destruct (GallerySchema.parse _) as [iss|v] eqn:P.
      * simpl. eapply gallery_rejected; [exact P | reflexivity..].
      * unfold ret at 1. unfold bind at 1. unfold set at 1. unfold bind at 1.
        rewrite Mt, Im. unfold bind at 1.
        run_loop (fun _ : nat => gallery_image_row v).
        destruct res as [e|]; simpl.
        { eapply gallery_batch_failed;
            [exact Mt | exact P | rewrite Im; exact Hb | reflexivity..]. }
        unfold bind, toast, set. simpl. unfold fetchGalleryItems.
        run_fetch "Failed to fetch gallery items"%string setGalleryItems
          setGalleryItems_forms.
        simpl. eapply gallery_uploaded;
          [exact Mt | exact P | rewrite Im; exact Hb | reflexivity | ].
        rewrite Im. reflexivity.
  - cbn [is_media andb].
    destruct (truthy (trim (galleryVideoUrl (gallery_form u)))) eqn:Tr;
      cbn [negb].
    + unfold finally, try_catch, handleGallerySubmit_try.
      unfold bind at 1. unfold parse_or_throw.
      destruct (GallerySchema.parse _) as [iss|v] eqn:P.
      * simpl. eapply gallery_rejected; [exact P | reflexivity..].
      * unfold ret at 1. unfold bind at 1. unfold set at 1. unfold bind at 1.
        rewrite Mt.
        unfold bind at 1. unfold db_insert, call. simpl.
        destruct (insert _ _ w) as [[e|] w1]; simpl.
        { eapply gallery_video_failed; [exact Mt | exact P | reflexivity..]. }
        unfold bind, toast, set. simpl. unfold fetchGalleryItems.
        run_fetch "Failed to fetch gallery items"%string setGalleryItems
          setGalleryItems_forms.
        simpl. eapply gallery_video_added; [exact Mt | exact P | reflexivity..].
    + eapply gallery_no_url; auto.
Qed.

Lemma try_catch_bind A C (m : M W A) (k : A -> M W C) h s a s1 :
  m s = (inr a, s1) -> try_catch (bind m k) h s = try_catch (k a) h s1.
Proof. unfold try_catch, bind. intros ->. reflexivity. Qed.

(** A row delete followed, when it went through, by a refresh. *)
Lemma delete_then_fetch t id ok_msg fail_msg fetch_msg setter (s : St W) :
  (forall d x, project_form (setter d x) = project_form x
               /\ service_form (setter d x) = service_form x
               /\ gallery_form (setter d x) = gallery_form x) ->
  exists o rest s',
    bind (db_delete t "id" id)
      (fun error =>
         match error with
         | Some _ => toast "Error" (Literal (lit fail_msg)) true
         | None =>
             bind (toast "Success" (Literal (lit ok_msg)) false)
               (fun _ =>
                  bind (db_select t "created_at" false)
                    (fun r =>
                       match r with
                       | inl _ => toast "Error" (Literal (lit fetch_msg)) true
                       | inr data => set (setter (or_empty data))
                       end))
         end) s
    = (inr tt, s')
    /\ log s' = log s ++ (DbDelete t "id" id, o) :: rest
    /\ Forall (fun ev => is_destructive (fst ev) = false) rest.
Proof.
  intros Hset. unfold bind at 1. unfold db_delete, call.
  destruct (delete t "id" id (world s)) as [[e|] w2].
  - exists (Failed e), []. eexists. split; [reflexivity|].
    split; [reflexivity | constructor].
  - cbv beta iota. unfold bind at 1. unfold toast at 1. cbv beta iota.
    run_fetch fetch_msg setter Hset.
    exists Done. eexists _, _. split; [reflexivity|]. cbn [log outcome_of].
    rewrite <- app_assoc. split; [reflexivity | repeat constructor].
Qed.

(** A confirmed project delete: one row delete, then a refresh if it
    went through. *)
Lemma deleteProject_log w u id :
  fst (confirm (lit "Are you sure you want to delete this project?") w) = true ->
  exists o rest,
    log (run (deleteProject id) w u) = (DbDelete "projects" "id" id, o) :: rest
    /\ Forall (fun ev => is_destructive (fst ev) = false) rest.
Proof.
  unfold run, deleteProject, local. unfold bind at 1. unfold start.
  cbn [world]. destruct (confirm _ w) as [ok w1]. cbn [fst]. intros ->.
  cbv beta iota. cbn [negb world ui log toasts]. cbv iota. unfold fetchProjects.
  destruct (delete_then_fetch "projects" id "Project deleted successfully"
              "Failed to delete project" "Failed to fetch projects" setProjects
              {| world := w1; ui := u; log := []; toasts := [] |}
              setProjects_forms) as (o & rest & s' & E & Hl & Hk).
  cbn [ui log toasts] in *. rewrite E. exists o, rest. auto.
Qed.

Lemma deleteService_log w u id :
  fst (confirm (lit "Are you sure you want to delete this service?") w) = true ->
  exists o rest,
    log (run (deleteService id) w u) = (DbDelete "services" "id" id, o) :: rest
    /\ Forall (fun ev => is_destructive (fst ev) = false) rest.
Proof.
  unfold run, deleteService, local. unfold bind at 1. unfold start.
  cbn [world]. destruct (confirm _ w) as [ok w1]. cbn [fst]. intros ->.
  cbv beta iota. cbn [negb world ui log toasts]. cbv iota. unfold fetchServices.
  destruct (delete_then_fetch "services" id "Service deleted successfully"
              "Failed to delete service" "Failed to fetch services" setServices
              {| world := w1; ui := u; log := []; toasts := [] |}
              setServices_forms) as (o & rest & s' & E & Hl & Hk).
  cbn [ui log toasts] in *. rewrite E. exists o, rest. auto.
Qed.

(** The row delete of a confirmed gallery delete, from any state. *)
Lemma gallery_row_delete id (s : St W) :
  exists o rest s',
    try_catch
      (bind (db_delete "gallery" "id" id)
         (fun error =>
            bind (throw_if error)
              (fun _ =>
                 bind (toast "Success" (Literal (lit "Gallery item deleted")) false)
                   (fun _ => fetchGalleryItems))))
      (fun error => toast "Error" (MessageOf error) true) s
    = (inr tt, s')
    /\ log s' = log s ++ (DbDelete "gallery" "id" id, o) :: rest
    /\ Forall (fun ev => is_destructive (fst ev) = false) rest.
Proof.
  unfold try_catch. unfold bind at 1. unfold db_delete, call.
  destruct (delete _ _ id (world s)) as [[e|] w2].
  - exists (Failed e), []. eexists. split; [reflexivity|].
    split; [reflexivity | constructor].
  - cbv beta iota. unfold bind at 1. unfold throw_if, ret. cbv beta iota.
    unfold bind at 1. unfold toast at 1. cbv beta iota.
    unfold fetchGalleryItems.
    run_fetch "Failed to fetch gallery items"%string setGalleryItems
      setGalleryItems_forms.
    exists Done. eexists _, _. split; [reflexivity|]. cbn [log outcome_of].
    rewrite <- app_assoc. split; [reflexivity | repeat constructor].
Qed.

(** A confirmed gallery delete: the removal of the stored file, if the
    item names one, then the row delete whatever the removal replied. *)
Lemma deleteGalleryItem_log w u id imageUrl :
  fst (confirm (lit "Are you sure you want to delete this gallery item?") w) = true ->
  exists pre o rest,
    log (run (deleteGalleryItem id imageUrl) w u)
    = pre ++ (DbDelete "gallery" "id" id, o) :: rest
    /\ match stored_file imageUrl with
       | Some p => exists o1, pre = [(StorageRemove "gallery-images" [p], o1)]
       | None => pre = []
       end
    /\ Forall (fun ev => is_destructive (fst ev) = false) rest.
Proof.
  unfold run, deleteGalleryItem, local. unfold bind at 1. unfold start.
  cbn [world]. destruct (confirm _ w) as [ok w1]. cbn [fst]. intros ->.
  cbv beta iota. cbn [negb world ui log toasts]. cbv iota.
  set (s0 := {| world := w1; ui := u; log := []; toasts := [] |}).
  assert (K : forall pre s1,
             log s1 = pre ->
             exists o rest,
               log (snd (try_catch
                      (bind (db_delete "gallery" "id" id)
                         (fun error =>
                            bind (throw_if error)
                              (fun _ =>
                                 bind (toast "Success"
                                         (Literal (lit "Gallery item deleted")) false)
                                   (fun _ => fetchGalleryItems))))
                      (fun error => toast "Error" (MessageOf error) true) s1))
               = pre ++ (DbDelete "gallery" "id" id, o) :: rest
               /\ Forall (fun ev => is_destructive (fst ev) = false) rest).
  { intros pre s1 <-.
    destruct (gallery_row_delete id s1) as (o & rest & s' & E & Hl & Hk).
    rewrite E. exists o, rest. auto. }
  unfold stored_file.
  destruct imageUrl as [url|]; [destruct (truthy url) |];
    [destruct (truthy (pop (split slash url))) | |].
  - destruct (remove "gallery-images" [pop (split slash url)] w1) as [o1 w2] eqn:R.
    erewrite try_catch_bind
      with (s1 := {| world := w2; ui := u;
                     log := [(StorageRemove "gallery-images" [pop (split slash url)],
                              outcome_of o1)];
                     toasts := [] |}) (a := tt).
    + destruct (K [(StorageRemove "gallery-images" [pop (split slash url)],
                    outcome_of o1)]
                  {| world := w2; ui := u;
                     log := [(StorageRemove "gallery-images"
                                [pop (split slash url)], outcome_of o1)];
                     toasts := [] |} eq_refl) as (o & rest & E & Hk).
      eexists _, o, rest. split; [exact E | split; [eauto | exact Hk]].
    + unfold bind, storage_remove, call, ret. subst s0. cbn [world].
      rewrite R. reflexivity.
  - erewrite try_catch_bind with (s1 := s0) (a := tt) by reflexivity.
    destruct (K [] s0 eq_refl) as (o & rest & E & Hk).
    exists [], o, rest. auto.
  - erewrite try_catch_bind with (s1 := s0) (a := tt) by reflexivity.
    destruct (K [] s0 eq_refl) as (o & rest & E & Hk).
    exists [], o, rest. auto.
  - erewrite try_catch_bind with (s1 := s0) (a := tt) by reflexivity.
    destruct (K [] s0 eq_refl) as (o & rest & E & Hk).
    exists [], o, rest. auto.
Qed.

End Stepping.

(** ** Reading logs *)

Lemma inserts_app t l1 l2 : inserts t (l1 ++ l2) = inserts t l1 ++ inserts t l2.
Proof. apply filter_app. Qed.

Lemma uploads_app l1 l2 : uploads (l1 ++ l2) = uploads l1 ++ uploads l2.
Proof. apply filter_app. Qed.

Lemma attempted_app t l1 l2 :
  attempted t (l1 ++ l2) = attempted t l1 ++ attempted t l2.
Proof. unfold attempted. rewrite inserts_app. apply flat_map_app. Qed.

Lemma committed_app t l1 l2 :
  committed t (l1 ++ l2) = committed t l1 ++ committed t l2.
Proof. unfold committed. rewrite inserts_app, filter_app. apply flat_map_app. Qed.

Lemma attempted_none t l : inserts t l = [] -> attempted t l = [].
Proof. unfold attempted. intros ->. reflexivity. Qed.

Lemma committed_none t l : inserts t l = [] -> committed t l = [].
Proof. unfold committed. intros ->. reflexivity. Qed.

(** ** Upload loops *)

Section BatchFacts.

Context {W : Type} {B : Backend W}.
Variables (bucket : string) (table : string) (row : nat -> jsstring -> Row).

Local Abbreviation batch_ := (batch (B := B) bucket table row).

(** A loop sends uploads and inserts, nothing that takes anything back. *)
Lemma batch_keeps i fs evs res :
  batch_ i fs evs res -> Forall (fun ev => is_destructive (fst ev) = false) evs.
Proof. induction 1; repeat constructor; assumption. Qed.

(** It inserts into its own table only. *)
Lemma batch_other_table t' i fs evs res :
  String.eqb table t' = false -> batch_ i fs evs res -> inserts t' evs = [].
Proof.
  intros Ht. induction 1; simpl; try rewrite Ht; auto.
Qed.

(** The [j]-th row it sends is the row built for index [i + j]. *)
Lemma batch_attempted i fs evs res :
  batch_ i fs evs res ->
  forall j r, nth_error (attempted table evs) j = Some r ->
              exists url, r = row (i + j) url.
Proof.
  induction 1 as [i | i f fs p e | i f fs p e | i f fs p evs res Hb IH];
    intros j r; unfold attempted; simpl; rewrite ?String.eqb_refl; simpl.
  - destruct j; discriminate.
  - destruct j; discriminate.
  - destruct j as [|[|j]]; try discriminate.
    intros [= <-]. rewrite Nat.add_0_r. eauto.
  - destruct j as [|j]; simpl.
    + intros [= <-]. rewrite Nat.add_0_r. eauto.
    + intros Hj. rewrite Nat.add_succ_r. apply (IH j r Hj).
Qed.

(** A loop that throws nothing got one row accepted per file. *)
Lemma batch_complete i fs evs :
  batch_ i fs evs None -> List.length (committed table evs) = List.length fs.
Proof.
  remember None as res eqn:R. induction 1; try discriminate;
    unfold committed in *; simpl; rewrite ?String.eqb_refl; simpl; auto.
Qed.

(** ... and every row it sent was accepted. *)
Lemma batch_all_accepted i fs evs :
  batch_ i fs evs None -> attempted table evs = committed table evs.
Proof.
  remember None as res eqn:R. induction 1; try discriminate;
    unfold attempted, committed in *; simpl; rewrite ?String.eqb_refl; simpl; auto.
  f_equal. auto.
Qed.

(** Fail-fast: a failure at index [k] is the error thrown; [k] rows were
    accepted before it, the files up to [k] were uploaded and no other. *)
Lemma batch_failure i fs evs res :
  batch_ i fs evs res ->
  forall k e, failed_at table evs k e ->
    res = Some e
    /\ List.length (committed table evs) = k
    /\ k < List.length fs
    /\ map file_of (uploads evs) = map Some (firstn (S k) fs)
    /\ List.length (inserts table evs) <= S k.
Proof.
  induction 1 as [i | i f fs p e0 | i f fs p e0 | i f fs p evs res Hb IH];
    intros k e; unfold failed_at, committed; simpl; rewrite ?String.eqb_refl; simpl.
  - intros [[r H] | [r H]]; destruct k; discriminate.
  - intros [[r H] | [r H]]; destruct k as [|[|k]]; try discriminate.
    injection H as <- <-. repeat split; simpl; auto; lia.
  - intros [[r H] | [r H]]; destruct k as [|[|k]]; try discriminate.
    injection H as <- <-. repeat split; simpl; auto; lia.
  - intros Hk.
    assert (Hk' : exists k', k = S k' /\ failed_at table evs k' e).
    { destruct Hk as [[r H] | [r H]]; destruct k as [|k]; try discriminate;
        exists k; (split; [reflexivity|]); [left | right]; exists r; exact H. }
    destruct Hk' as (k' & -> & Hf).
    destruct (IH k' e Hf) as (R & C & L & U & I).
    repeat split; simpl; auto; try lia.
    f_equal. exact U.
Qed.

End BatchFacts.

(** ** What the schemas accept *)

Module SchemaFacts.

Lemma project_parse_eq y i :
  ProjectSchema.parse y i
  = finish
      {| ProjectSchema.title :=
           fst (parse_string ProjectSchema.title_checks "title" (ProjectSchema.title i));
         ProjectSchema.description :=
           fst (parse_string ProjectSchema.description_checks "description"
                  (ProjectSchema.description i));
         ProjectSchema.category :=
           fst (parse_string ProjectSchema.category_checks "category"
                  (ProjectSchema.category i));
         ProjectSchema.location :=
           fst (parse_optional_string ProjectSchema.location_checks "location"
                  (ProjectSchema.location i));
         ProjectSchema.year_completed :=
           fst (parse_optional_number 1900 (y + 1) "year_completed"
                  (ProjectSchema.year_completed i)) |}
      (snd (parse_string ProjectSchema.title_checks "title" (ProjectSchema.title i))
       ++ snd (parse_string ProjectSchema.description_checks "description"
                 (ProjectSchema.description i))
       ++ snd (parse_string ProjectSchema.category_checks "category"
                 (ProjectSchema.category i))
       ++ snd (parse_optional_string ProjectSchema.location_checks "location"
                 (ProjectSchema.location i))
       ++ snd (parse_optional_number 1900 (y + 1) "year_completed"
                 (ProjectSchema.year_completed i))).
Proof.
  unfold ProjectSchema.parse.
  destruct (parse_string ProjectSchema.title_checks _ _),
    (parse_string ProjectSchema.description_checks _ _),
    (parse_string ProjectSchema.category_checks _ _),
    (parse_optional_string _ _ _), (parse_optional_number _ _ _ _).
  reflexivity.
Qed.

Lemma service_parse_eq i :
  ServiceSchema.parse i
  = finish
      {| ServiceSchema.title :=
           fst (parse_string ServiceSchema.title_checks "title" (ServiceSchema.title i));
         ServiceSchema.slug :=
           fst (parse_string ServiceSchema.slug_checks "slug" (ServiceSchema.slug i));
         ServiceSchema.short_description :=
           fst (parse_optional_string ServiceSchema.short_description_checks
                  "short_description" (ServiceSchema.short_description i));
         ServiceSchema.description :=
           fst (parse_string ServiceSchema.description_checks "description"
                  (ServiceSchema.description i));
         ServiceSchema.icon :=
           fst (parse_optional_string ServiceSchema.icon_checks "icon"
                  (ServiceSchema.icon i)) |}
      (snd (parse_string ServiceSchema.title_checks "title" (ServiceSchema.title i))
       ++ snd (parse_string ServiceSchema.slug_checks "slug" (ServiceSchema.slug i))
       ++ snd (parse_optional_string ServiceSchema.short_description_checks
                 "short_description" (ServiceSchema.short_description i))
       ++ snd (parse_string ServiceSchema.description_checks "description"
                 (ServiceSchema.description i))
       ++ snd (parse_optional_string ServiceSchema.icon_checks "icon"
                 (ServiceSchema.icon i))).
Proof.
  unfold ServiceSchema.parse.
  destruct (parse_string ServiceSchema.title_checks _ _),
    (parse_string ServiceSchema.slug_checks _ _),
    (parse_optional_string ServiceSchema.short_description_checks _ _),
    (parse_string ServiceSchema.description_checks _ _),
    (parse_optional_string ServiceSchema.icon_checks _ _).
  reflexivity.
Qed.

Lemma gallery_parse_eq i :
  GallerySchema.parse i
  = finish
      {| GallerySchema.title :=
           fst (parse_optional_string GallerySchema.title_checks "title"
                  (GallerySchema.title i));
         GallerySchema.description :=
           fst (parse_optional_string GallerySchema.description_checks "description"
                  (GallerySchema.description i));
         GallerySchema.category :=
           fst (parse_string GallerySchema.category_checks "category"
                  (GallerySchema.category i)) |}
      (snd (parse_optional_string GallerySchema.title_checks "title"
              (GallerySchema.title i))
       ++ snd (parse_optional_string GallerySchema.description_checks "description"
                 (GallerySchema.description i))
       ++ snd (parse_string GallerySchema.category_checks "category"
                 (GallerySchema.category i))).
Proof.
  unfold GallerySchema.parse.
  destruct (parse_optional_string GallerySchema.title_checks _ _),
    (parse_optional_string GallerySchema.description_checks _ _),
    (parse_string GallerySchema.category_checks _ _).
  reflexivity.
Qed.

(** Values of the three shapes of rule. *)
Lemma required_value p d m n :
  fst (parse_string [ztrim; zmin 1 m; zmax n] p d) = trim d.
Proof. rewrite parse_required. reflexivity. Qed.

Lemma required_bounded p d m n :
  snd (parse_string [ztrim; zmin 1 m; zmax n] p d) = [] ->
  bounded 1 n (fst (parse_string [ztrim; zmin 1 m; zmax n] p d)).
Proof.
  intros H. apply required_ok in H. rewrite required_value.
  split; [apply trim_idempotent | exact H].
Qed.

Lemma nonempty_at_least p d m :
  snd (parse_string [ztrim; zmin 1 m] p d) = [] ->
  at_least 1 (fst (parse_string [ztrim; zmin 1 m] p d)).
Proof.
  intros H. apply nonempty_ok in H.
  split; [apply trim_idempotent | exact H].
Qed.

Lemma len_nonneg s : (0 <= len s)%Z.
Proof. unfold len. lia. Qed.

Lemma optional_bounded p d n :
  snd (parse_optional_string [ztrim; zmax n] p d) = [] ->
  optional (bounded 0 n) (fst (parse_optional_string [ztrim; zmax n] p d)).
Proof.
  intros H. apply optional_bounded_ok in H. destruct d as [s|]; simpl; [|exact I].
  split; [apply trim_idempotent | split; [apply len_nonneg | exact H]].
Qed.

Lemma app_nil_inv A (a b : list A) : a ++ b = [] -> a = [] /\ b = [].
Proof. destruct a; simpl; [auto | discriminate]. Qed.

(** Break [e1 ++ ... ++ en = []] into its parts. *)
Ltac split_issues H :=
  repeat match type of H with
         | _ ++ _ = [] =>
             let H1 := fresh "I" in
             apply app_nil_inv in H; destruct H as [H1 H]
         end.

Lemma project_accepted y i v :
  ProjectSchema.parse y i = inr v ->
  bounded 1 200 (ProjectSchema.title v)
  /\ bounded 1 2000 (ProjectSchema.description v)
  /\ bounded 1 100 (ProjectSchema.category v)
  /\ optional (bounded 0 200) (ProjectSchema.location v).
Proof.
  rewrite project_parse_eq. intros H. apply finish_inr in H as [H ->].
  cbn [ProjectSchema.title ProjectSchema.description ProjectSchema.category
       ProjectSchema.location].
  split_issues H.
  refine (conj _ (conj _ (conj _ _)));
    try (apply required_bounded; assumption);
    apply optional_bounded; assumption.
Qed.

Lemma service_accepted i v :
  ServiceSchema.parse i = inr v ->
  bounded 1 200 (ServiceSchema.title v)
  /\ bounded 1 200 (ServiceSchema.slug v)
  /\ optional (bounded 0 500) (ServiceSchema.short_description v)
  /\ at_least 1 (ServiceSchema.description v)
  /\ optional (bounded 0 100) (ServiceSchema.icon v).
Proof.
  rewrite service_parse_eq. intros H. apply finish_inr in H as [H ->].
  cbn [ServiceSchema.title ServiceSchema.slug ServiceSchema.short_description
       ServiceSchema.description ServiceSchema.icon].
  split_issues H.
  refine (conj _ (conj _ (conj _ (conj _ _))));
    try (apply required_bounded; assumption);
    try (apply optional_bounded; assumption);
    apply nonempty_at_least; assumption.
Qed.

Lemma gallery_accepted i v :
  GallerySchema.parse i = inr v ->
  optional (bounded 0 200) (GallerySchema.title v)
  /\ optional (bounded 0 500) (GallerySchema.description v)
  /\ bounded 1 100 (GallerySchema.category v).
Proof.
  rewrite gallery_parse_eq. intros H. apply finish_inr in H as [H ->].
  cbn [GallerySchema.title GallerySchema.description GallerySchema.category].
  split_issues H.
  refine (conj _ (conj _ _));
    try (apply required_bounded; assumption);
    apply optional_bounded; assumption.
Qed.

End SchemaFacts.
Import SchemaFacts.

(** ** Validation of the forms *)

Lemma finish_with_issue A (v : A) x iss : In x iss -> finish v iss = inl iss.
Proof. intros H. apply finish_issues. intros ->. exact H. Qed.

(** A description longer than 2000 characters after trimming is refused. *)
Lemma project_rejects_long_description y f :
  (2000 < len (trim (description f)))%Z ->
  exists iss,
    ProjectSchema.parse y (project_input f) = inl iss
    /\ In {| path := "description"; code := too_big 2000; message := None |} iss.
Proof.
  intros H. rewrite project_parse_eq. eexists. split.
  - apply finish_with_issue
      with (x := {| path := "description"; code := too_big 2000; message := None |}).
    apply in_or_app. right. apply in_or_app. left.
    unfold ProjectSchema.description_checks, project_input.
    cbn [ProjectSchema.description].
    rewrite parse_required, trim_idempotent. cbn [snd].
    apply in_or_app. right.
    destruct (Z.ltb_spec 2000 (len (trim (description f)))); [left; reflexivity | lia].
  - apply in_or_app. right. apply in_or_app. left.
    unfold ProjectSchema.description_checks, project_input.
    cbn [ProjectSchema.description].
    rewrite parse_required, trim_idempotent. cbn [snd].
    apply in_or_app. right.
    destruct (Z.ltb_spec 2000 (len (trim (description f)))); [left; reflexivity | lia].
Qed.

Lemma optional_trimmed_ok p s n :
  (len (trim s) <= n)%Z ->
  snd (parse_optional_string [ztrim; zmax n] p (or_undefined (trim s))) = [].
Proof.
  intros H. apply optional_bounded_ok. unfold or_undefined.
  destruct (truthy (trim s)); [|exact I]. rewrite trim_idempotent. exact H.
Qed.

(** The service form is accepted as soon as its own fields are within
    bounds: nothing else is looked at. *)
Lemma optional_trimmed_value p s n :
  fst (parse_optional_string [ztrim; zmax n] p (or_undefined (trim s)))
  = or_undefined (trim s).
Proof.
  unfold or_undefined. destruct (truthy (trim s)); [|reflexivity].
  simpl. rewrite trim_idempotent. reflexivity.
Qed.

Lemma service_accepts f :
  (1 <= len (trim (serviceTitle f)) <= 200)%Z ->
  (1 <= len (trim (serviceSlug f)) <= 200)%Z ->
  (len (trim (serviceShortDesc f)) <= 500)%Z ->
  (1 <= len (trim (serviceDescription f)))%Z ->
  (len (trim (serviceIcon f)) <= 100)%Z ->
  ServiceSchema.parse (service_input f) = inr (service_input f).
Proof.
  intros Ht Hs Hsd Hd Hi. rewrite service_parse_eq.
  assert (E : forall a b c d e : list Issue,
             a = [] -> b = [] -> c = [] -> d = [] -> e = [] ->
             a ++ b ++ c ++ d ++ e = []) by (intros; subst; reflexivity).
  rewrite E; unfold service_input;
    cbn [ServiceSchema.title ServiceSchema.slug ServiceSchema.short_description
         ServiceSchema.description ServiceSchema.icon].
  - unfold ServiceSchema.title_checks, ServiceSchema.slug_checks,
      ServiceSchema.short_description_checks, ServiceSchema.description_checks,
      ServiceSchema.icon_checks.
    rewrite !required_value, !optional_trimmed_value, parse_nonempty,
      !trim_idempotent.
    reflexivity.
  - apply required_ok. rewrite trim_idempotent. exact Ht.
  - apply required_ok. rewrite trim_idempotent. exact Hs.
  - apply optional_trimmed_ok. exact Hsd.
  - apply nonempty_ok. rewrite trim_idempotent. exact Hd.
  - apply optional_trimmed_ok. exact Hi.
Qed.

(** ** The submission and delete handlers *)

Lemma error_is_not_success e s (rest : Prop) :
  In (success_toast s) [error_toast e] -> rest.
Proof. intros [H | []]. discriminate H. Qed.

(** The rows a loop sends, read off its log. *)
Lemma loop_rows {W} {B : Backend W} bucket table row fs evs res t :
  batch (B := B) bucket table row 0 fs evs res ->
  forall j r, nth_error (attempted t evs) j = Some r -> exists url, r = row j url.
Proof.
  intros Hb j r Hj. destruct (String.eqb table t) eqn:E.
  - apply String.eqb_eq in E. subst t. apply (batch_attempted Hb j Hj).
  - rewrite (attempted_none t evs (batch_other_table _ E Hb)) in Hj.
    destruct j; discriminate.
Qed.

(** The rows a project submission sends to the image and video tables. *)
Lemma project_rows {W} {B : Backend W} y (w : W) u :
  let l := log (run (handleSubmit y u) w u) in
  (forall j r, nth_error (attempted "project_images" l) j = Some r ->
               exists id url, r = image_row "project_id" id j url)
  /\ (forall j r, nth_error (attempted "project_videos" l) j = Some r ->
                  exists id url, r = video_row "project_id" id j url).
Proof.
  cbv zeta.
  destruct (handleSubmit_outcome y w u)
    as [iss P Hw Hl Ht Hu | v e P Hl Ht Hu
        | v id evs1 res1 evs2 e P Hb1 Hb2 Hl Ht Hu
        | v id evs1 evs2 sel rest P Hb1 Hb2 Hl Ht Hu]; rewrite Hl.
  - split; intros [|j] r; discriminate.
  - split; intros [|j] r; discriminate.
  - change (?x :: ?l) with ([x] ++ l). rewrite !attempted_app.
    rewrite (attempted_none "project_videos" evs1)
      by (eapply batch_other_table; [|eassumption]; reflexivity).
    destruct res1 as [e1|].
    + destruct Hb2 as [_ ->]. simpl. rewrite ?app_nil_r.
      split; intros j r Hj; [|destruct j; discriminate].
      exists id. eapply loop_rows; eassumption.
    + rewrite (attempted_none "project_images" evs2)
        by (eapply batch_other_table; [|eassumption]; reflexivity).
      simpl. rewrite ?app_nil_r.
      split; intros j r Hj; exists id; eapply loop_rows; eassumption.
  - change (?x :: ?l) with ([x] ++ l). rewrite !attempted_app.
    rewrite (attempted_none "project_images" evs2),
      (attempted_none "project_videos" evs1)
      by (eapply batch_other_table; [|eassumption]; reflexivity).
    simpl. rewrite ?app_nil_r.
    split; intros j r Hj; exists id; eapply loop_rows; eassumption.
Qed.

(** The same for a service submission. *)
Lemma service_rows {W} {B : Backend W} (w : W) u :
  let l := log (run (handleServiceSubmit u) w u) in
  (forall j r, nth_error (attempted "service_images" l) j = Some r ->
               exists id url, r = image_row "service_id" id j url)
  /\ (forall j r, nth_error (attempted "service_videos" l) j = Some r ->
                  exists id url, r = video_row "service_id" id j url).
Proof.
  cbv zeta.
  destruct (handleServiceSubmit_outcome w u)
    as [iss P Hw Hl Ht Hu | v id e P Ed Hl Ht Hu | v id sel rest P Ed Hl Ht
        | v e P Ed Hl Ht Hu
        | v id evs1 res1 evs2 e P Ed Hb1 Hb2 Hl Ht Hu
        | v id evs1 evs2 sel rest P Ed Hb1 Hb2 Hl Ht]; rewrite Hl.
  - split; intros [|j] r; discriminate.
  - split; intros [|j] r; discriminate.
  - split; intros [|j] r; discriminate.
  - split; intros [|j] r; discriminate.
  - change (?x :: ?l) with ([x] ++ l). rewrite !attempted_app.
    rewrite (attempted_none "service_videos" evs1)
      by (eapply batch_other_table; [|eassumption]; reflexivity).
    destruct res1 as [e1|].
    + destruct Hb2 as [_ ->]. simpl. rewrite ?app_nil_r.
      split; intros j r Hj; [|destruct j; discriminate].
      exists id. eapply loop_rows; eassumption.
    + rewrite (attempted_none "service_images" evs2)
        by (eapply batch_other_table; [|eassumption]; reflexivity).
      simpl. rewrite ?app_nil_r.
      split; intros j r Hj; exists id; eapply loop_rows; eassumption.
  - change (?x :: ?l) with ([x] ++ l). rewrite !attempted_app.
    rewrite (attempted_none "service_images" evs2),
      (attempted_none "service_videos" evs1)
      by (eapply batch_other_table; [|eassumption]; reflexivity).
    simpl. rewrite ?app_nil_r.
    split; intros j r Hj; exists id; eapply loop_rows; eassumption.
Qed.


(** C1. A project creation that succeeds with N selected images gets
    exactly N rows accepted in [project_images]; the row at position j
    has [is_primary] true exactly when j is 0 and has [display_order]
    j, so the orders are 0 .. N-1 in insertion order. *)
Theorem project_creation_inserts_image_rows {W} {B : Backend W} y (w : W) u :
  let s' := run (handleSubmit y u) w u in
  In (success_toast "Project created successfully") (toasts s') ->
  List.length (committed "project_images" (log s'))
  = List.length (images (project_form u))
  /\ attempted "project_images" (log s') = committed "project_images" (log s')
  /\ forall j r,
       nth_error (committed "project_images" (log s')) j = Some r ->
       field "is_primary" r = Some (VBool (j =? 0)%nat)
       /\ field "display_order" r = Some (VNum (Z.of_nat j)).
Proof.
  intros s' Hok.
  assert (R : forall j r,
             nth_error (attempted "project_images" (log s')) j = Some r ->
             field "is_primary" r = Some (VBool (j =? 0)%nat)
             /\ field "display_order" r = Some (VNum (Z.of_nat j))).
  { intros j r Hj.
    destruct (proj1 (project_rows y w u) j r Hj) as (id & url & ->).
    split; reflexivity. }
  assert (A : List.length (committed "project_images" (log s'))
              = List.length (images (project_form u))
              /\ attempted "project_images" (log s')
                 = committed "project_images" (log s')).
  { subst s'.
    destruct (handleSubmit_outcome y w u)
      as [iss P Hw Hl Ht Hu | v e P Hl Ht Hu
          | v id evs1 res1 evs2 e P Hb1 Hb2 Hl Ht Hu
          | v id evs1 evs2 sel rest P Hb1 Hb2 Hl Ht Hu];
      try (rewrite Ht in Hok; exact (error_is_not_success _ Hok)).
    rewrite Hl. change (?x :: ?l) with ([x] ++ l).
    rewrite !attempted_app, !committed_app.
    rewrite (attempted_none "project_images" evs2),
      (committed_none "project_images" evs2)
      by (eapply batch_other_table; [|exact Hb2]; reflexivity).
    simpl. rewrite !app_nil_r.
    split; [apply (batch_complete Hb1) | apply (batch_all_accepted Hb1)]. }
  destruct A as [A1 A2].
  split; [exact A1 | split; [exact A2|]].
  intros j r Hj. rewrite <- A2 in Hj. apply (R j r Hj).
Qed.

Lemma project_creation_witness :
  let s' := run (handleSubmit 2026 Sample.project_two_images) (Sim.empty [] true)
              Sample.project_two_images in
  In (success_toast "Project created successfully") (toasts s')
  /\ List.length (committed "project_images" (log s')) = 2.
Proof.
  assert (H : In (success_toast "Project created successfully")
                (toasts (run (handleSubmit 2026 Sample.project_two_images)
                           (Sim.empty [] true) Sample.project_two_images))).
  { vm_compute. left. reflexivity. }
  split; [exact H|].
  exact (proj1 (project_creation_inserts_image_rows 2026 (Sim.empty [] true)
                  Sample.project_two_images H)).
Defined.

(** C3. A project form whose trimmed description is longer than 2000
    characters is refused by the schema; the handler sends no request,
    so the backend and the lists in memory are as they were, and the
    refusal is shown as an error. *)
Theorem long_description_sends_nothing {W} {B : Backend W} y (w : W) u :
  (2000 < len (trim (description (project_form u))))%Z ->
  let s' := run (handleSubmit y u) w u in
  (exists iss,
      ProjectSchema.parse y (project_input (project_form u)) = inl iss
      /\ In {| path := "description"; code := too_big 2000; message := None |} iss
      /\ toasts s' = [error_toast (ZodError iss)])
  /\ log s' = []
  /\ world s' = w
  /\ projects (ui s') = projects u
  /\ services (ui s') = services u
  /\ galleryItems (ui s') = galleryItems u.
Proof.
  intros Hlen s'. subst s'.
  destruct (project_rejects_long_description y (project_form u) Hlen)
    as (iss & P & Hin).
  destruct (handleSubmit_outcome y w u)
    as [iss' P' Hw Hl Ht Hu | v e P' Hl Ht Hu
        | v id evs1 res1 evs2 e P' Hb1 Hb2 Hl Ht Hu
        | v id evs1 evs2 sel rest P' Hb1 Hb2 Hl Ht Hu];
    rewrite P in P'; try discriminate.
  injection P' as <-.
  split; [exists iss; auto|].
  rewrite Hl, Hw, Hu. destruct u. auto.
Qed.

Lemma long_description_witness :
  let u := Sample.project_long_description in
  (2000 < len (trim (description (project_form u))))%Z
  /\ log (run (handleSubmit 2026 u) (Sim.empty [] true) u) = [].
Proof.
  assert (H : (2000 < len (trim (description
                 (project_form Sample.project_long_description))))%Z).
  { vm_compute. reflexivity. }
  split; [exact H|].
  exact (proj1 (proj2 (long_description_sends_nothing 2026 (Sim.empty [] true)
                         Sample.project_long_description H))).
Defined.

(** C2. In a gallery image batch, when the upload or the insert of the
    file at index k fails: exactly k rows were accepted before it and
    stay (no delete and no file removal is ever sent), the files up to
    index k were uploaded and no later one, no insert follows, and the
    error is shown. *)
Theorem gallery_batch_fails_fast {W} {B : Backend W} (w : W) u k e :
  galleryMediaType (gallery_form u) = image ->
  let s' := run (handleGallerySubmit u) w u in
  failed_at "gallery" (log s') k e ->
  List.length (committed "gallery" (log s')) = k
  /\ Forall (fun ev => is_destructive (fst ev) = false) (log s')
  /\ map file_of (uploads (log s'))
     = map Some (firstn (S k) (galleryImages (gallery_form u)))
  /\ List.length (inserts "gallery" (log s')) <= S k
  /\ toasts s' = [error_toast (Thrown e)].
Proof.
  intros Mt s' Hf. subst s'.
  destruct (handleGallerySubmit_outcome w u)
    as [Mt' Im Hw Hl Hu Ht | Mt' Tr Hw Hl Hu Ht | iss P Hw Hl Ht Hu
        | v evs e0 Mt' P Hb Hl Ht Hu | v evs sel rest Mt' P Hb Hl Ht
        | v e0 Mt' P Hl Ht Hu | v sel rest Mt' P Hl Ht];
    try congruence; rewrite Hl in *.
  - destruct Hf as [[r H] | [r H]]; destruct k; discriminate.
  - destruct Hf as [[r H] | [r H]]; destruct k; discriminate.
  - destruct (batch_failure Hb Hf) as (R & C & L & U & I).
    injection R as ->.
    repeat split; auto. apply (batch_keeps Hb).
  - exfalso.
    assert (Hf' : failed_at "gallery" evs k e).
    { unfold failed_at in *. rewrite uploads_app, inserts_app in Hf.
      simpl in Hf. rewrite !app_nil_r in Hf. exact Hf. }
    destruct (batch_failure Hb Hf') as (R & _). discriminate.
Qed.

Lemma gallery_batch_witness :
  let u := Sample.gallery_three_images in
  let s' := run (handleGallerySubmit u) (Sim.empty [2] true) u in
  galleryMediaType (gallery_form u) = image
  /\ failed_at "gallery" (log s') 1 Sim.simulated
  /\ List.length (committed "gallery" (log s')) = 1.
Proof.
  assert (H : failed_at "gallery"
                (log (run (handleGallerySubmit Sample.gallery_three_images)
                        (Sim.empty [2] true) Sample.gallery_three_images))
                1 Sim.simulated).
  { left. vm_compute. eexists. reflexivity. }
  split; [reflexivity | split; [exact H|]].
  exact (proj1 (gallery_batch_fails_fast (Sim.empty [2] true)
                  Sample.gallery_three_images eq_refl H)).
Defined.

(** C6. A service form whose slug is already the slug of a listed
    service is accepted by the schema as soon as its own fields are
    within bounds; the handler goes on to the insert, and an error the
    backend replies with ends the run and is shown. *)
Theorem duplicate_slug_reaches_backend {W} {B : Backend W} (w : W) u existing :
  In existing (services u) ->
  field "slug" existing = Some (VStr (trim (serviceSlug (service_form u)))) ->
  editingService (service_form u) = None ->
  (1 <= len (trim (serviceTitle (service_form u))) <= 200)%Z ->
  (1 <= len (trim (serviceSlug (service_form u))) <= 200)%Z ->
  (len (trim (serviceShortDesc (service_form u))) <= 500)%Z ->
  (1 <= len (trim (serviceDescription (service_form u))))%Z ->
  (len (trim (serviceIcon (service_form u))) <= 100)%Z ->
  let s' := run (handleServiceSubmit u) w u in
  ServiceSchema.parse (service_input (service_form u))
  = inr (service_input (service_form u))
  /\ exists o rest,
       log s' = (DbInsert "services" [serviceData (service_input (service_form u))], o)
                :: rest
       /\ forall e, o = Failed e ->
                    rest = [] /\ toasts s' = [error_toast (Thrown e)].
Proof.
  intros _ _ Ed Ht Hs Hsd Hd Hi s'. subst s'. apply editing_id_none in Ed.
  assert (P := service_accepts (service_form u) Ht Hs Hsd Hd Hi).
  split; [exact P|].
  destruct (handleServiceSubmit_outcome w u)
    as [iss P' Hw Hl Ht' Hu | v id e P' Ed' Hl Ht' Hu | v id sel rest P' Ed' Hl Ht'
        | v e P' Ed' Hl Ht' Hu
        | v id evs1 res1 evs2 e P' Ed' Hb1 Hb2 Hl Ht' Hu
        | v id evs1 evs2 sel rest P' Ed' Hb1 Hb2 Hl Ht'];
    rewrite P in P'; try discriminate; try congruence;
    injection P' as <-; rewrite Hl.
  - exists (Failed e), []. split; [reflexivity|].
    intros e' [= <-]. auto.
  - eexists Done, _. split; [reflexivity | discriminate].
  - eexists Done, _. split; [reflexivity | discriminate].
Qed.

Lemma duplicate_slug_witness :
  let u := Sample.service_same_slug in
  let s' := run (handleServiceSubmit u) Sample.with_living_room u in
  In Sample.living_room (services u)
  /\ toasts s' = [error_toast (Thrown Sim.duplicate)].
Proof.
  pose (f := service_form Sample.service_same_slug).
  assert (H1 : In Sample.living_room (services Sample.service_same_slug))
    by (left; reflexivity).
  assert (H2 : field "slug" Sample.living_room
               = Some (VStr (trim (serviceSlug f)))) by reflexivity.
  assert (H3 : editingService f = None) by reflexivity.
  assert (H4 : (1 <= len (trim (serviceTitle f)) <= 200)%Z)
    by (vm_compute; split; discriminate).
  assert (H5 : (1 <= len (trim (serviceSlug f)) <= 200)%Z)
    by (vm_compute; split; discriminate).
  assert (H6 : (len (trim (serviceShortDesc f)) <= 500)%Z)
    by (vm_compute; discriminate).
  assert (H7 : (1 <= len (trim (serviceDescription f)))%Z)
    by (vm_compute; discriminate).
  assert (H8 : (len (trim (serviceIcon f)) <= 100)%Z)
    by (vm_compute; discriminate).
  split; [exact H1|].
  destruct (duplicate_slug_reaches_backend Sample.with_living_room
              Sample.service_same_slug Sample.living_room H1 H2 H3 H4 H5 H6 H7 H8)
    as (_ & o & rest & Hl & Herr).
  assert (Ho : o = Failed Sim.duplicate).
  { assert (L : map snd
                  (log (run (handleServiceSubmit Sample.service_same_slug)
                          Sample.with_living_room Sample.service_same_slug))
                = [Failed Sim.duplicate]) by (vm_compute; reflexivity).
    rewrite Hl in L. injection L as L _. exact L. }
  exact (proj2 (Herr _ Ho)).
Defined.

(** ** Deleting *)

(** C4, as stated, fails for projects: a confirmed project delete sends
    the row delete and a refresh, and no file removal; the two images
    stored for the project stay in the bucket. *)
Lemma project_delete_removes_no_file :
  let s' := run (deleteProject (lit "id-0")) Sample.with_project blank in
  In (DbDelete "projects" "id" (lit "id-0"), Done) (log s')
  /\ existsb (fun ev => is_removal (fst ev)) (log s') = false
  /\ List.length (Sim.objects (world s')) = 2.
Proof. vm_compute. repeat split. left. reflexivity. Qed.

(** C4, amended. A confirmed gallery delete first asks storage to remove
    the file named by the last segment of the item's image URL, when
    there is one, and then sends the row delete whatever storage
    replied.  A confirmed project or service delete sends the row delete
    only: no file removal is part of it. *)
Theorem confirmed_deletes {W} {B : Backend W} (w : W) u id imageUrl :
  (fst (confirm (lit "Are you sure you want to delete this gallery item?") w) = true ->
   exists pre o rest,
     log (run (deleteGalleryItem id imageUrl) w u)
     = pre ++ (DbDelete "gallery" "id" id, o) :: rest
     /\ match stored_file imageUrl with
        | Some p => exists o1, pre = [(StorageRemove "gallery-images" [p], o1)]
        | None => pre = []
        end
     /\ Forall (fun ev => is_destructive (fst ev) = false) rest)
  /\ (fst (confirm (lit "Are you sure you want to delete this project?") w) = true ->
      exists o rest,
        log (run (deleteProject id) w u) = (DbDelete "projects" "id" id, o) :: rest
        /\ Forall (fun ev => is_destructive (fst ev) = false) rest)
  /\ (fst (confirm (lit "Are you sure you want to delete this service?") w) = true ->
      exists o rest,
        log (run (deleteService id) w u) = (DbDelete "services" "id" id, o) :: rest
        /\ Forall (fun ev => is_destructive (fst ev) = false) rest).
Proof.
  split; [|split].
  - apply deleteGalleryItem_log.
  - apply deleteProject_log.
  - apply deleteService_log.
Qed.

Lemma confirmed_deletes_witness :
  fst (confirm
         (lit "Are you sure you want to delete this project?")
         Sample.with_project) = true
  /\ exists o rest,
       log (run (deleteProject (lit "id-0")) Sample.with_project blank)
       = (DbDelete "projects" "id" (lit "id-0"), o) :: rest
       /\ Forall (fun ev => is_destructive (fst ev) = false) rest.
Proof.
  assert (H : fst (confirm
                     (lit "Are you sure you want to delete this project?")
                     Sample.with_project) = true) by (vm_compute; reflexivity).
  split; [exact H|].
  exact (proj1 (proj2 (confirmed_deletes Sample.with_project blank (lit "id-0") None))
           H).
Defined.

(** C5. A confirmed gallery delete always sends the row delete: after a
    file removal that went through, after one that failed, and when the
    item has no image URL and nothing was removed. *)
Theorem gallery_delete_reaches_database {W} {B : Backend W} (w : W) u id imageUrl :
  fst (confirm (lit "Are you sure you want to delete this gallery item?") w) = true ->
  let s' := run (deleteGalleryItem id imageUrl) w u in
  exists pre o rest,
    log s' = pre ++ (DbDelete "gallery" "id" id, o) :: rest
    /\ (pre = []
        \/ exists p o1, pre = [(StorageRemove "gallery-images" [p], o1)]).
Proof.
  intros Hc s'. subst s'.
  destruct (deleteGalleryItem_log w u id imageUrl Hc) as (pre & o & rest & E & Hp & _).
  exists pre, o, rest. split; [exact E|].
  destruct (stored_file imageUrl) as [p|]; [right | left; exact Hp].
  destruct Hp as (o1 & ->). eauto.
Qed.

Lemma gallery_delete_witness :
  let s' := run (deleteGalleryItem (lit "id-0") (Some Sample.gallery_url))
              Sample.failing_next blank in
  fst (confirm
         (lit "Are you sure you want to delete this gallery item?")
         Sample.failing_next) = true
  /\ map snd (log s') = [Failed Sim.simulated; Done; Done]
  /\ exists pre o rest,
       log s' = pre ++ (DbDelete "gallery" "id" (lit "id-0"), o) :: rest
       /\ (pre = []
           \/ exists p o1, pre = [(StorageRemove "gallery-images" [p], o1)]).
Proof.
  assert (H : fst (confirm
                     (lit "Are you sure you want to delete this gallery item?")
                     Sample.failing_next) = true) by (vm_compute; reflexivity).
  split; [exact H|]. split; [vm_compute; reflexivity|].
  exact (gallery_delete_reaches_database Sample.failing_next blank (lit "id-0")
           (Some Sample.gallery_url) H).
Defined.

(** ** Ordering of uploaded media *)




(** ** Bounds of the schemas *)

Lemma service_description_accepted n :
  ServiceSchema.parse (service_input (Sample.service_with_description (S n)))
  = inr (service_input (Sample.service_with_description (S n)))
  /\ len (ServiceSchema.description
            (service_input (Sample.service_with_description (S n))))
     = Z.of_nat (S n).
Proof.
  assert (T : trim (repeat 97%N (S n)) = repeat 97%N (S n)).
  { apply trim_plain. apply Forall_forall. intros c Hc.
    apply repeat_spec in Hc. subst c. reflexivity. }
  split.
  - apply service_accepts;
      cbn [Sample.service_with_description serviceTitle serviceSlug
           serviceShortDesc serviceDescription serviceIcon];
      try (vm_compute; repeat split; discriminate).
    rewrite T, len_repeat. lia.
  - cbn [service_input ServiceSchema.description Sample.service_with_description
         serviceDescription].
    rewrite T. apply len_repeat.
Qed.

(** C8, as stated, fails for the description of a service: the schema
    accepts descriptions of any length, so no maximum exists. *)
Lemma service_description_has_no_maximum :
  ~ exists M : Z,
      forall i v, ServiceSchema.parse i = inr v ->
                  (len (ServiceSchema.description v) <= M)%Z.
Proof.
  intros (M & H).
  destruct (service_description_accepted (Z.to_nat M)) as [P L].
  specialize (H _ _ P). rewrite L in H. lia.
Qed.

(** C8, amended. Every string the three schemas hand back is trimmed;
    every one has a maximum length (and the required ones a minimum of
    1) except the description of a service, which has the minimum of 1
    and no maximum. *)
Theorem schema_strings_are_bounded y :
  (forall i v,
     ProjectSchema.parse y i = inr v ->
     bounded 1 200 (ProjectSchema.title v)
     /\ bounded 1 2000 (ProjectSchema.description v)
     /\ bounded 1 100 (ProjectSchema.category v)
     /\ optional (bounded 0 200) (ProjectSchema.location v))
  /\ (forall i v,
        ServiceSchema.parse i = inr v ->
        bounded 1 200 (ServiceSchema.title v)
        /\ bounded 1 200 (ServiceSchema.slug v)
        /\ optional (bounded 0 500) (ServiceSchema.short_description v)
        /\ at_least 1 (ServiceSchema.description v)
        /\ optional (bounded 0 100) (ServiceSchema.icon v))
  /\ (forall i v,
        GallerySchema.parse i = inr v ->
        optional (bounded 0 200) (GallerySchema.title v)
        /\ optional (bounded 0 500) (GallerySchema.description v)
        /\ bounded 1 100 (GallerySchema.category v))
  /\ (forall M : Z, exists i v,
        ServiceSchema.parse i = inr v /\ (M < len (ServiceSchema.description v))%Z).
Proof.
  refine (conj _ (conj _ (conj _ _))).
  - apply project_accepted.
  - apply service_accepted.
  - apply gallery_accepted.
  - intros M. destruct (service_description_accepted (Z.to_nat M)) as [P L].
    eexists _, _. split; [exact P|]. rewrite L. lia.
Qed.

Lemma schema_strings_witness :
  let i := service_input (service_form Sample.service_same_slug) in
  ServiceSchema.parse i = inr i
  /\ bounded 1 200 (ServiceSchema.slug i).
Proof.
  assert (H : ServiceSchema.parse
                (service_input (service_form Sample.service_same_slug))
              = inr (service_input (service_form Sample.service_same_slug)))
    by (vm_compute; reflexivity).
  split; [exact H|].
  exact (proj1 (proj2 (proj1 (proj2 (schema_strings_are_bounded 2026)) _ _ H))).
Defined.

(** ** Cancelling and the submitting flags *)

(** C9. Cancelling a service edit empties the title, the slug, the
    short description, the description, the icon and the selected
    images and clears the editing id; it sends nothing, so the backend
    and the three lists are as they were.  The other forms, the
    selected videos and the submitting flag of the service form are
    left as they are. *)
Theorem cancel_edit_resets_the_form {W} {B : Backend W} (w : W) u :
  let s' := run cancelEditService w u in
  let f' := service_form (ui s') in
  (serviceTitle f' = [] /\ serviceSlug f' = [] /\ serviceShortDesc f' = []
   /\ serviceDescription f' = [] /\ serviceIcon f' = [] /\ serviceImages f' = []
   /\ editingService f' = None)
  /\ (log s' = [] /\ world s' = w /\ toasts s' = [])
  /\ (projects (ui s') = projects u /\ services (ui s') = services u
      /\ galleryItems (ui s') = galleryItems u)
  /\ (project_form (ui s') = project_form u /\ gallery_form (ui s') = gallery_form u
      /\ serviceVideos f' = serviceVideos (service_form u)
      /\ serviceSubmitting f' = serviceSubmitting (service_form u)).
Proof.
  destruct u as [p s g pf [] gf]. cbv zeta. unfold run.
  rewrite cancelEditService_run. simpl. repeat split.
Qed.




(** * Properties of the rest of the admin page *)

(** ** Submissions that are refused *)

Lemma announced_not_error {W} msg (s : St W) e (P : Prop) :
  announced msg s -> toasts s = [error_toast e] -> P.
Proof. intros (rest & H) H'. rewrite H' in H. discriminate H. Qed.

Lemma announced_same {W} msg msg' (s : St W) rest :
  announced msg s -> toasts s = success_toast msg' :: rest -> msg = msg'.
Proof.
  intros (rest' & H) H'. rewrite H' in H. injection H as H.
  unfold lit in H. apply (f_equal (map ascii_of_N)) in H.
  rewrite !map_map in H.
  assert (K : forall l, map (fun x => ascii_of_N (N_of_ascii x)) l = l).
  { induction l; simpl; [reflexivity|]. rewrite ascii_N_embedding. congruence. }
  rewrite !K in H.
  rewrite <- (string_of_list_ascii_of_string msg),
    <- (string_of_list_ascii_of_string msg'). congruence.
Qed.


Lemma settled_flags u :
  settled (setSubmitting false (setSubmitting true u)) = settled u
  /\ settled (setSubmitting false u) = settled u
  /\ settled (setServiceSubmitting false (setServiceSubmitting true u)) = settled u
  /\ settled (setServiceSubmitting false u) = settled u
  /\ settled (setGallerySubmitting false (setGallerySubmitting true u)) = settled u
  /\ settled (setGallerySubmitting false u) = settled u.
Proof. destruct u as [p s g [] [] []]. repeat split. Qed.

(** X1. A submission whose first notice is an error notice, because the
    form was rejected, a pre-check failed or the backend refused a
    request, shows that notice only and leaves the page as it was,
    submitting flags apart: nothing typed or selected is lost.  (An
    error notice that comes second, after the success notice, is the
    refresh failing: the form is cleared then.) *)
Theorem refused_submission_keeps_the_form {W} {B : Backend W} y (w : W) u :
  (refused (run (handleSubmit y u) w u) ->
   settled (ui (run (handleSubmit y u) w u)) = settled u
   /\ List.length (toasts (run (handleSubmit y u) w u)) = 1)
  /\ (refused (run (handleServiceSubmit u) w u) ->
      settled (ui (run (handleServiceSubmit u) w u)) = settled u
      /\ List.length (toasts (run (handleServiceSubmit u) w u)) = 1)
  /\ (refused (run (handleGallerySubmit u) w u) ->
      settled (ui (run (handleGallerySubmit u) w u)) = settled u
      /\ List.length (toasts (run (handleGallerySubmit u) w u)) = 1).
Proof.
  destruct (settled_flags u) as (F1 & F2 & F3 & F4 & F5 & F6).
  refine (conj _ (conj _ _)); intros (t & rest & Ht & Hd).
  - destruct (handleSubmit_outcome y w u)
      as [iss P Hw Hl Ht' Hu | v e P Hl Ht' Hu
          | v id evs1 res1 evs2 e P Hb1 Hb2 Hl Ht' Hu
          | v id evs1 evs2 sel rest' P Hb1 Hb2 Hl Ht' Hu];
      try (rewrite Hu, Ht'; split; [assumption | reflexivity]).
    rewrite Ht' in Ht. injection Ht as <- _. discriminate Hd.
  - destruct (handleServiceSubmit_outcome w u)
      as [iss P Hw Hl Ht' Hu | v id e P Ed Hl Ht' Hu | v id sel rest' P Ed Hl Ht'
          | v e P Ed Hl Ht' Hu
          | v id evs1 res1 evs2 e P Ed Hb1 Hb2 Hl Ht' Hu
          | v id evs1 evs2 sel rest' P Ed Hb1 Hb2 Hl Ht'];
      try (rewrite Hu, Ht'; split; [assumption | reflexivity]);
      rewrite Ht' in Ht; injection Ht as <- _; discriminate Hd.
  - destruct (handleGallerySubmit_outcome w u)
      as [Mt Im Hw Hl Hu Ht' | Mt Tr Hw Hl Hu Ht' | iss P Hw Hl Ht' Hu
          | v evs e Mt P Hb Hl Ht' Hu | v evs sel rest' Mt P Hb Hl Ht'
          | v e Mt P Hl Ht' Hu | v sel rest' Mt P Hl Ht'];
      try (rewrite Hu, Ht'; split; [(assumption || reflexivity) | reflexivity]);
      rewrite Ht' in Ht; injection Ht as <- _; discriminate Hd.
Qed.

Lemma refused_submission_witness :
  let u := Sample.project_long_description in
  refused (run (handleSubmit 2026 u) (Sim.empty [] true) u)
  /\ settled (ui (run (handleSubmit 2026 u) (Sim.empty [] true) u)) = settled u.
Proof.
  assert (H : refused (run (handleSubmit 2026 Sample.project_long_description)
                         (Sim.empty [] true) Sample.project_long_description)).
  { eexists _, _. vm_compute. split; reflexivity. }
  split; [exact H|].
  exact (proj1 (proj1 (refused_submission_keeps_the_form 2026 (Sim.empty [] true)
                         Sample.project_long_description) H)).
Defined.


Lemma keeps_cons (ev : Event) l :
  is_destructive (fst ev) = false ->
  Forall (fun ev => is_destructive (fst ev) = false) l ->
  Forall (fun ev => is_destructive (fst ev) = false) (ev :: l).
Proof. intros; constructor; assumption. Qed.

Lemma keeps_app (l1 l2 : list Event) :
  Forall (fun ev => is_destructive (fst ev) = false) l1 ->
  Forall (fun ev => is_destructive (fst ev) = false) l2 ->
  Forall (fun ev => is_destructive (fst ev) = false) (l1 ++ l2).
Proof. intros. apply Forall_app. split; assumption. Qed.

Lemma keeps_second {W} {B : Backend W} bucket table row fs evs1
  (res1 : option ApiError) evs2 e :
  match res1 with
  | Some e1 => e1 = e /\ evs2 = []
  | None => batch (B := B) bucket table row 0 fs evs2 (Some e)
  end ->
  Forall (fun ev => is_destructive (fst ev) = false) evs1 ->
  Forall (fun ev => is_destructive (fst ev) = false) (evs1 ++ evs2).
Proof.
  intros H H1. apply keeps_app; [exact H1|].
  destruct res1 as [e1|]; [destruct H as [_ ->]; constructor|].
  apply (batch_keeps H).
Qed.

(** X2. No submission ever deletes a row or removes a file: when a loop
    stops half way, what was uploaded and inserted before stays. *)
Theorem submissions_take_nothing_back {W} {B : Backend W} y (w : W) u :
  Forall (fun ev => is_destructive (fst ev) = false) (log (run (handleSubmit y u) w u))
  /\ Forall (fun ev => is_destructive (fst ev) = false)
       (log (run (handleServiceSubmit u) w u))
  /\ Forall (fun ev => is_destructive (fst ev) = false)
       (log (run (handleGallerySubmit u) w u)).
Proof.
  refine (conj _ (conj _ _)).
  - destruct (handleSubmit_outcome y w u)
      as [iss P Hw Hl Ht Hu | v e P Hl Ht Hu
          | v id evs1 res1 evs2 e P Hb1 Hb2 Hl Ht Hu
          | v id evs1 evs2 sel rest P Hb1 Hb2 Hl Ht Hu]; rewrite Hl.
    + constructor.
    + repeat constructor.
    + apply keeps_cons; [reflexivity|].
      eapply keeps_second; [exact Hb2 | apply (batch_keeps Hb1)].
    + apply keeps_cons; [reflexivity|].
      repeat apply keeps_app;
        [apply (batch_keeps Hb1) | apply (batch_keeps Hb2) | repeat constructor].
  - destruct (handleServiceSubmit_outcome w u)
      as [iss P Hw Hl Ht Hu | v id e P Ed Hl Ht Hu | v id sel rest P Ed Hl Ht
          | v e P Ed Hl Ht Hu
          | v id evs1 res1 evs2 e P Ed Hb1 Hb2 Hl Ht Hu
          | v id evs1 evs2 sel rest P Ed Hb1 Hb2 Hl Ht]; rewrite Hl.
    + constructor.
    + repeat constructor.
    + repeat constructor.
    + repeat constructor.
    + apply keeps_cons; [reflexivity|].
      eapply keeps_second; [exact Hb2 | apply (batch_keeps Hb1)].
    + apply keeps_cons; [reflexivity|].
      repeat apply keeps_app;
        [apply (batch_keeps Hb1) | apply (batch_keeps Hb2) | repeat constructor].
  - destruct (handleGallerySubmit_outcome w u)
      as [Mt Im Hw Hl Hu Ht | Mt Tr Hw Hl Hu Ht | iss P Hw Hl Ht Hu
          | v evs e Mt P Hb Hl Ht Hu | v evs sel rest Mt P Hb Hl Ht
          | v e Mt P Hl Ht Hu | v sel rest Mt P Hl Ht]; rewrite Hl;
      try (repeat constructor; fail).
    + apply (batch_keeps Hb).
    + apply keeps_app; [apply (batch_keeps Hb) | repeat constructor].
Qed.


Lemma js_eqb_refl s : Js.eqb s s = true.
Proof. induction s as [|c r IH]; simpl; [reflexivity|]. rewrite N.eqb_refl. exact IH. Qed.

Lemma js_eqb_eq a b : Js.eqb a b = true <-> a = b.
Proof.
  split; [|intros ->; apply js_eqb_refl].
  revert b. induction a as [|x a IH]; intros [|y b]; simpl; try discriminate; auto.
  intros H. apply andb_prop in H as [H1 H2].
  apply N.eqb_eq in H1. apply IH in H2. congruence.
Qed.

Lemma truthy_nonempty (x : jsstring) : truthy x = true <-> x <> [].
Proof. destruct x; simpl; split; congruence. Qed.

(** A save with an editing id: one update and the refresh. *)
Lemma edit_log {W} {B : Backend W} (w : W) u id :
  editing_id (service_form u) = Some id ->
  let l := log (run (handleServiceSubmit u) w u) in
  uploads l = []
  /\ (forall t, inserts t l = [])
  /\ Forall (fun ev => is_update_of id (fst ev) || is_select (fst ev) = true) l
  /\ List.length (filter (fun ev => is_update_of id (fst ev)) l) <= 1.
Proof.
  intros Ed l. subst l.
  destruct (handleServiceSubmit_outcome w u)
    as [iss P Hw Hl Ht Hu | v id' e P Ed' Hl Ht Hu | v id' sel rest P Ed' Hl Ht
        | v e P Ed' Hl Ht Hu
        | v id' evs1 res1 evs2 e P Ed' Hb1 Hb2 Hl Ht Hu
        | v id' evs1 evs2 sel rest P Ed' Hb1 Hb2 Hl Ht];
    try congruence; rewrite Hl;
    try (rewrite Ed in Ed'; injection Ed' as <-).
  - repeat split; simpl; auto.
  - repeat split; simpl; auto.
    + repeat constructor. simpl. rewrite js_eqb_refl. reflexivity.
    + rewrite js_eqb_refl. simpl. lia.
  - repeat split; simpl; auto.
    + repeat constructor. simpl. rewrite js_eqb_refl. reflexivity.
    + rewrite js_eqb_refl. simpl. lia.
Qed.

Lemma batch_uploads_all {W} {B : Backend W} bucket table row i fs evs :
  batch (B := B) bucket table row i fs evs None ->
  map file_of (uploads evs) = map Some fs.
Proof.
  remember None as res eqn:R. induction 1; try discriminate; simpl; auto.
  f_equal. auto.
Qed.

(** A loop that ran to its end had every upload accepted. *)
Lemma batch_uploads_accepted {W} {B : Backend W} bucket table row i fs evs :
  batch (B := B) bucket table row i fs evs None ->
  accepted_uploads evs = uploads evs.
Proof.
  unfold accepted_uploads.
  remember None as res eqn:R. induction 1; try discriminate; simpl; auto.
  f_equal. auto.
Qed.

Lemma accepted_uploads_app l1 l2 :
  accepted_uploads (l1 ++ l2) = accepted_uploads l1 ++ accepted_uploads l2.
Proof. unfold accepted_uploads. rewrite uploads_app. apply filter_app. Qed.

Lemma created_uploads {W} {B : Backend W} y (w : W) u :
  let s' := run (handleSubmit y u) w u in
  In (success_toast "Project created successfully") (toasts s') ->
  accepted_uploads (log s') = uploads (log s')
  /\ map file_of (accepted_uploads (log s'))
     = map Some (images (project_form u) ++ projectVideos (project_form u)).
Proof.
  intros s' Hok. subst s'.
  destruct (handleSubmit_outcome y w u)
    as [iss P Hw Hl Ht Hu | v e P Hl Ht Hu
        | v id evs1 res1 evs2 e P Hb1 Hb2 Hl Ht Hu
        | v id evs1 evs2 sel rest P Hb1 Hb2 Hl Ht Hu];
    try (rewrite Ht in Hok; exact (error_is_not_success _ Hok)).
  assert (A : accepted_uploads (log (run (handleSubmit y u) w u))
              = uploads (log (run (handleSubmit y u) w u))).
  { rewrite Hl. change (?x :: ?l) with ([x] ++ l).
    rewrite !accepted_uploads_app, !uploads_app.
    rewrite (batch_uploads_accepted Hb1), (batch_uploads_accepted Hb2).
    reflexivity. }
  split; [exact A|]. rewrite A, Hl. change (?x :: ?l) with ([x] ++ l).
  rewrite !uploads_app, !map_app.
  rewrite (batch_uploads_all Hb1), (batch_uploads_all Hb2). simpl.
  rewrite app_nil_r. reflexivity.
Qed.

(** X4. A project creation that succeeds had every selected image and then
    every selected video uploaded and accepted by storage, each once and
    in the order selected; no upload it sent was refused. *)
Theorem project_creation_uploads_every_file {W} {B : Backend W} y (w : W) u :
  let s' := run (handleSubmit y u) w u in
  In (success_toast "Project created successfully") (toasts s') ->
  accepted_uploads (log s') = uploads (log s')
  /\ map file_of (accepted_uploads (log s'))
     = map Some (images (project_form u) ++ projectVideos (project_form u)).
Proof. exact (created_uploads y w u). Qed.

Lemma project_uploads_witness :
  let u := AdminSample.project_with_video in
  let s' := run (handleSubmit 2026 u) (Sim.empty [] true) u in
  In (success_toast "Project created successfully") (toasts s')
  /\ map file_of (accepted_uploads (log s'))
     = map Some [jpg "front.jpg"; jpg "back.png"; jpg "tour.mp4"].
Proof.
  assert (H : In (success_toast "Project created successfully")
                (toasts (run (handleSubmit 2026 AdminSample.project_with_video)
                           (Sim.empty [] true) AdminSample.project_with_video)))
    by (vm_compute; left; reflexivity).
  split; [exact H|].
  exact (proj2 (project_creation_uploads_every_file 2026 (Sim.empty [] true)
                  AdminSample.project_with_video H)).
Defined.


Lemma filter_indexed_skip A (l : list A) : forall i0 index,
  index < i0 ->
  filter_indexed (fun _ i => negb (i =? index)%nat) i0 l = l.
Proof.
  induction l as [|x r IH]; intros i0 index H; simpl; [reflexivity|].
  destruct (Nat.eqb_spec i0 index); [lia|]. simpl. f_equal. apply IH. lia.
Qed.

Lemma filter_indexed_drop A (l : list A) : forall i0 index,
  i0 <= index ->
  filter_indexed (fun _ i => negb (i =? index)%nat) i0 l
  = firstn (index - i0) l ++ skipn (S (index - i0)) l.
Proof.
  induction l as [|x r IH]; intros i0 index H; simpl.
  - destruct (index - i0); reflexivity.
  - destruct (Nat.eqb_spec i0 index) as [->|Hne]; simpl.
    + rewrite Nat.sub_diag. simpl. apply filter_indexed_skip. lia.
    + rewrite IH by lia. replace (index - i0) with (S (index - S i0)) by lia.
      reflexivity.
Qed.

Lemma without_spec index files :
  without index files = firstn index files ++ skipn (S index) files.
Proof.
  unfold without. rewrite filter_indexed_drop by lia. rewrite Nat.sub_0_r. reflexivity.
Qed.

(** X5. Removing a selected file keeps the others in order: the file at
    [index] goes, and an index past the end removes nothing. *)
Theorem remove_drops_the_file_at_index {W} {B : Backend W} (w : W) u index :
  let s1 := run (removeImage u index) w u in
  let s2 := run (removeServiceImage u index) w u in
  images (project_form (ui s1))
  = firstn index (images (project_form u)) ++ skipn (S index) (images (project_form u))
  /\ serviceImages (service_form (ui s2))
     = firstn index (serviceImages (service_form u))
       ++ skipn (S index) (serviceImages (service_form u))
  /\ (index < List.length (images (project_form u)) ->
      S (List.length (images (project_form (ui s1))))
      = List.length (images (project_form u)))
  /\ (List.length (images (project_form u)) <= index ->
      images (project_form (ui s1)) = images (project_form u))
  /\ log s1 = [] /\ log s2 = [].
Proof.
  cbv zeta. unfold run, removeImage, removeServiceImage, set, start. simpl.
  assert (E1 : images (project_form
                 (setImages (without index (images (project_form u))) u))
               = without index (images (project_form u)))
    by (destruct u as [? ? ? [] ? ?]; reflexivity).
  assert (E2 : serviceImages (service_form
                 (setServiceImages (without index (serviceImages (service_form u))) u))
               = without index (serviceImages (service_form u)))
    by (destruct u as [? ? ? ? [] ?]; reflexivity).
  rewrite E1, E2, !without_spec.
  repeat split.
  - intros H. rewrite length_app, length_firstn, length_skipn. lia.
  - intros H. rewrite firstn_all2 by exact H. rewrite skipn_all2 by lia.
    apply app_nil_r.
Qed.

Lemma remove_witness :
  let u := Sample.project_two_images in
  let s1 := run (removeImage u 0) (Sim.empty [] true) u in
  0 < List.length (images (project_form u))
  /\ S (List.length (images (project_form (ui s1))))
     = List.length (images (project_form u)).
Proof.
  assert (H : 0 < List.length (images (project_form Sample.project_two_images)))
    by (vm_compute; lia).
  split; [exact H|].
  exact (proj1 (proj2 (proj2 (remove_drops_the_file_at_index (Sim.empty [] true)
                                Sample.project_two_images 0))) H).
Defined.

(** X6. Selecting files, removing one and creating the project: the files
    that are left, then the videos, are uploaded and accepted by
    storage, in this order, and no upload is refused. *)
Theorem select_remove_submit {W} {B : Backend W} y (w0 w1 w2 : W) u0 files index :
  let u1 := ui (run (handleImageChange (Some files)) w0 u0) in
  let u2 := ui (run (removeImage u1 index) w1 u1) in
  let s' := run (handleSubmit y u2) w2 u2 in
  In (success_toast "Project created successfully") (toasts s') ->
  accepted_uploads (log s') = uploads (log s')
  /\ map file_of (accepted_uploads (log s'))
     = map Some (firstn index files ++ skipn (S index) files
                 ++ projectVideos (project_form u0)).
Proof.
  intros u1 u2 s' Hok.
  destruct (created_uploads y w2 u2 Hok) as [A E].
  fold s' in A, E. split; [exact A|]. rewrite E. f_equal.
  subst u2 u1. unfold run, removeImage, handleImageChange, set, start. simpl.
  destruct u0 as [? ? ? [] ? ?]. simpl. rewrite without_spec, app_assoc. reflexivity.
Qed.

Lemma select_remove_witness :
  let w := Sim.empty [] true in
  let u0 := AdminSample.project_with_video in
  let files := [jpg "a.jpg"; jpg "b.jpg"; jpg "c.jpg"] in
  let u1 := ui (run (handleImageChange (Some files)) w u0) in
  let u2 := ui (run (removeImage u1 1) w u1) in
  let s' := run (handleSubmit 2026 u2) w u2 in
  In (success_toast "Project created successfully") (toasts s')
  /\ map file_of (accepted_uploads (log s'))
     = map Some [jpg "a.jpg"; jpg "c.jpg"; jpg "tour.mp4"].
Proof.
  cbv zeta.
  refine ((fun H =>
             conj H (proj2 (select_remove_submit 2026 (Sim.empty [] true)
                              (Sim.empty [] true) (Sim.empty [] true)
                              AdminSample.project_with_video
                              [jpg "a.jpg"; jpg "b.jpg"; jpg "c.jpg"] 1 H))) _).
  vm_compute. left. reflexivity.
Defined.


(** X7. A project creation that succeeds with M selected videos got M rows
    accepted in [project_videos], the j-th with [display_order] j. *)
Theorem project_creation_inserts_video_rows {W} {B : Backend W} y (w : W) u :
  let s' := run (handleSubmit y u) w u in
  In (success_toast "Project created successfully") (toasts s') ->
  List.length (committed "project_videos" (log s'))
  = List.length (projectVideos (project_form u))
  /\ attempted "project_videos" (log s') = committed "project_videos" (log s')
  /\ forall j r,
       nth_error (committed "project_videos" (log s')) j = Some r ->
       field "display_order" r = Some (VNum (Z.of_nat j))
       /\ exists url, field "video_url" r = Some (VStr url).
Proof.
  intros s' Hok.
  assert (A : List.length (committed "project_videos" (log s'))
              = List.length (projectVideos (project_form u))
              /\ attempted "project_videos" (log s')
                 = committed "project_videos" (log s')).
  { subst s'.
    destruct (handleSubmit_outcome y w u)
      as [iss P Hw Hl Ht Hu | v e P Hl Ht Hu
          | v id evs1 res1 evs2 e P Hb1 Hb2 Hl Ht Hu
          | v id evs1 evs2 sel rest P Hb1 Hb2 Hl Ht Hu];
      try (rewrite Ht in Hok; exact (error_is_not_success _ Hok)).
    rewrite Hl. change (?x :: ?l) with ([x] ++ l).
    rewrite !attempted_app, !committed_app.
    rewrite (attempted_none "project_videos" evs1),
      (committed_none "project_videos" evs1)
      by (eapply batch_other_table; [|exact Hb1]; reflexivity).
    simpl. rewrite !app_nil_r.
    split; [apply (batch_complete Hb2) | apply (batch_all_accepted Hb2)]. }
  destruct A as [A1 A2]. split; [exact A1 | split; [exact A2|]].
  intros j r Hj. rewrite <- A2 in Hj.
  destruct (proj2 (project_rows y w u) j r Hj) as (id & url & ->).
  split; [reflexivity | exists url; reflexivity].
Qed.

Lemma project_videos_witness :
  let u := AdminSample.project_with_video in
  let s' := run (handleSubmit 2026 u) (Sim.empty [] true) u in
  In (success_toast "Project created successfully") (toasts s')
  /\ List.length (committed "project_videos" (log s')) = 1.
Proof.
  assert (H : In (success_toast "Project created successfully")
                (toasts (run (handleSubmit 2026 AdminSample.project_with_video)
                           (Sim.empty [] true) AdminSample.project_with_video)))
    by (vm_compute; left; reflexivity).
  split; [exact H|].
  exact (proj1 (project_creation_inserts_video_rows 2026 (Sim.empty [] true)
                  AdminSample.project_with_video H)).
Defined.


(** X8. A service creation that succeeds with N images and M videos got N
    rows accepted in [service_images], the j-th with [display_order] j
    and [is_primary] true for j = 0 only, and M rows in
    [service_videos], the j-th with [display_order] j. *)
Theorem service_creation_inserts_media_rows {W} {B : Backend W} (w : W) u :
  let s' := run (handleServiceSubmit u) w u in
  announced "Service created successfully" s' ->
  List.length (committed "service_images" (log s'))
  = List.length (serviceImages (service_form u))
  /\ List.length (committed "service_videos" (log s'))
     = List.length (serviceVideos (service_form u))
  /\ (forall j r,
        nth_error (committed "service_images" (log s')) j = Some r ->
        field "is_primary" r = Some (VBool (j =? 0)%nat)
        /\ field "display_order" r = Some (VNum (Z.of_nat j)))
  /\ (forall j r,
        nth_error (committed "service_videos" (log s')) j = Some r ->
        field "display_order" r = Some (VNum (Z.of_nat j))).
Proof.
  intros s' Hok.
  assert (A : (List.length (committed "service_images" (log s'))
               = List.length (serviceImages (service_form u))
               /\ attempted "service_images" (log s')
                  = committed "service_images" (log s'))
              /\ (List.length (committed "service_videos" (log s'))
                  = List.length (serviceVideos (service_form u))
                  /\ attempted "service_videos" (log s')
                     = committed "service_videos" (log s'))).
  { subst s'.
    destruct (handleServiceSubmit_outcome w u)
      as [iss P Hw Hl Ht Hu | v id e P Ed Hl Ht Hu | v id sel rest P Ed Hl Ht
          | v e P Ed Hl Ht Hu
          | v id evs1 res1 evs2 e P Ed Hb1 Hb2 Hl Ht Hu
          | v id evs1 evs2 sel rest P Ed Hb1 Hb2 Hl Ht];
      try (eapply announced_not_error; [exact Hok | exact Ht]).
    - discriminate (announced_same Hok Ht).
    - rewrite Hl. change (?x :: ?l) with ([x] ++ l).
      rewrite !attempted_app, !committed_app.
      rewrite (attempted_none "service_videos" evs1),
        (committed_none "service_videos" evs1),
        (attempted_none "service_images" evs2),
        (committed_none "service_images" evs2)
        by (eapply batch_other_table; [|eassumption]; reflexivity).
      simpl. rewrite !app_nil_r.
      repeat split;
        [apply (batch_complete Hb1) | apply (batch_all_accepted Hb1)
         | apply (batch_complete Hb2) | apply (batch_all_accepted Hb2)]. }
  destruct A as [[A1 A2] [A3 A4]].
  split; [exact A1 | split; [exact A3 | split]]; intros j r Hj.
  - rewrite <- A2 in Hj.
    destruct (proj1 (service_rows w u) j r Hj) as (id & url & ->).
    split; reflexivity.
  - rewrite <- A4 in Hj.
    destruct (proj2 (service_rows w u) j r Hj) as (id & url & ->).
    reflexivity.
Qed.

Lemma service_media_witness :
  let u := AdminSample.service_with_media in
  let s' := run (handleServiceSubmit u) (Sim.empty [] true) u in
  announced "Service created successfully" s'
  /\ List.length (committed "service_images" (log s')) = 2
  /\ List.length (committed "service_videos" (log s')) = 1.
Proof.
  assert (H : announced "Service created successfully"
                (run (handleServiceSubmit AdminSample.service_with_media)
                   (Sim.empty [] true) AdminSample.service_with_media)).
  { eexists. vm_compute. reflexivity. }
  split; [exact H|].
  pose proof (service_creation_inserts_media_rows (Sim.empty [] true)
                AdminSample.service_with_media H) as (H1 & H2 & _).
  split; [exact H1 | exact H2].
Defined.


(** ** Validity of the forms *)

Lemma optional_trimmed_iff p s n :
  (0 <= n)%Z ->
  snd (parse_optional_string [ztrim; zmax n] p (or_undefined (trim s))) = []
  <-> (len (trim s) <= n)%Z.
Proof.
  intros Hn. rewrite optional_bounded_ok. unfold or_undefined.
  destruct (trim s) as [|c r] eqn:E; simpl.
  - unfold len. simpl. split; [intros _; exact Hn | auto].
  - rewrite <- E, trim_idempotent. tauto.
Qed.

Lemma year_issues y s :
  snd (parse_optional_number 1900 (y + 1) "year_completed" (year_input s)) = []
  <-> valid_year y s.
Proof.
  unfold valid_year, year_input. destruct s as [|c r]; simpl.
  - split; auto.
  - destruct (parseInt (c :: r)) as [z|]; simpl.
    + destruct (Z.ltb_spec z 1900), (Z.ltb_spec (y + 1) z); simpl.
      * split; [discriminate|]. intros [H1 | (z' & [= <-] & H1)]; [discriminate | lia].
      * split; [discriminate|]. intros [H1 | (z' & [= <-] & H1)]; [discriminate | lia].
      * split; [discriminate|]. intros [H1 | (z' & [= <-] & H1)]; [discriminate | lia].
      * split; [|reflexivity]. intros _. right. exists z. split; [reflexivity | lia].
    + split; [discriminate | intros [H | (z & H & _)]; discriminate].
Qed.

Lemma issues_nil (a b c d e : list Issue) :
  a ++ b ++ c ++ d ++ e = [] <-> a = [] /\ b = [] /\ c = [] /\ d = [] /\ e = [].
Proof.
  split.
  - intros H. repeat (apply app_nil_inv in H; destruct H as [? H]). auto.
  - intros (-> & -> & -> & -> & ->). reflexivity.
Qed.

Lemma finish_inr_iff A (v v' : A) iss : finish v iss = inr v' <-> iss = [] /\ v' = v.
Proof.
  split; [apply finish_inr | intros [-> ->]; reflexivity].
Qed.

Lemma project_parse_value y f :
  {| ProjectSchema.title :=
       fst (parse_string ProjectSchema.title_checks "title"
              (ProjectSchema.title (project_input f)));
     ProjectSchema.description :=
       fst (parse_string ProjectSchema.description_checks "description"
              (ProjectSchema.description (project_input f)));
     ProjectSchema.category :=
       fst (parse_string ProjectSchema.category_checks "category"
              (ProjectSchema.category (project_input f)));
     ProjectSchema.location :=
       fst (parse_optional_string ProjectSchema.location_checks "location"
              (ProjectSchema.location (project_input f)));
     ProjectSchema.year_completed :=
       fst (parse_optional_number 1900 (y + 1) "year_completed"
              (ProjectSchema.year_completed (project_input f))) |}
  = project_input f.
Proof.
  unfold project_input.
  cbn [ProjectSchema.title ProjectSchema.description ProjectSchema.category
       ProjectSchema.location ProjectSchema.year_completed].
  unfold ProjectSchema.title_checks, ProjectSchema.description_checks,
    ProjectSchema.category_checks, ProjectSchema.location_checks.
  rewrite !required_value, optional_trimmed_value, !trim_idempotent.
  f_equal. unfold year_input.
  destruct (truthy (yearCompleted f)); [|reflexivity].
  destruct (parseInt (yearCompleted f)); reflexivity.
Qed.

Lemma project_parse_iff y f v :
  ProjectSchema.parse y (project_input f) = inr v
  <-> valid_project y f /\ v = project_input f.
Proof.
  rewrite project_parse_eq, finish_inr_iff, issues_nil, project_parse_value.
  unfold project_input.
  cbn [ProjectSchema.title ProjectSchema.description ProjectSchema.category
       ProjectSchema.location ProjectSchema.year_completed].
  unfold ProjectSchema.title_checks, ProjectSchema.description_checks,
    ProjectSchema.category_checks, ProjectSchema.location_checks.
  rewrite !required_ok, !trim_idempotent, optional_trimmed_iff, year_issues by lia.
  unfold valid_project. tauto.
Qed.

Lemma service_parse_iff f v :
  ServiceSchema.parse (service_input f) = inr v
  <-> valid_service f /\ v = service_input f.
Proof.
  split.
  - intros P. assert (V : valid_service f).
    { rewrite service_parse_eq, finish_inr_iff, issues_nil in P.
      destruct P as ((I1 & I2 & I3 & I4 & I5) & _). revert I1 I2 I3 I4 I5.
      unfold service_input.
      cbn [ServiceSchema.title ServiceSchema.slug ServiceSchema.short_description
           ServiceSchema.description ServiceSchema.icon].
      unfold ServiceSchema.title_checks, ServiceSchema.slug_checks,
        ServiceSchema.short_description_checks, ServiceSchema.description_checks,
        ServiceSchema.icon_checks.
      rewrite !required_ok, nonempty_ok, !trim_idempotent, !optional_trimmed_iff by lia.
      unfold valid_service. tauto. }
    split; [exact V|].
    destruct V as (V1 & V2 & V3 & V4 & V5).
    rewrite (service_accepts f V1 V2 V3 V4 V5) in P. congruence.
  - intros ((V1 & V2 & V3 & V4 & V5) & ->). apply service_accepts; assumption.
Qed.

Lemma gallery_parse_iff f v :
  GallerySchema.parse (gallery_input f) = inr v
  <-> valid_gallery f /\ v = gallery_parsed f.
Proof.
  rewrite gallery_parse_eq, finish_inr_iff.
  assert (N : forall a b c : list Issue,
             a ++ b ++ c = [] <-> a = [] /\ b = [] /\ c = []).
  { intros a b c. split.
    - intros H. repeat (apply app_nil_inv in H; destruct H as [? H]). auto.
    - intros (-> & -> & ->). reflexivity. }
  rewrite N. unfold gallery_input, gallery_parsed.
  cbn [GallerySchema.title GallerySchema.description GallerySchema.category].
  unfold GallerySchema.title_checks, GallerySchema.description_checks,
    GallerySchema.category_checks.
  rewrite required_ok, !optional_trimmed_iff, required_value,
    !optional_trimmed_value by lia.
  unfold valid_gallery. tauto.
Qed.

Lemma batch_failed_nonempty {W} {B : Backend W} bucket table row i fs evs e :
  batch (B := B) bucket table row i fs evs (Some e) -> evs <> [] /\ fs <> [].
Proof. inversion 1; split; discriminate. Qed.



(** X10. A service submission sends something exactly when the form is
    valid. *)
Theorem service_sends_iff_valid {W} {B : Backend W} (w : W) u :
  log (run (handleServiceSubmit u) w u) = [] <-> ~ valid_service (service_form u).
Proof.
  destruct (handleServiceSubmit_outcome w u)
    as [iss P Hw Hl Ht Hu | v id e P Ed Hl Ht Hu | v id sel rest P Ed Hl Ht
        | v e P Ed Hl Ht Hu
        | v id evs1 res1 evs2 e P Ed Hb1 Hb2 Hl Ht Hu
        | v id evs1 evs2 sel rest P Ed Hb1 Hb2 Hl Ht]; rewrite Hl;
    try (apply service_parse_iff in P as [V ->]; split; [discriminate | tauto]).
  assert (N : ~ valid_service (service_form u)).
  { intros V. rewrite (proj2 (service_parse_iff (service_form u) _)
                         (conj V eq_refl)) in P. discriminate. }
  tauto.
Qed.

(** X11. A gallery submission sends something exactly when there is media to
    send and the form is valid. *)
Theorem gallery_sends_iff_valid {W} {B : Backend W} (w : W) u :
  log (run (handleGallerySubmit u) w u) = []
  <-> no_media (gallery_form u) \/ ~ valid_gallery (gallery_form u).
Proof.
  split.
  - destruct (handleGallerySubmit_outcome w u)
      as [Mt Im Hw Hl Hu Ht | Mt Tr Hw Hl Hu Ht | iss P Hw Hl Ht Hu
          | v evs e Mt P Hb Hl Ht Hu | v evs sel rest Mt P Hb Hl Ht
          | v e Mt P Hl Ht Hu | v sel rest Mt P Hl Ht]; rewrite Hl; intros E.
    + left. left. auto.
    + left. right. auto.
    + right. intros V.
      rewrite (proj2 (gallery_parse_iff (gallery_form u) _) (conj V eq_refl)) in P.
      discriminate.
    + destruct (batch_failed_nonempty Hb) as [N _]. contradiction.
    + destruct evs; discriminate.
    + discriminate.
    + discriminate.
  - intros [[[Mt Im] | [Mt Tr]] | N].
    + unfold run, handleGallerySubmit. rewrite Mt, Im. reflexivity.
    + unfold run, handleGallerySubmit. rewrite Mt, Tr.
      destruct (galleryImages (gallery_form u)); reflexivity.
    + destruct (handleGallerySubmit_outcome w u)
        as [Mt Im Hw Hl Hu Ht | Mt Tr Hw Hl Hu Ht | iss P Hw Hl Ht Hu
            | v evs e Mt P Hb Hl Ht Hu | v evs sel rest Mt P Hb Hl Ht
            | v e Mt P Hl Ht Hu | v sel rest Mt P Hl Ht];
        try exact Hl;
        apply gallery_parse_iff in P as [V _]; contradiction.
Qed.

(** ** The forms after a run *)

Ltac step_loop row :=
  unfold bind at 1;
  match goal with
  | |- context [for_files (fun j file => upload_file ?b ?f ?t _ file) ?i ?fs ?s] =>
      let w := fresh "w" in
      let evs := fresh "evs" in
      let res := fresh "res" in
      let E := fresh "E" in
      let Hb := fresh "Hb" in
      destruct (upload_loop b f t row fs i s) as (w & evs & res & E & Hb);
      rewrite E; clear E
  end.

Ltac step_fetch msg setter forms :=
  match goal with
  | |- context [bind (db_select ?t ?c ?a) _ ?s] =>
      let w := fresh "w" in
      let o := fresh "sel" in
      let rest := fresh "rest" in
      let u' := fresh "u'" in
      let E := fresh "E" in
      let F := fresh "F" in
      destruct (fetch_step t c a s msg setter forms)
        as (w & o & rest & u' & E & F);
      rewrite E; clear E
  end.

Lemma service_form_after {W} {B : Backend W} (w : W) u :
  let s' := run (handleServiceSubmit u) w u in
  accepted s' ->
  service_form (ui s') = service_saved (service_form u)
  /\ project_form (ui s') = project_form u
  /\ gallery_form (ui s') = gallery_form u.
Proof.
  cbv zeta.
  set (Q := fun s' : St W =>
              accepted s' ->
              service_form (ui s') = service_saved (service_form u)
              /\ project_form (ui s') = project_form u
              /\ gallery_form (ui s') = gallery_form u).
  change (Q (run (handleServiceSubmit u) w u)).
  assert (No : forall w' u' l e, Q {| world := w'; ui := u'; log := l;
                                      toasts := [error_toast e] |}).
  { intros w' u' l e (t & rest & H & D). injection H as <- _. discriminate D. }
  unfold run, handleServiceSubmit, finally, try_catch, handleServiceSubmit_try.
  unfold bind at 1. unfold parse_or_throw.
  destruct (ServiceSchema.parse _) as [iss|v] eqn:P.
  - simpl. apply No.
  - unfold ret at 1. unfold bind at 1. unfold set at 1. unfold bind at 1.
    destruct (editing_id (service_form u)) as [editing|] eqn:Ed.
    + unfold bind at 1. unfold db_update, call. simpl.
      destruct (update _ _ _ _ w) as [[e|] w1]; simpl.
      * apply No.
      * unfold bind at 1. rewrite cancelEditService_run. cbv beta iota.
        unfold fetchServices.
        step_fetch "Failed to fetch services"%string setServices setServices_forms.
        simpl. intros _. destruct F as (F1 & F2 & F3).
        clear P Ed Q No. destruct u as [? ? ? ? [] ?].
        destruct u' as [? ? ? pf sf gf]. simpl in F1, F2, F3 |- *.
        subst pf sf gf. repeat split.
    + unfold bind at 1. unfold db_insert_single, call. simpl.
      destruct (insert_single _ _ w) as [[e|id] w1].
      * simpl. apply No.
      * rewrite !if_nonempty_for.
        step_loop (image_row "service_id" id).
        destruct res as [e|]; simpl; [apply No|].
        step_loop (video_row "service_id" id).
        destruct res as [e|]; simpl; [apply No|].
        unfold bind at 1. rewrite cancelEditService_run. cbv beta iota.
        unfold fetchServices.
        step_fetch "Failed to fetch services"%string setServices setServices_forms.
        simpl. intros _. destruct F as (F1 & F2 & F3).
        clear P Ed Hb Hb0 Q No. destruct u as [? ? ? ? [] ?].
        destruct u' as [? ? ? pf sf gf]. simpl in F1, F2, F3 |- *.
        subst pf sf gf. repeat split.
Qed.

Lemma project_form_after {W} {B : Backend W} y (w : W) u :
  let s' := run (handleSubmit y u) w u in
  accepted s' ->
  project_form (ui s') = blank_project
  /\ service_form (ui s') = service_form u
  /\ gallery_form (ui s') = gallery_form u.
Proof.
  cbv zeta.
  set (Q := fun s' : St W =>
              accepted s' ->
              project_form (ui s') = blank_project
              /\ service_form (ui s') = service_form u
              /\ gallery_form (ui s') = gallery_form u).
  change (Q (run (handleSubmit y u) w u)).
  assert (No : forall w' u' l e, Q {| world := w'; ui := u'; log := l;
                                      toasts := [error_toast e] |}).
  { intros w' u' l e (t & rest & H & D). injection H as <- _. discriminate D. }
  unfold run, handleSubmit, finally, try_catch, handleSubmit_try.
  unfold bind at 1. unfold parse_or_throw.
  destruct (ProjectSchema.parse y _) as [iss|v] eqn:P.
  - simpl. apply No.
  - unfold ret at 1. unfold bind at 1. unfold set at 1.
    unfold bind at 1. unfold db_insert_single, call. simpl.
    destruct (insert_single _ _ w) as [[e|id] w1].
    + simpl. apply No.
    + rewrite !if_nonempty_for.
      step_loop (image_row "project_id" id).
      destruct res as [e|]; simpl; [apply No|].
      step_loop (video_row "project_id" id).
      destruct res as [e|]; simpl; [apply No|].
      unfold bind, toast, set. simpl.
      unfold fetchProjects.
      step_fetch "Failed to fetch projects"%string setProjects setProjects_forms.
      simpl. intros _. destruct F as (F1 & F2 & F3).
      clear P Hb Hb0 Q No. destruct u as [? ? ? [] ? ?].
      destruct u' as [? ? ? pf sf gf]. simpl in F1, F2, F3 |- *.
      subst pf sf gf. repeat split.
Qed.

Lemma gallery_form_after {W} {B : Backend W} (w : W) u :
  let s' := run (handleGallerySubmit u) w u in
  accepted s' ->
  gallery_form (ui s') = gallery_sent (gallery_form u)
  /\ project_form (ui s') = project_form u
  /\ service_form (ui s') = service_form u.
Proof.
  cbv zeta.
  set (Q := fun s' : St W =>
              accepted s' ->
              gallery_form (ui s') = gallery_sent (gallery_form u)
              /\ project_form (ui s') = project_form u
              /\ service_form (ui s') = service_form u).
  change (Q (run (handleGallerySubmit u) w u)).
  assert (No : forall w' u' l d,
             Q {| world := w'; ui := u'; log := l;
                  toasts := [{| toast_title := "Error"; toast_description := d;
                                destructive := true |}] |}).
  { intros w' u' l d (t & rest & H & D). injection H as <- _. discriminate D. }
  unfold run, handleGallerySubmit.
  destruct (galleryMediaType (gallery_form u)) eqn:Mt.
  - destruct (galleryImages (gallery_form u)) as [|img imgs] eqn:Im;
      cbn [is_media List.length Nat.eqb andb].
    + apply No.
    + unfold finally, try_catch, handleGallerySubmit_try.
      unfold bind at 1. unfold parse_or_throw.
      destruct (GallerySchema.parse _) as [iss|v] eqn:P.
      * simpl. apply No.
      * unfold ret at 1. unfold bind at 1. unfold set at 1. unfold bind at 1.
        rewrite Mt, Im. unfold bind at 1.
        step_loop (fun _ : nat => gallery_image_row v).
        destruct res as [e|]; simpl; [apply No|].
        unfold bind, toast, set. simpl. unfold fetchGalleryItems.
        step_fetch "Failed to fetch gallery items"%string setGalleryItems
          setGalleryItems_forms.
        simpl. intros _. destruct F as (F1 & F2 & F3).
        clear P Hb Q No. destruct u as [? ? ? ? ? []].
        destruct u' as [? ? ? pf sf gf]. simpl in F1, F2, F3, Mt, Im |- *.
        subst pf sf gf. repeat split.
  - cbn [is_media andb].
    destruct (truthy (trim (galleryVideoUrl (gallery_form u)))) eqn:Tr;
      cbn [negb].
    + unfold finally, try_catch, handleGallerySubmit_try.
      unfold bind at 1. unfold parse_or_throw.
      destruct (GallerySchema.parse _) as [iss|v] eqn:P.
      * simpl. apply No.
      * unfold ret at 1. unfold bind at 1. unfold set at 1. unfold bind at 1.
        rewrite Mt.
        unfold bind at 1. unfold db_insert, call. simpl.
        destruct (insert _ _ w) as [[e|] w1]; simpl; [apply No|].
        unfold bind, toast, set. simpl. unfold fetchGalleryItems.
        step_fetch "Failed to fetch gallery items"%string setGalleryItems
          setGalleryItems_forms.
        simpl. intros _. destruct F as (F1 & F2 & F3).
        clear P Q No Tr. destruct u as [? ? ? ? ? []].
        destruct u' as [? ? ? pf sf gf]. simpl in F1, F2, F3, Mt |- *.
        subst pf sf gf. repeat split.
    + apply No.
Qed.

(** X12. A submission that went through leaves its form cleared and the other
    two forms as they were.  The project form is blank again and the
    gallery form is back to its defaults. *)
Theorem accepted_submission_clears_the_form {W} {B : Backend W} y (w : W) u :
  (accepted (run (handleSubmit y u) w u) ->
   project_form (ui (run (handleSubmit y u) w u)) = blank_project
   /\ service_form (ui (run (handleSubmit y u) w u)) = service_form u
   /\ gallery_form (ui (run (handleSubmit y u) w u)) = gallery_form u)
  /\ (accepted (run (handleGallerySubmit u) w u) ->
      gallery_form (ui (run (handleGallerySubmit u) w u))
      = gallery_sent (gallery_form u)
      /\ project_form (ui (run (handleGallerySubmit u) w u)) = project_form u
      /\ service_form (ui (run (handleGallerySubmit u) w u)) = service_form u).
Proof.
  split; [apply project_form_after | apply gallery_form_after].
Qed.

Lemma accepted_submission_witness :
  let u := Sample.project_two_images in
  accepted (run (handleSubmit 2026 u) (Sim.empty [] true) u)
  /\ project_form (ui (run (handleSubmit 2026 u) (Sim.empty [] true) u))
     = blank_project.
Proof.
  assert (H : accepted (run (handleSubmit 2026 Sample.project_two_images)
                          (Sim.empty [] true) Sample.project_two_images)).
  { eexists _, _. vm_compute. split; reflexivity. }
  split; [exact H|].
  exact (proj1 (proj1 (accepted_submission_clears_the_form 2026 (Sim.empty [] true)
                         Sample.project_two_images) H)).
Defined.

(** X13. A service save that went through, creation or update, clears the
    title, slug, descriptions, icon, selected images and editing id,
    but not the selected videos: they stay selected for the next
    submission. *)
Theorem service_save_keeps_the_selected_videos {W} {B : Backend W} (w : W) u :
  let s' := run (handleServiceSubmit u) w u in
  accepted s' ->
  service_form (ui s') = service_saved (service_form u)
  /\ serviceVideos (service_form (ui s')) = serviceVideos (service_form u)
  /\ project_form (ui s') = project_form u
  /\ gallery_form (ui s') = gallery_form u.
Proof.
  intros s' H. destruct (service_form_after w u H) as (F1 & F2 & F3).
  fold s' in F1, F2, F3. repeat split; try assumption.
  rewrite F1. reflexivity.
Qed.

Lemma service_save_witness :
  let u := Sample.service_editing in
  let s' := run (handleServiceSubmit u) Sample.with_living_room u in
  accepted s'
  /\ serviceVideos (service_form (ui s')) = [jpg "clip.mp4"].
Proof.
  assert (H : accepted (run (handleServiceSubmit Sample.service_editing)
                          Sample.with_living_room Sample.service_editing)).
  { eexists _, _. vm_compute. split; reflexivity. }
  split; [exact H|].
  exact (proj1 (proj2 (service_save_keeps_the_selected_videos
                         Sample.with_living_room Sample.service_editing H))).
Defined.

(** ** Deleting: declined, failed *)

(** X14. A delete the operator declines sends nothing, shows nothing and
    changes nothing on the page. *)
Theorem declined_delete_does_nothing {W} {B : Backend W} (w : W) u id imageUrl :
  (fst (confirm (lit "Are you sure you want to delete this project?") w) = false ->
   let s' := run (deleteProject id) w u in
   log s' = [] /\ toasts s' = [] /\ ui s' = u)
  /\ (fst (confirm (lit "Are you sure you want to delete this service?") w) = false ->
      let s' := run (deleteService id) w u in
      log s' = [] /\ toasts s' = [] /\ ui s' = u)
  /\ (fst (confirm (lit "Are you sure you want to delete this gallery item?") w)
      = false ->
      let s' := run (deleteGalleryItem id imageUrl) w u in
      log s' = [] /\ toasts s' = [] /\ ui s' = u).
Proof.
  assert (K : forall msg (k : M W unit),
             fst (confirm msg w) = false ->
             bind (local (confirm msg)) (fun ok => if negb ok then ret tt else k)
               (start w u)
             = (inr tt, {| world := snd (confirm msg w); ui := u; log := [];
                           toasts := [] |})).
  { intros msg k H. unfold bind, local, start, ret. cbn [world].
    destruct (confirm msg w) as [ok w1]. cbn [fst] in H. subst ok. reflexivity. }
  refine (conj _ (conj _ _)); intros H; cbv zeta;
    unfold run, deleteProject, deleteService, deleteGalleryItem;
    rewrite (K _ _ H); repeat split.
Qed.

Lemma declined_delete_witness :
  let w := Sim.empty [] false in
  fst (confirm (lit "Are you sure you want to delete this project?") w) = false
  /\ log (run (deleteProject (lit "id-0")) w blank) = [].
Proof.
  assert (H : fst (confirm (lit "Are you sure you want to delete this project?")
                     (Sim.empty [] false)) = false) by reflexivity.
  split; [exact H|].
  exact (proj1 (proj1 (declined_delete_does_nothing (Sim.empty [] false) blank
                         (lit "id-0") None) H)).
Defined.

Lemma delete_row_cases {W} {B : Backend W} t id ok_msg fail_msg fetch_msg setter
  (s : St W) :
  (forall d x, project_form (setter d x) = project_form x
               /\ service_form (setter d x) = service_form x
               /\ gallery_form (setter d x) = gallery_form x) ->
  let prog :=
    bind (db_delete t "id" id)
      (fun error =>
         match error with
         | Some _ => toast "Error" (Literal (lit fail_msg)) true
         | None =>
             bind (toast "Success" (Literal (lit ok_msg)) false)
               (fun _ =>
                  bind (db_select t "created_at" false)
                    (fun r =>
                       match r with
                       | inl _ => toast "Error" (Literal (lit fetch_msg)) true
                       | inr data => set (setter (or_empty data))
                       end))
         end) in
  (exists e w',
      prog s = (inr tt,
                {| world := w'; ui := ui s;
                   log := log s ++ [(DbDelete t "id" id, Failed e)];
                   toasts := toasts s ++ [fixed_error fail_msg] |}))
  \/ (exists w' sel rest u',
         prog s = (inr tt,
                   {| world := w'; ui := u';
                      log := log s ++ [(DbDelete t "id" id, Done);
                                       (DbSelect t "created_at" false, sel)];
                      toasts := (toasts s ++ [success_toast ok_msg]) ++ rest |})).
Proof.
  intros Hset prog. set (r := prog s). assert (R : r = prog s) by reflexivity.
  clearbody r. unfold prog in R. unfold bind at 1 in R. unfold db_delete, call in R.
  destruct (delete t "id" id (world s)) as [[e'|] w2].
  - left. exists e', w2. rewrite R. reflexivity.
  - right. cbv beta iota in R. unfold bind at 1 in R. unfold toast at 1 in R.
    cbv beta iota in R.
    match type of R with
    | context [bind (db_select ?t ?c ?a) _ ?s0] =>
        destruct (fetch_step t c a s0 fetch_msg setter Hset)
          as (w0 & sel & rest & u' & E & F)
    end.
    rewrite E in R. exists w0, sel, rest, u'. rewrite R. cbn [log toasts outcome_of].
    rewrite <- app_assoc. reflexivity.
Qed.

(** X15. A project or service delete that the backend refuses shows a fixed
    message, not the backend's, sends no refresh and leaves the page as
    it was. *)
Theorem refused_delete_keeps_the_list {W} {B : Backend W} (w : W) u id e :
  (let s' := run (deleteProject id) w u in
   In (DbDelete "projects" "id" id, Failed e) (log s') ->
   log s' = [(DbDelete "projects" "id" id, Failed e)]
   /\ toasts s' = [fixed_error "Failed to delete project"]
   /\ ui s' = u)
  /\ (let s' := run (deleteService id) w u in
      In (DbDelete "services" "id" id, Failed e) (log s') ->
      log s' = [(DbDelete "services" "id" id, Failed e)]
      /\ toasts s' = [fixed_error "Failed to delete service"]
      /\ ui s' = u).
Proof.
  assert (K : forall msg (k : M W unit),
             bind (local (confirm msg)) (fun ok => if negb ok then ret tt else k)
               (start w u)
             = if fst (confirm msg w)
               then k {| world := snd (confirm msg w); ui := u; log := [];
                         toasts := [] |}
               else (inr tt, {| world := snd (confirm msg w); ui := u; log := [];
                                toasts := [] |})).
  { intros msg k. unfold bind, local, start, ret. cbn [world].
    destruct (confirm msg w) as [[] w1]; reflexivity. }
  split; cbv zeta; unfold run, deleteProject, deleteService; rewrite K;
    destruct (fst (confirm _ w)); try (intros []; fail).
  - unfold fetchProjects.
    destruct (delete_row_cases "projects" id "Project deleted successfully"
                "Failed to delete project" "Failed to fetch projects" setProjects
                {| world := snd (confirm
                     (lit "Are you sure you want to delete this project?") w);
                   ui := u; log := []; toasts := [] |} setProjects_forms)
      as [(e' & w' & E) | (w' & sel & rest & u' & E)];
      cbv zeta in E; cbn [ui log toasts app] in E; rewrite E; cbn [snd log toasts ui].
    + intros [[= <-] | []]. auto.
    + intros [[=] | [[=] | []]].
  - unfold fetchServices.
    destruct (delete_row_cases "services" id "Service deleted successfully"
                "Failed to delete service" "Failed to fetch services" setServices
                {| world := snd (confirm
                     (lit "Are you sure you want to delete this service?") w);
                   ui := u; log := []; toasts := [] |} setServices_forms)
      as [(e' & w' & E) | (w' & sel & rest & u' & E)];
      cbv zeta in E; cbn [ui log toasts app] in E; rewrite E; cbn [snd log toasts ui].
    + intros [[= <-] | []]. auto.
    + intros [[=] | [[=] | []]].
Qed.

Lemma refused_delete_witness :
  let s' := run (deleteProject (lit "id-0")) Sample.failing_next blank in
  In (DbDelete "projects" "id" (lit "id-0"), Failed Sim.simulated) (log s')
  /\ toasts s' = [fixed_error "Failed to delete project"].
Proof.
  assert (H : In (DbDelete "projects" "id" (lit "id-0"), Failed Sim.simulated)
                (log (run (deleteProject (lit "id-0")) Sample.failing_next blank))).
  { vm_compute. left. reflexivity. }
  split; [exact H|].
  exact (proj1 (proj2 (proj1 (refused_delete_keeps_the_list Sample.failing_next blank
                                (lit "id-0") Sim.simulated) H))).
Defined.

(** ** Paths and URLs *)

Lemma split_nonempty sep s : split sep s <> [].
Proof.
  destruct s as [|c r]; simpl; [discriminate|].
  destruct (c =? sep)%N; [discriminate|].
  destruct (split sep r); discriminate.
Qed.

Lemma split_plain sep p :
  Forall (fun c => c <> sep) p -> split sep p = [p].
Proof.
  induction 1 as [|c r Hc _ IH]; simpl; [reflexivity|].
  destruct (N.eqb_spec c sep); [contradiction|]. rewrite IH. reflexivity.
Qed.

Lemma pop_cons x l : l <> [] -> pop (x :: l) = pop l.
Proof. destruct l; [congruence | reflexivity]. Qed.

(** The last segment of [pre ++ sep :: p] is [p] when [p] holds no
    separator. *)
Lemma pop_split_last sep p : Forall (fun c => c <> sep) p ->
  forall pre, pop (split sep (pre ++ sep :: p)) = p.
Proof.
  intros Hp. induction pre as [|c pre IH]; simpl.
  - rewrite N.eqb_refl, (split_plain Hp). reflexivity.
  - destruct (c =? sep)%N.
    + rewrite pop_cons by apply split_nonempty. exact IH.
    + destruct (split sep (pre ++ sep :: p)) as [|x [|y l]] eqn:E.
      * destruct (split_nonempty _ _ E).
      * exfalso. clear IH.
        assert (L : List.length (split sep (pre ++ sep :: p)) >= 2).
        { clear E. induction pre as [|d pre IH]; simpl.
          - rewrite N.eqb_refl. simpl.
            pose proof (split_nonempty sep p). destruct (split sep p); [congruence|].
            simpl. lia.
          - destruct (d =? sep)%N; simpl; [lia|].
            destruct (split sep (pre ++ sep :: p)) as [|? [|? ?]]; simpl in *; lia. }
        rewrite E in L. simpl in L. lia.
      * exact IH.
Qed.

(** X16. Deleting a gallery item whose image URL ends in a slash followed by
    the stored path (a path with no slash, as the gallery upload makes
    them) asks storage to remove exactly that path, then deletes the
    row. *)
Theorem gallery_delete_removes_the_stored_path {W} {B : Backend W} (w : W) u id
  base path :
  fst (confirm (lit "Are you sure you want to delete this gallery item?") w) = true ->
  path <> [] ->
  Forall (fun c => c <> slash) path ->
  exists o1 o rest,
    log (run (deleteGalleryItem id (Some (base ++ slash :: path))) w u)
    = (StorageRemove "gallery-images" [path], o1)
      :: (DbDelete "gallery" "id" id, o) :: rest.
Proof.
  intros Hc Hne Hp.
  destruct (deleteGalleryItem_log w u id (Some (base ++ slash :: path)) Hc)
    as (pre & o & rest & E & S & _).
  assert (F : stored_file (Some (base ++ slash :: path)) = Some path).
  { unfold stored_file. cbv zeta. rewrite (pop_split_last Hp).
    assert (T : truthy (base ++ slash :: path) = true) by (destruct base; reflexivity).
    rewrite T. destruct path; [congruence | reflexivity]. }
  rewrite F in S. destruct S as (o1 & ->).
  exists o1, o, rest. exact E.
Qed.

Lemma gallery_delete_path_witness :
  fst (confirm (lit "Are you sure you want to delete this gallery item?")
         (Sim.empty [] true)) = true
  /\ exists o1 o rest,
       log (run (deleteGalleryItem (lit "id-0")
                   (Some (lit "https://cdn.test/gallery-images"
                          ++ slash :: lit "0.0.jpg")))
              (Sim.empty [] true) blank)
       = (StorageRemove "gallery-images" [lit "0.0.jpg"], o1)
         :: (DbDelete "gallery" "id" (lit "id-0"), o) :: rest.
Proof.
  assert (H : fst (confirm (lit "Are you sure you want to delete this gallery item?")
                     (Sim.empty [] true)) = true) by reflexivity.
  split; [exact H|].
  apply (gallery_delete_removes_the_stored_path (Sim.empty [] true) blank (lit "id-0")
           (lit "https://cdn.test/gallery-images") H).
  - discriminate.
  - vm_compute. repeat constructor; discriminate.
Defined.

(** ** What a handler adds to the log *)

Section Adds.

Context {W : Type} {B : Backend W}.
Variable P : Event -> Prop.

Lemma adds_ret A (a : A) : only_adds P (ret (W := W) a).
Proof. intros s H. exact H. Qed.

Lemma adds_throw A e : only_adds P (throw (W := W) (A := A) e).
Proof. intros s H. exact H. Qed.

Lemma adds_set f : only_adds P (set (W := W) f).
Proof. intros s H. exact H. Qed.

Lemma adds_toast t d v : only_adds P (toast (W := W) t d v).
Proof. intros s H. exact H. Qed.

Lemma adds_local A (f : W -> A * W) : only_adds P (local f).
Proof. intros s H. unfold local. destruct (f (world s)). exact H. Qed.

Lemma adds_call A req (f : W -> A * W) o :
  (forall out, P (req, out)) -> only_adds P (call req f o).
Proof.
  intros Hreq s H. unfold call. destruct (f (world s)) as [r w']. simpl.
  apply Forall_app. split; [exact H | constructor; [apply Hreq | constructor]].
Qed.

Lemma adds_bind A C (m : M W A) (k : A -> M W C) :
  only_adds P m -> (forall a, only_adds P (k a)) -> only_adds P (bind m k).
Proof.
  intros Hm Hk s H. unfold bind. specialize (Hm s H).
  destruct (m s) as [[e|a] s1]; simpl in *; [exact Hm|].
  apply (Hk a s1 Hm).
Qed.

Lemma adds_try_catch A (m : M W A) h :
  only_adds P m -> (forall e, only_adds P (h e)) -> only_adds P (try_catch m h).
Proof.
  intros Hm Hh s H. unfold try_catch. specialize (Hm s H).
  destruct (m s) as [[e|a] s1]; simpl in *; [|exact Hm].
  apply (Hh e s1 Hm).
Qed.

Lemma adds_finally A (m : M W A) fin :
  only_adds P m -> only_adds P fin -> only_adds P (finally m fin).
Proof.
  intros Hm Hf s H. unfold finally. specialize (Hm s H).
  destruct (m s) as [r s1]. simpl in Hm. specialize (Hf s1 Hm).
  destruct (fin s1) as [[e|[]] s2]; exact Hf.
Qed.

Lemma adds_for_files body :
  (forall i f, only_adds P (body i f)) ->
  forall files i, only_adds P (for_files (W := W) body i files).
Proof.
  intros Hb. induction files as [|f fs IH]; intros i; simpl.
  - apply adds_ret.
  - apply adds_bind; [apply Hb | intros _; apply IH].
Qed.

Lemma adds_if_nonempty files (m : M W unit) :
  only_adds P m -> only_adds P (if_nonempty files m).
Proof.
  intros Hm. unfold if_nonempty. destruct (0 <? List.length files)%nat;
    [exact Hm | apply adds_ret].
Qed.

Lemma adds_run (m : M W unit) w u : only_adds P m -> Forall P (log (run m w u)).
Proof. intros Hm. apply Hm. constructor. Qed.

End Adds.

Create HintDb adds.

#[local] Hint Resolve adds_ret adds_throw adds_set adds_toast adds_local adds_bind
  adds_try_catch adds_finally adds_for_files adds_if_nonempty : adds.

Section UploadPaths.

Context {W : Type} {B : Backend W}.

(** What follows a step may rely on what the step returned. *)
Lemma adds_bind_out (P : Event -> Prop) A C (m : M W A) (k : A -> M W C) :
  only_adds P m ->
  (forall s a s1, m s = (inr a, s1) -> only_adds P (k a)) ->
  only_adds P (bind m k).
Proof.
  intros Hm Hk s H. unfold bind. specialize (Hm s H).
  destruct (m s) as [[e|a] s1] eqn:E; simpl in *; [exact Hm|].
  apply (Hk s a s1 E s1 Hm).
Qed.

Lemma adds_upload_file bucket folder table row file :
  only_adds (uploaded_under bucket folder)
    (upload_file (W := W) bucket folder table row file).
Proof.
  unfold upload_file, storage_upload, db_insert, throw_if.
  apply adds_bind_out; [apply adds_local|]. intros s r s1 E.
  assert (D : drawn r).
  { exists (world s). unfold local in E. destruct (random (world s)) as [r' w'].
    injection E as <- _. reflexivity. }
  apply adds_bind.
  - apply adds_call. intros out. split; [reflexivity|].
    exists r. split; [exact D | reflexivity].
  - intros [e|]; (apply adds_bind; [auto with adds|]); intros _;
      (apply adds_bind; [apply adds_call; intros out; exact I|]);
      intros [e'|]; auto with adds.
Qed.

Lemma adds_fetch bucket folder t c a msg setter :
  only_adds (uploaded_under bucket folder)
    (bind (db_select (W := W) t c a)
       (fun r => match r with
                 | inl _ => toast "Error" (Literal (lit msg)) true
                 | inr data => set (setter (or_empty data))
                 end)).
Proof.
  apply adds_bind; [apply adds_call; intros out; exact I|].
  intros [e|d]; auto with adds.
Qed.

(** The log of a handler is the log of its [try] block: neither the
    toast of its [catch] nor the setter of its [finally] sends
    anything. *)
Lemma guarded_log (m : M W unit) t d v g (s : St W) :
  log (snd (finally (try_catch m (fun error => toast t (d error) v)) (set g) s))
  = log (snd (m s)).
Proof.
  unfold finally, try_catch, toast, set.
  destruct (m s) as [[e|a] s1]; reflexivity.
Qed.

Lemma bind_assoc A C D (m : M W A) (k1 : A -> M W C) (k2 : C -> M W D) s :
  bind (bind m k1) k2 s = bind m (fun a => bind (k1 a) k2) s.
Proof. unfold bind. destruct (m s) as [[e|a] s1]; reflexivity. Qed.

(** The invariant from any state on. *)
Lemma adds_at (P : Event -> Prop) A (m : M W A) (s : St W) :
  only_adds P m -> Forall P (log s) -> Forall P (log (snd (m s))).
Proof. intros Hm H. exact (Hm s H). Qed.

End UploadPaths.

(** X17. Where the uploads of a submission go.  When the data store
    replies to the insert of the project with an id, every upload of
    the run, images and videos alike, goes to the bucket
    [project-images] under a path that is that id, a slash, a name given
    by [Math.random], a dot and what follows the last dot of the file's
    name; when it replies with an error nothing is uploaded.  The same
    holds for a service and the bucket [service-images].  Every upload
    of a gallery submission goes to [gallery-images] under a path that
    is a name given by [Math.random], a dot and the extension, with
    nothing before it. *)
Theorem uploads_keep_the_extension {W} {B : Backend W} y (w : W) u :
  uploads_follow "project-images"
    (fst (insert_single "projects"
            [projectData (project_input (project_form u))] w))
    (log (run (handleSubmit y u) w u))
  /\ uploads_follow "service-images"
       (fst (insert_single "services"
               [serviceData (service_input (service_form u))] w))
       (log (run (handleServiceSubmit u) w u))
  /\ Forall (uploaded_under "gallery-images" [])
       (log (run (handleGallerySubmit u) w u)).
Proof.
  refine (conj _ (conj _ _)).
  - unfold run, handleSubmit. rewrite guarded_log.
    unfold handleSubmit_try. unfold bind at 1. unfold parse_or_throw.
    destruct (ProjectSchema.parse y _) as [iss|v] eqn:P.
    { simpl. destruct (fst _); [reflexivity | constructor]. }
    apply project_parse_iff in P as [_ ->].
    unfold ret at 1. unfold bind at 1. unfold set at 1.
    unfold bind at 1. unfold db_insert_single, call. simpl.
    destruct (insert_single _ _ w) as [[e|id] w1]; [reflexivity|].
    cbn [fst uploads_follow].
    apply adds_at; [|repeat constructor].
    + apply adds_bind; [apply adds_if_nonempty, adds_for_files; intros i f;
                        apply adds_upload_file|]. intros _.
      apply adds_bind; [apply adds_if_nonempty, adds_for_files; intros i f;
                        apply adds_upload_file|]. intros _.
      repeat (apply adds_bind; [auto with adds|]; intros _).
      apply adds_fetch.
  - destruct (editing_id (service_form u)) as [editing|] eqn:Ed.
    + destruct (edit_log w u Ed) as (U & _ & F & _).
      destruct (fst _) as [e|id]; [exact U|]. cbn [uploads_follow].
      revert F. apply Forall_impl. intros [[] o] H; try exact I. discriminate H.
    + unfold run, handleServiceSubmit. rewrite guarded_log.
      unfold handleServiceSubmit_try. unfold bind at 1. unfold parse_or_throw.
      destruct (ServiceSchema.parse _) as [iss|v] eqn:P.
      { simpl. destruct (fst _); [reflexivity | constructor]. }
      apply service_parse_iff in P as [_ ->].
      unfold ret at 1. unfold bind at 1. unfold set at 1.
      rewrite Ed, bind_assoc.
      unfold bind at 1. unfold db_insert_single, call. simpl.
      destruct (insert_single _ _ w) as [[e|id] w1]; [reflexivity|].
      cbn [fst uploads_follow].
      apply adds_at; [|repeat constructor].
      apply adds_bind.
      * apply adds_bind; [apply adds_if_nonempty, adds_for_files; intros i f;
                          apply adds_upload_file|]. intros _.
        apply adds_bind; [apply adds_if_nonempty, adds_for_files; intros i f;
                          apply adds_upload_file|]. intros _.
        auto with adds.
      * intros _. unfold cancelEditService.
        apply adds_bind; [auto 10 with adds|]. intros _. apply adds_fetch.
  - apply adds_run. unfold handleGallerySubmit.
    destruct (is_media image _ && _); [auto with adds|].
    destruct (is_media video _ && _); [auto with adds|].
    unfold handleGallerySubmit_try, parse_or_throw, db_insert, throw_if.
    apply adds_finally; [|auto with adds].
    apply adds_try_catch; [|auto with adds].
    apply adds_bind; [destruct (GallerySchema.parse _); auto with adds|].
    intros v. apply adds_bind; [auto with adds|]. intros _.
    apply adds_bind.
    + destruct (galleryMediaType (gallery_form u)).
      * apply adds_bind; [|auto with adds].
        apply adds_for_files. intros i f. apply adds_upload_file.
      * apply adds_bind; [apply adds_call; intros out; exact I|].
        intros [e|]; auto with adds.
    + intros _. repeat (apply adds_bind; [auto with adds|]; intros _).
      apply adds_fetch.
Qed.

Lemma uploads_witness :
  let u := Sample.project_two_images in
  let w := Sim.empty [] true in
  fst (insert_single "projects" [projectData (project_input (project_form u))] w)
  = inr (lit "id-0")
  /\ Forall (uploaded_under "project-images" (lit "id-0" ++ lit "/"))
       (log (run (handleSubmit 2026 u) w u))
  /\ List.length (uploads (log (run (handleSubmit 2026 u) w u))) = 2.
Proof.
  cbv zeta.
  assert (R : fst (insert_single "projects"
                     [projectData (project_input
                                     (project_form Sample.project_two_images))]
                     (Sim.empty [] true))
              = inr (lit "id-0")) by (vm_compute; reflexivity).
  split; [exact R|]. split; [|vm_compute; reflexivity].
  pose proof (proj1 (uploads_keep_the_extension 2026 (Sim.empty [] true)
                       Sample.project_two_images)) as H.
  rewrite R in H. exact H.
Defined.


Lemma split_segments sep s : Forall (Forall (fun c => c <> sep)) (split sep s).
Proof.
  induction s as [|c r IH]; simpl.
  - repeat constructor.
  - destruct (N.eqb_spec c sep) as [->|Hne].
    + constructor; [constructor | exact IH].
    + destruct (split sep r) as [|x l]; [repeat constructor; assumption|].
      inversion IH; subst. constructor; [constructor; assumption | assumption].
Qed.

Lemma pop_in l : l <> [] -> In (pop l) l.
Proof.
  unfold pop. induction l as [|x [|y l] IH]; intros H; [congruence | left; reflexivity|].
  right. apply IH. discriminate.
Qed.

(** X18. The extension given to an upload, [file.name.split('.').pop()]:
    it holds no dot; it is what follows the last dot of the name, and
    the whole name when the name has no dot. *)
Theorem extension_of_a_file_name (fname : jsstring) :
  Forall (fun c => c <> dot) (pop (split dot fname))
  /\ (Forall (fun c => c <> dot) fname -> pop (split dot fname) = fname)
  /\ (forall pre e, Forall (fun c => c <> dot) e -> fname = pre ++ dot :: e ->
                    pop (split dot fname) = e).
Proof.
  refine (conj _ (conj _ _)).
  - pose proof (split_segments dot fname) as H. rewrite Forall_forall in H.
    apply H, pop_in, split_nonempty.
  - intros H. rewrite (split_plain H). reflexivity.
  - intros pre e He ->. apply (pop_split_last He).
Qed.

Lemma extension_witness :
  Forall (fun c => c <> dot) (lit "jpg")
  /\ pop (split dot (lit "photo.final.jpg")) = lit "jpg".
Proof.
  assert (H : Forall (fun c => c <> dot) (lit "jpg"))
    by (vm_compute; repeat constructor; discriminate).
  split; [exact H|].
  exact (proj2 (proj2 (extension_of_a_file_name (lit "photo.final.jpg")))
           (lit "photo.final") (lit "jpg") H eq_refl).
Defined.

(** ** Opening a service for editing *)

Lemma editService_run {W} {B : Backend W} (svc : ServiceRow.t) (s : St W) :
  editService svc s
  = (inr tt,
     {| world := world s;
        ui := setServiceIcon (or_blank (ServiceRow.icon svc))
                (setServiceDescription (ServiceRow.description svc)
                   (setServiceShortDesc (or_blank (ServiceRow.short_description svc))
                      (setServiceSlug (ServiceRow.slug svc)
                         (setServiceTitle (ServiceRow.title svc)
                            (setEditingService (Some (ServiceRow.id svc)) (ui s))))));
        log := log s; toasts := toasts s |}).
Proof. reflexivity. Qed.

(** X19. Opening a service and cancelling does not give the form back as it
    was: the fields are blank and the selected images are gone, while
    the selected videos stay. *)
Theorem edit_then_cancel {W} {B : Backend W} (w w' : W) u svc :
  let u1 := ui (run (editService svc) w u) in
  let u2 := ui (run cancelEditService w' u1) in
  service_form u2
  = {| serviceTitle := []; serviceSlug := []; serviceShortDesc := [];
       serviceDescription := []; serviceIcon := []; serviceImages := [];
       serviceVideos := serviceVideos (service_form u); editingService := None;
       serviceSubmitting := serviceSubmitting (service_form u) |}
  /\ serviceImages (service_form u1) = serviceImages (service_form u)
  /\ project_form u2 = project_form u /\ gallery_form u2 = gallery_form u.
Proof.
  cbv zeta. unfold run. rewrite editService_run, cancelEditService_run.
  destruct u as [? ? ? ? [] ?]. repeat split.
Qed.

(** A save with no editing id and a valid form starts with the insert
    of the service. *)
Lemma create_log {W} {B : Backend W} (w : W) u :
  editing_id (service_form u) = None ->
  valid_service (service_form u) ->
  exists o rest,
    log (run (handleServiceSubmit u) w u)
    = (DbInsert "services" [serviceData (service_input (service_form u))], o) :: rest.
Proof.
  intros Ed V.
  destruct (handleServiceSubmit_outcome w u)
    as [iss P Hw Hl Ht Hu | v id' e P Ed' Hl Ht Hu | v id' sel rest P Ed' Hl Ht
        | v e P Ed' Hl Ht Hu
        | v id' evs1 res1 evs2 e P Ed' Hb1 Hb2 Hl Ht Hu
        | v id' evs1 evs2 sel rest P Ed' Hb1 Hb2 Hl Ht];
    try congruence;
    try (rewrite (proj2 (service_parse_iff (service_form u) _) (conj V eq_refl)) in P;
         discriminate);
    apply service_parse_iff in P as [_ ->]; rewrite Hl; eexists _, _; reflexivity.
Qed.

(** X3. Saving while a service is being edited.  The handler tests the
    editing id for truth (line 498): with an id that is not empty it
    sends one update of the edited row, a refresh if it went through,
    and no upload or insert whatever files are selected; with the empty
    string as id it takes the creation path, and a valid form starts
    with the insert of a new service. *)
Theorem saving_an_edit_sends_one_update {W} {B : Backend W} (w : W) u id :
  editingService (service_form u) = Some id ->
  let l := log (run (handleServiceSubmit u) w u) in
  (id <> [] ->
   uploads l = []
   /\ (forall t, inserts t l = [])
   /\ Forall (fun ev => is_update_of id (fst ev) || is_select (fst ev) = true) l
   /\ List.length (filter (fun ev => is_update_of id (fst ev)) l) <= 1)
  /\ (id = [] -> valid_service (service_form u) ->
      exists o rest,
        l = (DbInsert "services" [serviceData (service_input (service_form u))], o)
            :: rest).
Proof.
  intros Ed l. subst l. split.
  - intros Hid. apply edit_log. apply editing_id_some; [exact Ed|].
    apply truthy_nonempty. exact Hid.
  - intros -> V. apply create_log; [|exact V]. apply editing_id_empty. exact Ed.
Qed.

Lemma saving_an_edit_witness :
  let u := Sample.service_editing in
  editingService (service_form u) = Some (lit "id-0")
  /\ lit "id-0" <> []
  /\ uploads (log (run (handleServiceSubmit u) Sample.with_living_room u)) = [].
Proof.
  assert (H : editingService (service_form Sample.service_editing)
              = Some (lit "id-0")) by reflexivity.
  assert (N : lit "id-0" <> []) by discriminate.
  split; [exact H|]. split; [exact N|].
  exact (proj1 (proj1 (saving_an_edit_sends_one_update Sample.with_living_room
                         Sample.service_editing H) N)).
Defined.

(** X20. Opening a service and saving.  When the id of the opened service
    is not empty, the save sends an update of that service's row and
    nothing else but the refresh; when the opened fields are valid the
    update is the first request and carries the trimmed title, slug and
    description.  When the id is the empty string the handler takes the
    creation path: with valid fields the first request is the insert of
    a new service with those fields. *)
Theorem edit_then_save {W} {B : Backend W} (w w' : W) u svc :
  let u1 := ui (run (editService svc) w u) in
  let l := log (run (handleServiceSubmit u1) w' u1) in
  (ServiceRow.id svc <> [] ->
   Forall (fun ev => is_update_of (ServiceRow.id svc) (fst ev)
                     || is_select (fst ev) = true) l
   /\ uploads l = []
   /\ (valid_service (service_form u1) ->
       exists data o rest,
         l = (DbUpdate "services" data "id" (ServiceRow.id svc), o) :: rest
         /\ field "title" data = Some (VStr (trim (ServiceRow.title svc)))
         /\ field "slug" data = Some (VStr (trim (ServiceRow.slug svc)))
         /\ field "description" data
            = Some (VStr (trim (ServiceRow.description svc)))))
  /\ (ServiceRow.id svc = [] ->
      valid_service (service_form u1) ->
      exists data o rest,
        l = (DbInsert "services" [data], o) :: rest
        /\ field "title" data = Some (VStr (trim (ServiceRow.title svc)))
        /\ field "slug" data = Some (VStr (trim (ServiceRow.slug svc)))
        /\ field "description" data
           = Some (VStr (trim (ServiceRow.description svc)))).
Proof.
  intros u1 l.
  assert (Ed : editingService (service_form u1) = Some (ServiceRow.id svc)).
  { subst u1. unfold run. rewrite editService_run.
    destruct u as [? ? ? ? [] ?]. reflexivity. }
  assert (Fs : serviceTitle (service_form u1) = ServiceRow.title svc
               /\ serviceSlug (service_form u1) = ServiceRow.slug svc
               /\ serviceDescription (service_form u1) = ServiceRow.description svc).
  { subst u1. unfold run. rewrite editService_run.
    destruct u as [? ? ? ? [] ?]. repeat split. }
  assert (Data : field "title" (serviceData (service_input (service_form u1)))
                 = Some (VStr (trim (ServiceRow.title svc)))
                 /\ field "slug" (serviceData (service_input (service_form u1)))
                    = Some (VStr (trim (ServiceRow.slug svc)))
                 /\ field "description" (serviceData (service_input (service_form u1)))
                    = Some (VStr (trim (ServiceRow.description svc)))).
  { destruct Fs as (F1 & F2 & F3). unfold serviceData, service_input.
    cbn [ServiceSchema.title ServiceSchema.slug ServiceSchema.description field app
         String.eqb Ascii.eqb Bool.eqb].
    rewrite F1, F2, F3. repeat split. }
  split.
  - intros Hid.
    assert (Ei : editing_id (service_form u1) = Some (ServiceRow.id svc))
      by (apply editing_id_some; [exact Ed | apply truthy_nonempty; exact Hid]).
    destruct (edit_log w' u1 Ei) as (U & _ & F & _). fold l in U, F.
    split; [exact F | split; [exact U|]].
    intros V. subst l.
    destruct (handleServiceSubmit_outcome w' u1)
      as [iss P Hw Hl Ht Hu | v id' e P Ed' Hl Ht Hu | v id' sel rest P Ed' Hl Ht
          | v e P Ed' Hl Ht Hu
          | v id' evs1 res1 evs2 e P Ed' Hb1 Hb2 Hl Ht Hu
          | v id' evs1 evs2 sel rest P Ed' Hb1 Hb2 Hl Ht];
      try congruence;
      try (rewrite (proj2 (service_parse_iff (service_form u1) _) (conj V eq_refl))
             in P; discriminate);
      apply service_parse_iff in P as [_ ->];
      rewrite Ei in Ed'; injection Ed' as <-; rewrite Hl;
      eexists _, _, _; (split; [reflexivity | exact Data]).
  - intros Hid V. rewrite Hid in Ed.
    destruct (create_log w' u1 (editing_id_empty _ Ed) V) as (o & rest & Hl).
    exists (serviceData (service_input (service_form u1))), o, rest.
    split; [exact Hl | exact Data].
Qed.

Lemma edit_then_save_witness :
  let w := Sample.with_living_room in
  let u1 := ui (run (editService AdminSample.kitchen) w blank) in
  ServiceRow.id AdminSample.kitchen <> []
  /\ valid_service (service_form u1)
  /\ exists data o rest,
       log (run (handleServiceSubmit u1) w u1)
       = (DbUpdate "services" data "id" (lit "id-0"), o) :: rest
       /\ field "title" data = Some (VStr (lit "Kitchen")).
Proof.
  cbv zeta.
  assert (N : ServiceRow.id AdminSample.kitchen <> []) by discriminate.
  assert (V : valid_service
                (service_form
                   (ui (run (editService AdminSample.kitchen)
                          Sample.with_living_room blank)))).
  { unfold valid_service. repeat split; vm_compute; discriminate. }
  split; [exact N|]. split; [exact V|].
  destruct (proj2 (proj2 (proj1 (edit_then_save Sample.with_living_room
                                   Sample.with_living_room blank AdminSample.kitchen)
                            N)) V)
    as (data & o & rest & Hl & Ht & _).
  exists data, o, rest. split; [exact Hl | exact Ht].
Defined.

(** * Properties of the public pages *)

(** ** Lists *)



(** The tile at [i], when it passes [p], is at the place the count of
    passing tiles up to it gives. *)
Lemma filter_firstn_nth {A} (p : A -> bool) (l : list A) i x :
  nth_error l i = Some x -> p x = true ->
  exists k, List.length (filter p (firstn (S i) l)) = S k
            /\ nth_error (filter p l) k = Some x.
Proof.
  revert i; induction l as [|a l IH]; intros [|i] H Hp; try discriminate.
  - injection H as ->. exists 0. simpl. rewrite Hp. simpl.
    split; reflexivity.
  - simpl in H. destruct (IH _ H Hp) as (k & Hk & Hn).
    change (firstn (S (S i)) (a :: l)) with (a :: firstn (S i) l).
    cbn [filter]. destruct (p a).
    + exists (S k). cbn [List.length nth_error]. split; [now rewrite Hk | exact Hn].
    + exists k. now split.
Qed.

Lemma filter_split_length {A} (p r : A -> bool) (l : list A) :
  List.length (filter p l)
  = List.length (filter (fun x => p x && r x) l)
    + List.length (filter (fun x => p x && negb (r x)) l).
Proof.
  induction l as [|a l IH]; simpl; [reflexivity|].
  destruct (p a), (r a); simpl; lia.
Qed.

Lemma endsWith_spec (s suffix : jsstring) :
  endsWith s suffix = true <-> exists pre, s = pre ++ suffix.
Proof.
  unfold endsWith. split.
  - intros H. apply andb_true_iff in H as [H1 H2].
    apply js_eqb_eq in H2. exists (firstn (List.length s - List.length suffix) s).
    rewrite <- H2 at 2. symmetry. apply firstn_skipn.
  - intros (pre & ->). rewrite length_app. apply andb_true_iff. split.
    + apply Nat.leb_le. lia.
    + replace (List.length pre + List.length suffix - List.length suffix)
        with (List.length pre + 0) by lia.
      rewrite skipn_app, Nat.add_0_r, skipn_all.
      replace (List.length pre - List.length pre) with 0 by lia.
      simpl. apply js_eqb_refl.
Qed.

Lemma existsb_eqb (x : jsstring) seen :
  existsb (Js.eqb x) seen = true <-> In x seen.
Proof.
  rewrite existsb_exists. split.
  - intros (y & Hy & E). apply js_eqb_eq in E. now subst.
  - intros H. exists x. split; [assumption | apply js_eqb_refl].
Qed.

Lemma distinct_in seen xs c :
  In c (distinct seen xs) <-> In c xs /\ ~ In c seen.
Proof.
  revert seen; induction xs as [|x xs IH]; intros seen; simpl.
  - tauto.
  - destruct (existsb (Js.eqb x) seen) eqn:E.
    + apply existsb_eqb in E. rewrite IH. split.
      * tauto.
      * intros [[<- | H] N]; tauto.
    + assert (N : ~ In x seen).
      { intros H. apply existsb_eqb in H. congruence. }
      simpl. rewrite IH. simpl. split.
      * intros [<- | [H1 H2]]; [tauto|]. split; [tauto|]. tauto.
      * intros [[<- | H] N']; [tauto|].
        destruct (list_eq_dec N.eq_dec x c) as [<- | D]; [tauto|]. right. tauto.
Qed.

Lemma distinct_nodup seen xs : NoDup (distinct seen xs).
Proof.
  revert seen; induction xs as [|x xs IH]; intros seen; simpl.
  - constructor.
  - destruct (existsb (Js.eqb x) seen); [apply IH|].
    constructor; [|apply IH].
    rewrite distinct_in. simpl. tauto.
Qed.

(** ** The gallery page over the CMS *)

Module GalleryFacts.
Import Gallery.




Lemma pushed_in galleries m :
  In m (allMedia galleries) <->
  exists gallery items item,
    In gallery galleries /\ team_working (acf gallery) = Some items
    /\ In item items /\ m = pushed gallery item.
Proof.
  unfold allMedia. rewrite in_flat_map. split.
  - intros (g & Hg & Hm). destruct (team_working (acf g)) as [items|] eqn:E.
    + apply in_map_iff in Hm as (item & <- & Hi). now exists g, items, item.
    + destruct Hm.
  - intros (g & items & item & Hg & E & Hi & ->). exists g. split; [assumption|].
    rewrite E. now apply in_map.
Qed.

Lemma fetched_media galleries s :
  media (fetchGalleryMedia (Some galleries) s) = allMedia galleries.
Proof. destruct s. reflexivity. Qed.

End GalleryFacts.




(** X22. The category buttons: ["all"], then each category of the fetched
    media exactly once; and the button of an item's category shows the
    item when no media type is chosen. *)
Theorem every_category_has_one_button (s : Gallery.State) :
  exists buttons,
    Gallery.categories s = lit "all" :: buttons
    /\ NoDup buttons
    /\ (forall c, In c buttons <->
                  exists m, In m (Gallery.media s) /\ Gallery.category m = c)
    /\ forall m, In m (Gallery.media s) ->
         In m (Gallery.filteredMedia
                 (Gallery.setSelectedCategory (Gallery.category m)
                    (Gallery.setSelectedMediaType all_media s))).
Proof.
  exists (distinct [] (map Gallery.category (Gallery.media s))).
  refine (conj eq_refl (conj (distinct_nodup _ _) (conj _ _))).
  - intros c. rewrite distinct_in, in_map_iff. simpl. split.
    + intros [(m & E & H) _]. now exists m.
    + intros (m & H & E). split; [now exists m | tauto].
  - intros m H. destruct s as [ms l c t o i]. unfold Gallery.filteredMedia.
    simpl in *. apply filter_In. split; [assumption|].
    rewrite js_eqb_refl, orb_true_r. reflexivity.
Qed.

Lemma category_buttons_witness :
  let m := Gallery.pushed PageSample.team PageSample.clip in
  In m (Gallery.media PageSample.cms_page)
  /\ Gallery.categories PageSample.cms_page = [lit "all"; lit "team"]
  /\ In m (Gallery.filteredMedia
             (Gallery.setSelectedCategory (Gallery.category m)
                (Gallery.setSelectedMediaType all_media PageSample.cms_page))).
Proof.
  cbv zeta.
  assert (H : In (Gallery.pushed PageSample.team PageSample.clip)
                (Gallery.media PageSample.cms_page))
    by (vm_compute; right; left; reflexivity).
  split; [exact H|]. split; [vm_compute; reflexivity|].
  destruct (every_category_has_one_button PageSample.cms_page)
    as (buttons & _ & _ & _ & Hm).
  exact (Hm _ H).
Defined.


(** A URL names a video file: it ends in [.mp4] or in [.webm]. *)
Lemma isVideo_spec (u : jsstring) :
  Gallery.isVideo u = true
  <-> exists pre, u = pre ++ lit ".mp4" \/ u = pre ++ lit ".webm".
Proof.
  unfold Gallery.isVideo. rewrite orb_true_iff, !endsWith_spec. split.
  - intros [(pre & H) | (pre & H)]; exists pre; tauto.
  - intros (pre & [H | H]); [left | right]; exists pre; exact H.
Qed.

(** X23. What the page holds after a fetch that went through: the items
    of the [team_working] arrays of the fetched galleries, one entry
    per item, in the order of the galleries and of their arrays, and
    nothing else.  Each entry has the id and the URL of its item, is
    filed under the slug of the gallery the item is in, is titled with
    the item's title or, when that is empty, with the title of that
    gallery, and is a video exactly when its URL ends in [.mp4] or
    [.webm]. *)
Theorem fetched_items_are_typed_by_their_url galleries s :
  map Gallery.url (Gallery.media (Gallery.fetchGalleryMedia (Some galleries) s))
  = flat_map (fun gallery =>
                match Gallery.team_working (Gallery.acf gallery) with
                | Some items => map Gallery.item_url items
                | None => []
                end) galleries
  /\ forall m,
       In m (Gallery.media (Gallery.fetchGalleryMedia (Some galleries) s))
       <-> exists gallery items item,
             In gallery galleries
             /\ Gallery.team_working (Gallery.acf gallery) = Some items
             /\ In item items
             /\ Gallery.id m = Gallery.item_id item
             /\ Gallery.url m = Gallery.item_url item
             /\ Gallery.category m = Gallery.slug gallery
             /\ Gallery.title m
                = (if truthy (Gallery.item_title item) then Gallery.item_title item
                   else Gallery.gallery_title gallery)
             /\ (Gallery.type m = video <->
                 exists pre, Gallery.url m = pre ++ lit ".mp4"
                             \/ Gallery.url m = pre ++ lit ".webm").
Proof.
  rewrite GalleryFacts.fetched_media. split.
  { unfold Gallery.allMedia.
    induction galleries as [|g gs IH]; simpl; [reflexivity|].
    rewrite map_app, IH. f_equal.
    destruct (Gallery.team_working (Gallery.acf g)); [|reflexivity].
    rewrite map_map. reflexivity. }
  intros m. rewrite GalleryFacts.pushed_in. split.
  - intros (g & items & item & Hg & E & Hi & ->). exists g, items, item.
    refine (conj Hg (conj E (conj Hi _))). cbn [Gallery.pushed Gallery.id
      Gallery.url Gallery.category Gallery.title Gallery.type].
    repeat split; try reflexivity.
    + destruct (Gallery.isVideo (Gallery.item_url item)) eqn:V;
        [intros _; apply isVideo_spec; exact V | discriminate].
    + intros H. apply isVideo_spec in H. rewrite H. reflexivity.
  - intros (g & items & item & Hg & E & Hi & H1 & H2 & H3 & H4 & H5).
    exists g, items, item. refine (conj Hg (conj E (conj Hi _))).
    destruct m as [i t u ty c]. cbn in H1, H2, H3, H4, H5. subst i u c t.
    unfold Gallery.pushed. f_equal.
    rewrite <- isVideo_spec in H5.
    destruct ty, (Gallery.isVideo (Gallery.item_url item)); try reflexivity.
    + destruct H5 as [_ H5]. discriminate (H5 eq_refl).
    + destruct H5 as [H5 _]. discriminate (H5 eq_refl).
Qed.

Lemma fetched_items_witness :
  let m := Gallery.pushed PageSample.team PageSample.clip in
  In m (Gallery.media PageSample.cms_page)
  /\ exists gallery items item,
       In gallery [PageSample.team]
       /\ Gallery.team_working (Gallery.acf gallery) = Some items
       /\ In item items
       /\ Gallery.id m = Gallery.item_id item.
Proof.
  assert (H : In (Gallery.pushed PageSample.team PageSample.clip)
                (Gallery.media
                   (Gallery.fetchGalleryMedia (Some [PageSample.team])
                      Gallery.initial)))
    by (vm_compute; right; left; reflexivity).
  split; [exact H|].
  destruct (proj1 (proj2 (fetched_items_are_typed_by_their_url [PageSample.team]
                            Gallery.initial) _) H)
    as (g & items & item & H1 & H2 & H3 & H4 & _).
  exists g, items, item. repeat split; assumption.
Defined.


(** ** The gallery page over the data store *)

Module StoredGalleryFacts.
Import StoredGallery.

Lemma stored_click_keeps_the_tiles index s :
  filteredImages (handleImageClick index s) = filteredImages s.
Proof. destruct s. reflexivity. Qed.

Lemma stored_click_index index s :
  lightboxIndex (handleImageClick index s)
  = (Z.of_nat (List.length
       (filter is_image (firstn (index + 1) (filteredImages s)))) - 1)%Z.
Proof. destruct s. reflexivity. Qed.

Lemma stored_click_opens index s : lightboxOpen (handleImageClick index s) = true.
Proof. destruct s. reflexivity. Qed.

End StoredGalleryFacts.

(** X24. Clicking an image tile that has a file opens the lightbox, and the
    index set is the place of the clicked image among the lightbox
    entries plus the number of image tiles without a file up to it: the
    lightbox shows the clicked image when every image before it has a
    file, and is that many entries further otherwise. *)
Theorem stored_lightbox_index (s : StoredGallery.State) index img :
  nth_error (StoredGallery.filteredImages s) index = Some img ->
  StoredGallery.is_image img = true ->
  StoredGallery.has_url img = true ->
  let s' := StoredGallery.handleImageClick index s in
  StoredGallery.lightboxOpen s' = true
  /\ exists place,
       nth_error (StoredGallery.imageUrls s') place
       = Some (StoredGallery.shown img)
       /\ StoredGallery.lightboxIndex s'
          = Z.of_nat (place + StoredGallery.without_a_file (index + 1) s).
Proof.
  intros Hn Hi Hu s'. subst s'.
  destruct (filter_firstn_nth
              (fun img => StoredGallery.is_image img && StoredGallery.has_url img)
              (StoredGallery.filteredImages s) index Hn) as (k & Hk & Hx).
  { now rewrite Hi, Hu. }
  split; [apply StoredGalleryFacts.stored_click_opens|]. exists k.
  unfold StoredGallery.imageUrls, StoredGallery.without_a_file.
  rewrite StoredGalleryFacts.stored_click_keeps_the_tiles, StoredGalleryFacts.stored_click_index.
  split; [now apply map_nth_error|].
  rewrite (filter_split_length StoredGallery.is_image StoredGallery.has_url).
  rewrite Nat.add_1_r, Hk. lia.
Qed.

Lemma stored_lightbox_witness :
  let s := PageSample.stored_page in
  let img :=
    PageSample.tile "c" (Some (lit "https://cdn.test/gallery-images/c.jpg"))
      "image" in
  nth_error (StoredGallery.filteredImages s) 2 = Some img
  /\ StoredGallery.without_a_file (2 + 1) s = 1
  /\ exists place,
       nth_error (StoredGallery.imageUrls (StoredGallery.handleImageClick 2 s))
         place = Some (StoredGallery.shown img)
       /\ StoredGallery.lightboxIndex (StoredGallery.handleImageClick 2 s)
          = Z.of_nat (place + StoredGallery.without_a_file (2 + 1) s).
Proof.
  assert (H : nth_error (StoredGallery.filteredImages PageSample.stored_page) 2
              = Some (PageSample.tile "c"
                        (Some (lit "https://cdn.test/gallery-images/c.jpg"))
                        "image")) by (vm_compute; reflexivity).
  split; [exact H|]. split; [vm_compute; reflexivity|].
  exact (proj2 (stored_lightbox_index PageSample.stored_page 2 H eq_refl eq_refl)).
Defined.


(** ** What the admin page stores and the service page reads *)

(** Each row of a loop carries the public URL of the path uploaded just
    before it. *)
Lemma batch_points {W} {B : Backend W} bucket table row column i fs evs res :
  (forall j url, url_of column (row j url) = Some url) ->
  batch bucket table row i fs evs res ->
  forall r, In r (attempted table evs) -> points_at bucket column evs r.
Proof.
  intros Hrow. induction 1 as [i | i f fs p e | i f fs p e | i f fs p evs res Hb IH];
    intros r; unfold attempted; simpl; rewrite ?String.eqb_refl; simpl.
  - intros [].
  - intros [].
  - intros [<- | []]. exists p, f. split; [now left | apply Hrow].
  - intros [<- | Hr].
    + exists p, f. split; [now left | apply Hrow].
    + destruct (IH r Hr) as (path & f' & Hin & Hu). exists path, f'.
      split; [right; right; exact Hin | exact Hu].
Qed.

Lemma points_at_more {W} {B : Backend W} bucket column l1 l l2 r :
  points_at bucket column l r -> points_at bucket column (l1 ++ l ++ l2) r.
Proof.
  intros (path & f & Hin & Hu). exists path, f. split; [|exact Hu].
  apply in_or_app. right. apply in_or_app. now left.
Qed.

Lemma media_row_url parent id j url :
  parent = "project_id"%string \/ parent = "service_id"%string ->
  url_of "image_url" (image_row parent id j url) = Some url
  /\ url_of "video_url" (video_row parent id j url) = Some url.
Proof. intros [-> | ->]; split; reflexivity. Qed.

(** The rows of the two loops of a submission, each pointing at an
    upload of the whole log. *)
Lemma two_loops_point {W} {B : Backend W} bucket t1 t2 row1 row2 c1 c2
  fs1 fs2 evs1 evs2 res1 res2 (first : Event) last :
  String.eqb t1 t2 = false -> String.eqb t2 t1 = false ->
  is_insert_into t1 (fst first) = false -> is_insert_into t2 (fst first) = false ->
  inserts t1 last = [] -> inserts t2 last = [] ->
  (forall j url, url_of c1 (row1 j url) = Some url) ->
  (forall j url, url_of c2 (row2 j url) = Some url) ->
  batch bucket t1 row1 0 fs1 evs1 res1 ->
  (batch bucket t2 row2 0 fs2 evs2 res2 \/ evs2 = []) ->
  let l := first :: evs1 ++ evs2 ++ last in
  (forall r, In r (attempted t1 l) -> points_at bucket c1 l r)
  /\ (forall r, In r (attempted t2 l) -> points_at bucket c2 l r).
Proof.
  intros E12 E21 F1 F2 L1 L2 R1 R2 Hb1 Hb2 l. subst l.
  assert (A1 : forall t, attempted t (first :: evs1 ++ evs2 ++ last)
               = attempted t [first] ++ attempted t evs1 ++ attempted t evs2
                 ++ attempted t last).
  { intros t. change (first :: evs1 ++ evs2 ++ last)
      with ([first] ++ evs1 ++ evs2 ++ last). now rewrite !attempted_app. }
  assert (N1 : attempted t1 [first] = []) by (unfold attempted; simpl; now rewrite F1).
  assert (N2 : attempted t2 [first] = []) by (unfold attempted; simpl; now rewrite F2).
  assert (O1 : attempted t1 evs2 = []).
  { destruct Hb2 as [Hb2 | ->]; [|reflexivity].
    apply attempted_none. eapply batch_other_table; eassumption. }
  assert (O2 : attempted t2 evs1 = []).
  { apply attempted_none. eapply batch_other_table; eassumption. }
  split; intros r; rewrite A1.
  - rewrite N1, O1, (attempted_none t1 last L1). simpl. rewrite app_nil_r.
    intros Hr. change (first :: evs1 ++ evs2 ++ last)
      with ([first] ++ evs1 ++ (evs2 ++ last)).
    apply points_at_more. eapply batch_points; eassumption.
  - rewrite N2, O2, (attempted_none t2 last L2). simpl. rewrite app_nil_r.
    intros Hr. destruct Hb2 as [Hb2 | ->]; [|destruct Hr].
    change (first :: evs1 ++ evs2 ++ last)
      with (([first] ++ evs1) ++ evs2 ++ last).
    apply points_at_more. eapply batch_points; eassumption.
Qed.

(** What the media rows of the three submissions carry. *)
Lemma media_rows_points_at {W} {B : Backend W} y (w : W) u :
  let lp := log (run (handleSubmit y u) w u) in
  let ls := log (run (handleServiceSubmit u) w u) in
  let lg := log (run (handleGallerySubmit u) w u) in
  ((forall r, In r (attempted "project_images" lp) ->
              points_at "project-images" "image_url" lp r)
   /\ (forall r, In r (attempted "project_videos" lp) ->
                 points_at "project-images" "video_url" lp r))
  /\ ((forall r, In r (attempted "service_images" ls) ->
                 points_at "service-images" "image_url" ls r)
      /\ (forall r, In r (attempted "service_videos" ls) ->
                    points_at "service-images" "video_url" ls r))
  /\ (forall r, In r (attempted "gallery" lg) ->
                points_at "gallery-images" "image_url" lg r
                \/ (field "image_url" r = Some VNull
                    /\ url_of "video_url" r
                       = Some (trim (galleryVideoUrl (gallery_form u))))).
Proof.
  cbv zeta.
  assert (Pi : forall id j url,
             url_of "image_url" (image_row "project_id" id j url) = Some url)
    by (intros; apply media_row_url; now left).
  assert (Pv : forall id j url,
             url_of "video_url" (video_row "project_id" id j url) = Some url)
    by (intros; apply media_row_url; now left).
  assert (Si : forall id j url,
             url_of "image_url" (image_row "service_id" id j url) = Some url)
    by (intros; apply media_row_url; now right).
  assert (Sv : forall id j url,
             url_of "video_url" (video_row "service_id" id j url) = Some url)
    by (intros; apply media_row_url; now right).
  assert (Nil : forall (P : Row -> Prop) t,
             forall r, In r (attempted t (@nil Event)) -> P r) by (intros P t r []).
  assert (One : forall (P : Row -> Prop) t (ev : Event),
             is_insert_into t (fst ev) = false ->
             forall r, In r (attempted t [ev]) -> P r).
  { intros P t ev E r. unfold attempted. simpl. rewrite E. intros []. }
  assert (Or : forall bucket t row fs evs2 (e : ApiError) res1,
             match res1 with
             | Some e1 => e1 = e /\ evs2 = []
             | None => batch bucket t row 0 fs evs2 (Some e)
             end ->
             batch bucket t row 0 fs evs2 (Some e) \/ evs2 = []).
  { intros bucket t row fs evs2 e [e1|] H; [right; apply H | left; exact H]. }
  refine (conj _ (conj _ _)).
  - destruct (handleSubmit_outcome y w u)
      as [iss P Hw Hl Ht Hu | v e P Hl Ht Hu
          | v id evs1 res1 evs2 e P Hb1 Hb2 Hl Ht Hu
          | v id evs1 evs2 sel rest P Hb1 Hb2 Hl Ht Hu]; rewrite Hl.
    + split; apply Nil.
    + split; apply One; reflexivity.
    + rewrite <- (app_nil_r evs2).
      refine (@two_loops_point _ _ _ "project_images" "project_videos" _ _ "image_url"
               "video_url" _ _ _ _ _ _ _ [] _ _ _ _ _ _
               (Pi id) (Pv id) Hb1 (Or _ _ _ _ _ _ _ Hb2)); reflexivity.
    + refine (@two_loops_point _ _ _ "project_images" "project_videos" _ _ "image_url"
               "video_url" _ _ _ _ _ _ _ _ _ _ _ _ _ _
               (Pi id) (Pv id) Hb1 (or_introl Hb2)); reflexivity.
  - destruct (handleServiceSubmit_outcome w u)
      as [iss P Hw Hl Ht Hu | v id e P Ed Hl Ht Hu | v id sel rest P Ed Hl Ht
          | v e P Ed Hl Ht Hu
          | v id evs1 res1 evs2 e P Ed Hb1 Hb2 Hl Ht Hu
          | v id evs1 evs2 sel rest P Ed Hb1 Hb2 Hl Ht]; rewrite Hl.
    + split; apply Nil.
    + split; apply One; reflexivity.
    + split; intros r [].
    + split; apply One; reflexivity.
    + rewrite <- (app_nil_r evs2).
      refine (@two_loops_point _ _ _ "service_images" "service_videos" _ _ "image_url"
               "video_url" _ _ _ _ _ _ _ [] _ _ _ _ _ _
               (Si id) (Sv id) Hb1 (Or _ _ _ _ _ _ _ Hb2)); reflexivity.
    + refine (@two_loops_point _ _ _ "service_images" "service_videos" _ _ "image_url"
               "video_url" _ _ _ _ _ _ _ _ _ _ _ _ _ _
               (Si id) (Sv id) Hb1 (or_introl Hb2)); reflexivity.
  - destruct (handleGallerySubmit_outcome w u)
      as [Mt Im Hw Hl Hu Ht | Mt Tr Hw Hl Hu Ht | iss P Hw Hl Ht Hu
          | v evs e Mt P Hb Hl Ht Hu | v evs sel rest Mt P Hb Hl Ht
          | v e Mt P Hl Ht Hu | v sel rest Mt P Hl Ht]; rewrite Hl.
    + apply Nil.
    + apply Nil.
    + apply Nil.
    + intros r Hr. left.
      eapply batch_points; [|exact Hb|exact Hr]. reflexivity.
    + intros r Hr. left. rewrite attempted_app in Hr.
      apply in_app_or in Hr as [Hr | []].
      rewrite <- (app_nil_l (evs ++ _)). apply points_at_more.
      eapply batch_points; [|exact Hb|exact Hr]. reflexivity.
    + intros r [<- | []]. right. split; reflexivity.
    + intros r [<- | []]. right. split; reflexivity.
Qed.

(** X25. Every media row a submission sends carries the public URL of a file
    that was uploaded, in the same run, to the bucket of its form; the
    row of a gallery video carries the URL that was typed, trimmed, and
    no image. *)
Theorem media_rows_carry_the_public_url {W} {B : Backend W} y (w : W) u :
  let lp := log (run (handleSubmit y u) w u) in
  let ls := log (run (handleServiceSubmit u) w u) in
  let lg := log (run (handleGallerySubmit u) w u) in
  ((forall r, In r (attempted "project_images" lp) ->
              points_at "project-images" "image_url" lp r)
   /\ (forall r, In r (attempted "project_videos" lp) ->
                 points_at "project-images" "video_url" lp r))
  /\ ((forall r, In r (attempted "service_images" ls) ->
                 points_at "service-images" "image_url" ls r)
      /\ (forall r, In r (attempted "service_videos" ls) ->
                    points_at "service-images" "video_url" ls r))
  /\ (forall r, In r (attempted "gallery" lg) ->
                points_at "gallery-images" "image_url" lg r
                \/ (field "image_url" r = Some VNull
                    /\ url_of "video_url" r
                       = Some (trim (galleryVideoUrl (gallery_form u))))).
Proof. exact (media_rows_points_at y w u). Qed.

Lemma media_rows_witness :
  let u := SimReader.service_one_image in
  let l := log (run (handleServiceSubmit u) (Sim.empty [] true) u) in
  let stored :=
    image_row "service_id" (lit "id-0") 0
      (Sim.sim_url "service-images" (lit "id-0/0.0.jpg")) in
  In stored (attempted "service_images" l)
  /\ points_at "service-images" "image_url" l stored.
Proof.
  cbv zeta.
  refine ((fun H =>
             conj H (proj1 (proj1 (proj2
               (media_rows_carry_the_public_url 2026 (Sim.empty [] true)
                  SimReader.service_one_image))) _ H)) _).
  vm_compute. left. reflexivity.
Defined.



(** ** The page of one service *)

Section ServicePage.

Import ServiceDetail.

Context {W Service ImageRow ServiceVideo : Type}.
Context {B : Backend W} {R : Reader W Service ImageRow ServiceVideo}.

(** The run of [fetchServiceDetails] once the service is found. *)
Lemma found_service slug (r : Run W Service ServiceVideo) sv w1 :
  truthy slug = true ->
  service_by_slug slug (world r) = (inr sv, w1) ->
  let ri := fst (images_of (service_id sv) w1) in
  let w2 := snd (images_of (service_id sv) w1) in
  let rv := fst (videos_of (service_id sv) w2) in
  let r' := fetchServiceDetails (Some slug) r in
  service (state r') = Some sv
  /\ images (state r')
     = match ri with
       | inr (Some rows) => imageUrls rows
       | _ => images (state r)
       end
  /\ videos (state r')
     = match rv with
       | inr (Some vs) => vs
       | _ => videos (state r)
       end
  /\ activeTab (state r') = activeTab (state r)
  /\ loading (state r') = false
  /\ sent r' = sent r ++ [ServiceBySlug slug; ImagesOf (service_id sv);
                          VideosOf (service_id sv)].
Proof.
  intros Hs Hq. cbv zeta. unfold fetchServiceDetails. rewrite Hs. simpl negb.
  cbv iota. rewrite Hq.
  destruct (images_of (service_id sv) w1) as [ri w2]. cbn [fst snd].
  destruct (videos_of (service_id sv) w2) as [rv w3]. cbn [fst snd].
  destruct (state r) as [s0 i0 v0 t0 l0].
  destruct ri as [e | [rows|]], rv as [e' | [vs|]]; repeat split.
Qed.

End ServicePage.

(** X26. The page of a service.  Without a slug nothing is asked and
    nothing changes.  With a slug the page stops loading whatever the
    data store replies, and what it does follows the reply to the
    service query: on an error that query is the only one sent and the
    page keeps the service, the images and the videos it held; on a row
    the service is set to it, the images and then the videos of its id
    are asked, the images become the public URLs of the rows replied
    (they are kept when that query fails or replies nothing), and the
    videos become the rows replied (likewise), the videos query being
    sent whatever the images query replied. *)
Theorem service_page_stops_loading {W Service ImageRow ServiceVideo : Type}
  {B : Backend W} {R : ServiceDetail.Reader W Service ImageRow ServiceVideo}
  (r : ServiceDetail.Run W Service ServiceVideo) :
  ServiceDetail.fetchServiceDetails None r = r
  /\ ServiceDetail.fetchServiceDetails (Some []) r = r
  /\ forall slug, truthy slug = true ->
       let r' := ServiceDetail.fetchServiceDetails (Some slug) r in
       let st := ServiceDetail.state r in
       let st' := ServiceDetail.state r' in
       let w1 := snd (ServiceDetail.service_by_slug slug (ServiceDetail.world r)) in
       ServiceDetail.loading st' = false
       /\ match fst (ServiceDetail.service_by_slug slug (ServiceDetail.world r)) with
          | inl _ =>
              ServiceDetail.sent r'
              = ServiceDetail.sent r ++ [ServiceDetail.ServiceBySlug slug]
              /\ ServiceDetail.service st' = ServiceDetail.service st
              /\ ServiceDetail.images st' = ServiceDetail.images st
              /\ ServiceDetail.videos st' = ServiceDetail.videos st
          | inr sv =>
              let id := ServiceDetail.service_id sv in
              let w2 := snd (ServiceDetail.images_of id w1) in
              ServiceDetail.sent r'
              = ServiceDetail.sent r
                ++ [ServiceDetail.ServiceBySlug slug; ServiceDetail.ImagesOf id;
                    ServiceDetail.VideosOf id]
              /\ ServiceDetail.service st' = Some sv
              /\ ServiceDetail.images st'
                 = match fst (ServiceDetail.images_of id w1) with
                   | inr (Some rows) => ServiceDetail.imageUrls rows
                   | _ => ServiceDetail.images st
                   end
              /\ ServiceDetail.videos st'
                 = match fst (ServiceDetail.videos_of id w2) with
                   | inr (Some vs) => vs
                   | _ => ServiceDetail.videos st
                   end
          end.
Proof.
  refine (conj eq_refl (conj eq_refl _)). intros slug Hs. cbv zeta.
  destruct (ServiceDetail.service_by_slug slug (ServiceDetail.world r))
    as [[e | sv] w1] eqn:Hq; cbn [fst snd].
  - unfold ServiceDetail.fetchServiceDetails. rewrite Hs. simpl negb.
    cbv iota. rewrite Hq. cbn [ServiceDetail.state ServiceDetail.sent].
    destruct (ServiceDetail.state r). repeat split.
  - destruct (found_service slug r Hs Hq) as (H1 & H2 & H3 & _ & H5 & H6).
    cbv zeta in H2, H3.
    split; [exact H5|]. split; [exact H6|]. split; [exact H1|].
    split; [exact H2 | exact H3].
Qed.

Lemma service_page_loading_witness :
  truthy (lit "no-such-service") = true
  /\ ServiceDetail.loading
       (ServiceDetail.state
          (ServiceDetail.fetchServiceDetails (Some (lit "no-such-service"))
             (SimReader.first_render SimReader.with_kitchen))) = false.
Proof.
  split; [reflexivity|].
  exact (proj1 (proj2 (proj2 (service_page_stops_loading (R := SimReader.reader)
                                (SimReader.first_render SimReader.with_kitchen)))
                  (lit "no-such-service") eq_refl)).
Defined.


(** X27. The service page asks for the public URL of what the admin page
    stored, which is already a public URL: for an image row that a
    service submission sent, once the page reads a row with that
    [image_url], it shows the public URL of the public URL of the
    uploaded path. *)
Theorem service_page_wraps_the_stored_url {W Service ImageRow ServiceVideo : Type}
  {B : Backend W} {R : ServiceDetail.Reader W Service ImageRow ServiceVideo}
  (w : W) u (r : ServiceDetail.Run W Service ServiceVideo) slug sv w1 rows w2
  stored read :
  let l := log (run (handleServiceSubmit u) w u) in
  In stored (attempted "service_images" l) ->
  truthy slug = true ->
  ServiceDetail.service_by_slug slug (ServiceDetail.world r) = (inr sv, w1) ->
  ServiceDetail.images_of (ServiceDetail.service_id sv) w1 = (inr (Some rows), w2) ->
  In read rows ->
  url_of "image_url" stored = Some (ServiceDetail.image_url read) ->
  exists path f,
    In (StorageUpload "service-images" path f, Done) l
    /\ In (getPublicUrl "service-images" (getPublicUrl "service-images" path))
          (ServiceDetail.images
             (ServiceDetail.state
                (ServiceDetail.fetchServiceDetails (Some slug) r))).
Proof.
  intros l Hin Hs Hq Hi Hr Hu.
  destruct (media_rows_points_at 0 w u) as (_ & (Hp & _) & _).
  destruct (Hp stored Hin) as (path & f & Hup & Hurl).
  exists path, f. split; [exact Hup|].
  destruct (found_service slug r Hs Hq) as (_ & H2 & _).
  rewrite H2, Hi. cbn [fst]. unfold ServiceDetail.imageUrls.
  apply in_map_iff. exists read. split; [|exact Hr].
  rewrite Hurl in Hu. injection Hu as <-. reflexivity.
Qed.

Lemma service_page_witness :
  let u := SimReader.service_one_image in
  let l := log (run (handleServiceSubmit u) (Sim.empty [] true) u) in
  let path := lit "id-0/0.0.jpg" in
  let stored :=
    image_row "service_id" (lit "id-0") 0 (Sim.sim_url "service-images" path) in
  In stored (attempted "service_images" l)
  /\ exists path' f,
       In (StorageUpload "service-images" path' f, Done) l
       /\ In (Sim.sim_url "service-images" (Sim.sim_url "service-images" path'))
            (ServiceDetail.images
               (ServiceDetail.state
                  (ServiceDetail.fetchServiceDetails (Some (lit "kitchen"))
                     (SimReader.first_render SimReader.with_kitchen)))).
Proof.
  cbv zeta.
  assert (H : In (image_row "service_id" (lit "id-0") 0
                    (Sim.sim_url "service-images" (lit "id-0/0.0.jpg")))
                (attempted "service_images"
                   (log (run (handleServiceSubmit SimReader.service_one_image)
                           (Sim.empty [] true) SimReader.service_one_image))))
    by (vm_compute; left; reflexivity).
  split; [exact H|].
  refine (service_page_wraps_the_stored_url (R := SimReader.reader)
            (Sim.empty [] true) SimReader.service_one_image
            (SimReader.first_render SimReader.with_kitchen) (lit "kitchen")
            _ (image_row "service_id" (lit "id-0") 0
                 (Sim.sim_url "service-images" (lit "id-0/0.0.jpg")))
            H eq_refl _ _ _ _).
  - cbv. reflexivity.
  - cbv. reflexivity.
  - left. reflexivity.
  - reflexivity.
Defined.
